(** * flask_session_azure.storage_account: an encrypted record store

    A shallow embedding of [StorageAccount] (write / read / delete and the
    static [encrypt] / [decrypt] helpers) together with executable models of
    the libraries it calls: [base64], PyCryptodome's AES in EAX mode, [json]
    and the Azure table service. *)

From Stdlib Require Import ZArith Lia List Bool.
From Stdlib Require Import Strings.Byte Strings.Ascii Strings.String.
From Stdlib Require Import DecimalString.
From Stdlib Require Import Floats.SpecFloat.
From Stdlib Require Import Btauto.
From stdpp Require Import base option gmap strings.

Import ListNotations.
Local Open Scope string_scope.
Local Open Scope list_scope.
Local Open Scope Z_scope.

(** ** Bytes

    Python [bytes] are [list byte].  A Python [str] is a Rocq [string] read
    as the UTF-8 encoding of the text, so [s.encode("utf-8")] is the list
    of its bytes and [b.decode("ascii")] puts ASCII bytes back in a str. *)

Definition bytes := list byte.

Definition Z_of_byte (b : byte) : Z := Z.of_N (Byte.to_N b).

Definition byte_of_Z (z : Z) : byte :=
  match Byte.of_N (Z.to_N (z mod 256)) with
  | Some b => b
  | None => x00
  end.

Definition encode_utf8 (s : string) : bytes := list_byte_of_string s.
Definition decode_ascii (b : bytes) : string := string_of_list_byte b.

Definition byte_xor (a b : byte) : byte :=
  let '(a0, (a1, (a2, (a3, (a4, (a5, (a6, a7))))))) := Byte.to_bits a in
  let '(b0, (b1, (b2, (b3, (b4, (b5, (b6, b7))))))) := Byte.to_bits b in
  Byte.of_bits (xorb a0 b0, (xorb a1 b1, (xorb a2 b2, (xorb a3 b3,
               (xorb a4 b4, (xorb a5 b5, (xorb a6 b6, xorb a7 b7))))))).

(** [strxor]: the data is combined with as much of the key stream as it
    needs. *)
Fixpoint xor_bytes (data stream : bytes) : bytes :=
  match data, stream with
  | d :: data', k :: stream' => byte_xor d k :: xor_bytes data' stream'
  | _, _ => []
  end.

(** ** Exceptions and results

    The Python exceptions this module can meet.  [binascii.Error] and
    [json.JSONDecodeError] are subclasses of [ValueError]. *)

Inductive exn : Type :=
| AzureMissingResourceHttpError
| AzureHttpError (status : Z)
| ValueError (msg : string)
| BinasciiError (msg : string)
| JSONDecodeError (msg : string)
| UnicodeDecodeError
| TypeError (msg : string)
| KeyError (name : string).

Definition isinstance_ValueError (e : exn) : bool :=
  match e with
  | ValueError _ | BinasciiError _ | JSONDecodeError _ | UnicodeDecodeError => true
  | _ => false
  end.

Definition isinstance_AzureMissingResourceHttpError (e : exn) : bool :=
  match e with
  | AzureMissingResourceHttpError => true
  | _ => false
  end.

Inductive result (A : Type) : Type :=
| Ret (a : A)
| Raise (e : exn).
Arguments Ret {A} a.
Arguments Raise {A} e.

Definition result_bind {A B} (r : result A) (k : A -> result B) : result B :=
  match r with
  | Ret a => k a
  | Raise e => Raise e
  end.

(** ** base64

    [b64encode] is RFC 4648 with padding.  [b64decode] is
    [base64.b64decode(s)] with [validate=False]: a str argument must be
    ASCII, then [binascii.a2b_base64] skips every character outside the
    alphabet, stops at a pad sequence and checks that no bits are left. *)

Module Base64.

Definition alphabet : list ascii :=
  list_ascii_of_string
    "ABCDEFGHIJKLMNOPQRSTUVWXYZabcdefghijklmnopqrstuvwxyz0123456789+/".

Definition b64_char (v : Z) : ascii := nth (Z.to_nat v) alphabet "A"%char.

Definition code (c : ascii) : Z := Z.of_N (N_of_ascii c).

Definition b64_index (c : ascii) : option Z :=
  let n := code c in
  if (65 <=? n) && (n <=? 90) then Some (n - 65)
  else if (97 <=? n) && (n <=? 122) then Some (n - 71)
  else if (48 <=? n) && (n <=? 57) then Some (n + 4)
  else if n =? 43 then Some 62
  else if n =? 47 then Some 63
  else None.

Definition pad : ascii := "="%char.

Fixpoint b64encode_chars (l : bytes) : list ascii :=
  match l with
  | [] => []
  | [a] =>
      let x := Z_of_byte a in
      [b64_char (x / 4); b64_char ((x mod 4) * 16); pad; pad]
  | [a; b] =>
      let x := Z_of_byte a in
      let y := Z_of_byte b in
      [b64_char (x / 4); b64_char ((x mod 4) * 16 + y / 16);
       b64_char ((y mod 16) * 4); pad]
  | a :: b :: c :: rest =>
      let x := Z_of_byte a in
      let y := Z_of_byte b in
      let z := Z_of_byte c in
      b64_char (x / 4) :: b64_char ((x mod 4) * 16 + y / 16)
        :: b64_char ((y mod 16) * 4 + z / 64) :: b64_char (z mod 64)
        :: b64encode_chars rest
  end.

(** [base64.b64encode(b).decode("ascii")] *)
Definition b64encode (l : bytes) : string :=
  string_of_list_ascii (b64encode_chars l).

(** A character that [a2b_base64] counts: in the alphabet, or the pad. *)
Definition valid_char (c : ascii) : bool :=
  match b64_index c with
  | Some _ => true
  | None => Ascii.eqb c pad
  end.

(** [binascii_find_valid(s, len, 1)] called on the text that starts at a
    pad: the next counted character after that pad, if any. *)
Fixpoint next_valid (s : list ascii) : option ascii :=
  match s with
  | [] => None
  | c :: s' => if valid_char c then Some c else next_valid s'
  end.

Record a2b_state : Type := mk_a2b {
  quad_pos : Z;
  leftchar : Z;
  leftbits : Z;
  bin_data : bytes   (* output so far, last byte first *)
}.

(** The message for one data character too many; the count is
    [(bin_data - bin_data_start) / 3 * 4 + 1]. *)
Definition one_more_than_multiple_of_4 (decoded : nat) : string :=
  "Invalid base64-encoded string: number of data characters ("
  ++ NilZero.string_of_uint (Nat.to_uint (Nat.div decoded 3 * 4 + 1))
  ++ ") cannot be 1 more than a multiple of 4".

Definition a2b_finish (st : a2b_state) : result bytes :=
  if leftbits st =? 0 then Ret (rev (bin_data st))
  else if leftbits st =? 6 then
    Raise (BinasciiError (one_more_than_multiple_of_4 (length (bin_data st))))
  else Raise (BinasciiError "Incorrect padding").

Fixpoint a2b_loop (s : list ascii) (st : a2b_state) : result bytes :=
  match s with
  | [] => a2b_finish st
  | c :: s' =>
      if Ascii.eqb c pad then
        if (quad_pos st <? 2)
           || ((quad_pos st =? 2)
               && negb (match next_valid s' with
                        | Some c' => Ascii.eqb c' pad
                        | None => false
                        end))
        then a2b_loop s' st
        else Ret (rev (bin_data st))
      else
        match b64_index c with
        | None => a2b_loop s' st
        | Some v =>
            let lc := leftchar st * 64 + v in
            let lb := leftbits st + 6 in
            let qp := (quad_pos st + 1) mod 4 in
            if 8 <=? lb then
              a2b_loop s'
                (mk_a2b qp (lc mod 2 ^ (lb - 8)) (lb - 8)
                        (byte_of_Z (lc / 2 ^ (lb - 8)) :: bin_data st))
            else a2b_loop s' (mk_a2b qp lc lb (bin_data st))
        end
  end.

Definition a2b_base64 (s : list ascii) : result bytes :=
  a2b_loop s (mk_a2b 0 0 0 []).

Definition is_ascii (c : ascii) : bool := code c <? 128.

Definition b64decode (s : string) : result bytes :=
  let cs := list_ascii_of_string s in
  if forallb is_ascii cs then a2b_base64 cs
  else Raise (ValueError "string argument should contain only ASCII characters").

End Base64.

(** ** AES (FIPS 197)

    The block cipher behind [Crypto.Cipher.AES].  The S-box is computed
    from its definition (inverse in GF(2^8), then the affine map) and
    tabulated once. *)

Module AES.

Definition xtime (a : Z) : Z :=
  let a2 := 2 * a in
  if 256 <=? a2 then Z.lxor (a2 - 256) 27 else a2.

Fixpoint gmul_aux (n : nat) (a b acc : Z) : Z :=
  match n with
  | O => acc
  | S n' => gmul_aux n' (xtime a) (b / 2) (if Z.odd b then Z.lxor acc a else acc)
  end.

Definition gmul (a b : Z) : Z := gmul_aux 8 a b 0.

Fixpoint gpow (a : Z) (n : nat) : Z :=
  match n with
  | O => 1
  | S n' => gmul a (gpow a n')
  end.

Definition rotl8 (x k : Z) : Z := (x * 2 ^ k) mod 256 + x / 2 ^ (8 - k).

Definition sbox_calc (x : Z) : Z :=
  let b := gpow x 254 in
  Z.lxor b (Z.lxor (rotl8 b 1) (Z.lxor (rotl8 b 2)
    (Z.lxor (rotl8 b 3) (Z.lxor (rotl8 b 4) 99)))).

Definition sbox_table : list Z :=
  Eval vm_compute in map (fun n => sbox_calc (Z.of_nat n)) (seq 0 256).

Definition sbox (x : Z) : Z := nth (Z.to_nat x) sbox_table 0.

Definition word := list Z.

Definition xor_word (a b : word) : word := map (fun p => Z.lxor (fst p) (snd p)) (combine a b).

Definition sub_word (w : word) : word := map sbox w.

Definition rot_word (w : word) : word :=
  match w with
  | a :: r => r ++ [a]
  | [] => []
  end.

Fixpoint rcon (j : nat) : Z :=
  match j with
  | O => 0
  | S O => 1
  | S j' => xtime (rcon j')
  end.

(** [expand nk n i ws]: [ws] holds the words w[i-1], w[i-2], ... (newest
    first); [n] more words are appended. *)
Fixpoint expand (nk : nat) (n : nat) (i : nat) (ws : list word) : list word :=
  match n with
  | O => ws
  | S n' =>
      let prev := nth 0 ws [] in
      let temp :=
        if Nat.eqb (Nat.modulo i nk) 0 then
          xor_word (sub_word (rot_word prev)) [rcon (Nat.div i nk); 0; 0; 0]
        else if Nat.ltb 6 nk && Nat.eqb (Nat.modulo i nk) 4 then sub_word prev
        else prev in
      expand nk n' (S i) (xor_word (nth (Nat.pred nk) ws []) temp :: ws)
  end.

Fixpoint words_of (l : list Z) (n : nat) : list word :=
  match n with
  | O => []
  | S n' => firstn 4 l :: words_of (skipn 4 l) n'
  end.

(** The round keys, in order, each as 16 bytes. *)
Definition key_expansion (key : list Z) : list (list Z) :=
  let nk := Nat.div (length key) 4 in
  let nr := (nk + 6)%nat in
  let ws := rev (expand nk (4 * (nr + 1) - nk) nk (rev (words_of key nk))) in
  map (fun r => concat (firstn 4 (skipn (4 * r) ws))) (seq 0 (nr + 1)).

Definition add_round_key (st rk : list Z) : list Z := xor_word st rk.

Definition sub_bytes (st : list Z) : list Z := map sbox st.

(** The state is kept column by column: byte [4*c + r] is row [r] of
    column [c]. *)
Definition shift_rows (st : list Z) : list Z :=
  map (fun i => nth (4 * Nat.modulo (Nat.div i 4 + Nat.modulo i 4) 4 + Nat.modulo i 4) st 0)
      (seq 0 16).

Definition mix_column (c : list Z) : list Z :=
  match c with
  | [a0; a1; a2; a3] =>
      [Z.lxor (gmul 2 a0) (Z.lxor (gmul 3 a1) (Z.lxor a2 a3));
       Z.lxor a0 (Z.lxor (gmul 2 a1) (Z.lxor (gmul 3 a2) a3));
       Z.lxor a0 (Z.lxor a1 (Z.lxor (gmul 2 a2) (gmul 3 a3)));
       Z.lxor (gmul 3 a0) (Z.lxor a1 (Z.lxor a2 (gmul 2 a3)))]
  | _ => c
  end.

Definition mix_columns (st : list Z) : list Z :=
  concat (map mix_column (words_of st 4)).

Fixpoint rounds (st : list Z) (rks : list (list Z)) : list Z :=
  match rks with
  | [] => st
  | [rk] => add_round_key (shift_rows (sub_bytes st)) rk
  | rk :: rks' =>
      rounds (add_round_key (mix_columns (shift_rows (sub_bytes st))) rk) rks'
  end.

Definition cipher (key block : list Z) : list Z :=
  match key_expansion key with
  | [] => block
  | rk0 :: rks => rounds (add_round_key block rk0) rks
  end.

(** The key sizes [AES.new] accepts. *)
Definition key_size : list nat := [16; 24; 32]%nat.

Definition block_size : nat := 16.

(** One block through the cipher, bytes in and exactly [block_size]
    bytes out. *)
Definition encrypt_block (key block : bytes) : bytes :=
  let out := cipher (map Z_of_byte key) (map Z_of_byte block) in
  map (fun i => byte_of_Z (nth i out 0)) (seq 0 block_size).

End AES.

(** ** Randomness

    [Crypto.Random.get_random_bytes] reads the operating system's entropy.
    The entropy is a tape of bytes and a cursor: each call returns the next
    [n] bytes and moves the cursor past them. *)

Record rng : Type := mk_rng {
  tape : nat -> byte;
  cursor : nat
}.

Definition get_random_bytes (n : nat) (g : rng) : bytes * rng :=
  (map (tape g) (seq (cursor g) n), mk_rng (tape g) (cursor g + n)).

(** ** CMAC (OMAC1) over AES, as [Crypto.Hash.CMAC] computes it *)

Module CMAC.

Fixpoint bytes_to_long (l : bytes) (acc : Z) : Z :=
  match l with
  | [] => acc
  | b :: l' => bytes_to_long l' (acc * 256 + Z_of_byte b)
  end.

(** [long_to_bytes(n, 16)]: sixteen bytes, most significant first. *)
Definition long_to_block (n : Z) : bytes :=
  map (fun i => byte_of_Z (n / 256 ^ (15 - Z.of_nat i))) (seq 0 16).

Definition zero_block : bytes := repeat x00 16.

(** Doubling in GF(2^128). *)
Definition dbl (b : bytes) : bytes :=
  let x := bytes_to_long b 0 in
  let y := (2 * x) mod 2 ^ 128 in
  long_to_block (if 2 ^ 127 <=? x then Z.lxor y 135 else y).

(** 10* padding of a short last block. *)
Definition pad_block (buf : bytes) : bytes :=
  firstn 16 (buf ++ x80 :: repeat x00 16).

(** [absorb key msg chain buf]: CBC-MAC over the message, keeping the last
    (possibly partial, possibly full) block in [buf] for the final step. *)
Fixpoint absorb (key : bytes) (msg : bytes) (chain buf : bytes) : bytes * bytes :=
  match msg with
  | [] => (chain, buf)
  | b :: msg' =>
      if Nat.eqb (length buf) 16
      then absorb key msg' (AES.encrypt_block key (xor_bytes chain buf)) [b]
      else absorb key msg' chain (buf ++ [b])
  end.

Definition digest (key msg : bytes) : bytes :=
  let k1 := dbl (AES.encrypt_block key zero_block) in
  let k2 := dbl k1 in
  let '(chain, buf) := absorb key msg zero_block [] in
  if Nat.eqb (length buf) 16
  then AES.encrypt_block key (xor_bytes (xor_bytes chain buf) k1)
  else AES.encrypt_block key (xor_bytes (xor_bytes chain (pad_block buf)) k2).

End CMAC.

(** ** EAX mode, as [Crypto.Cipher._mode_eax.EaxMode] *)

Module EAX.

(** OMAC^t: the CMAC of the message behind a block that holds [t]. *)
Definition omac (t : byte) (key msg : bytes) : bytes :=
  CMAC.digest key (repeat x00 15 ++ [t] ++ msg).

(** The CTR key stream: block [j] is the encryption of the counter
    [initial_value + j], a 128-bit big-endian number that wraps. *)
Definition keystream (key : bytes) (initial_value : Z) (nblocks : nat) : bytes :=
  flat_map
    (fun j => AES.encrypt_block key
                (CMAC.long_to_block ((initial_value + Z.of_nat j) mod 2 ^ 128)))
    (seq 0 nblocks).

Definition ctr (key nonce data : bytes) : bytes :=
  let counter_int := CMAC.bytes_to_long (omac x00 key nonce) 0 in
  xor_bytes data (keystream key counter_int (Nat.div (length data + 15) 16)).

(** The tag over nonce, header and ciphertext; [mac_len] is the block
    size. *)
Definition tag_of (key nonce header ciphertext : bytes) : bytes :=
  xor_bytes (xor_bytes (omac x00 key nonce) (omac x01 key header))
            (omac x02 key ciphertext).

(** No associated data is ever passed to [update]: the header is empty. *)
Definition mac_tag (key nonce ciphertext : bytes) : bytes :=
  tag_of key nonce [] ciphertext.

(** The cipher object: its key and nonce, and the ciphertext its MAC has
    absorbed so far. *)
Record cipher : Type := mk_cipher {
  key : bytes;
  nonce : bytes;
  absorbed : bytes
}.

(** ["Incorrect AES key length (%d bytes)" % len(key)] *)
Definition incorrect_key_length (len : nat) : string :=
  "Incorrect AES key length ("
  ++ NilZero.string_of_uint (Nat.to_uint len) ++ " bytes)".

(** [AES.new(key, AES.MODE_EAX, nonce=nonce)] *)
Definition new_with_nonce (k n : bytes) : result cipher :=
  if Nat.eqb (length n) 0 then Raise (ValueError "Nonce cannot be empty in EAX mode")
  else if existsb (Nat.eqb (length k)) AES.key_size then Ret (mk_cipher k n [])
  else Raise (ValueError (incorrect_key_length (length k))).

(** [AES.new(key, AES.MODE_EAX)]: the nonce is sixteen fresh random
    bytes, drawn before the key is looked at. *)
Definition new (k : bytes) (g : rng) : result cipher * rng :=
  let '(n, g') := get_random_bytes 16 g in
  (new_with_nonce k n, g').

(** [cipher.encrypt_and_digest(plaintext)] *)
Definition encrypt_and_digest (c : cipher) (plaintext : bytes) : bytes * bytes :=
  let ciphertext := ctr (key c) (nonce c) plaintext in
  (ciphertext, mac_tag (key c) (nonce c) ciphertext).

(** [cipher.decrypt(ciphertext)]: the ciphertext goes into the MAC, the
    plaintext comes out unverified. *)
Definition decrypt (c : cipher) (ciphertext : bytes) : bytes * cipher :=
  (ctr (key c) (nonce c) ciphertext,
   mk_cipher (key c) (nonce c) (absorbed c ++ ciphertext)).

Fixpoint bytes_eqb (a b : bytes) : bool :=
  match a, b with
  | [], [] => true
  | x :: a', y :: b' => Byte.eqb x y && bytes_eqb a' b'
  | _, _ => false
  end.

(** [cipher.verify(received_mac_tag)].  The two tags are compared
    through their BLAKE2s digests under sixteen random bytes drawn for
    the purpose: the bytes are drawn on every call, and the digests are
    equal exactly when the tags are. *)
Definition verify (c : cipher) (received_mac_tag : bytes) (g : rng)
  : result unit * rng :=
  let '(secret, g') := get_random_bytes 16 g in
  (if bytes_eqb (mac_tag (key c) (nonce c) (absorbed c)) received_mac_tag
   then Ret tt
   else Raise (ValueError "MAC check failed"), g').

End EAX.

(** ** A monad for state and exceptions

    A computation reads and changes a world [W] and either returns or
    raises; what it changed before raising stays changed. *)

Definition M (W A : Type) : Type := W -> result A * W.

Definition ret {W A} (a : A) : M W A := fun w => (Ret a, w).

Definition raise {W A} (e : exn) : M W A := fun w => (Raise e, w).

Definition bind {W A B} (c : M W A) (k : A -> M W B) : M W B :=
  fun w =>
    match c w with
    | (Ret a, w') => k a w'
    | (Raise e, w') => (Raise e, w')
    end.

Definition lift {W A} (r : result A) : M W A := fun w => (r, w).

(** [try: body  except E: handler], with [catches] telling which
    exceptions are instances of [E]. *)
Definition try_except {W A} (body : M W A) (catches : exn -> bool)
           (handler : exn -> M W A) : M W A :=
  fun w =>
    match body w with
    | (Ret a, w') => (Ret a, w')
    | (Raise e, w') => if catches e then handler e w' else (Raise e, w')
    end.

Declare Scope monad_scope.
Delimit Scope monad_scope with monad.
Notation "x <- c ;; k" := (bind c (fun x => k))
  (at level 90, c at next level, right associativity) : monad_scope.
Notation "c ;;; k" := (bind c (fun _ => k))
  (at level 90, right associativity) : monad_scope.

(** ** The libraries behind the store

    [json] and the table service are collaborators: the store is written
    against their interfaces. *)

(** [json.dumps] and [json.loads] over some type of Python values. *)
Class Json (value : Type) : Type := {
  json_dumps : value -> result string;
  json_loads : bytes -> result value
}.

(** An entity is a dictionary from property names to values. *)
Abbreviation entity := (gmap string string).

(** [azure.cosmosdb.table.TableService], over the state [S] of the
    remote service. *)
Class TableService (S : Type) : Type := {
  insert_or_merge_entity : string -> entity -> S -> result unit * S;
  get_entity : string -> string -> string -> S -> result entity * S;
  delete_entity : string -> string -> string -> S -> result unit * S;
  create_table : string -> S -> result bool * S
}.

(** The world of a call: the entropy pool and the remote service. *)
Record world (S : Type) : Type := mk_world {
  entropy : rng;
  service : S
}.
Arguments mk_world {S} _ _.
Arguments entropy {S} _.
Arguments service {S} _.

Definition with_entropy {S A} (f : rng -> result A * rng) : M (world S) A :=
  fun w => let '(r, g) := f (entropy w) in (r, mk_world g (service w)).

Definition with_service {S A} (f : S -> result A * S) : M (world S) A :=
  fun w => let '(r, s) := f (service w) in (r, mk_world (entropy w) s).

(** [data[name]] on an entity. *)
Definition getitem (data : entity) (name : string) : result string :=
  match data !! name with
  | Some v => Ret v
  | None => Raise (KeyError name)
  end.

(** ** StorageAccount *)

Record StorageAccount : Type := mk_StorageAccount {
  table_name : string;
  partition_key : string;
  create_table_if_not_exists : bool
}.

(** [StorageAccount.encrypt(data, secret_text)] *)
Definition encrypt (data secret_text : string) (g : rng)
  : result (string * string * string) * rng :=
  match EAX.new (encode_utf8 secret_text) g with
  | (Raise e, g') => (Raise e, g')
  | (Ret cipher, g') =>
      let '(ciphertext, tag) := EAX.encrypt_and_digest cipher (encode_utf8 data) in
      (Ret (Base64.b64encode ciphertext,
            Base64.b64encode tag,
            Base64.b64encode (EAX.nonce cipher)), g')
  end.

(** [StorageAccount.decrypt(encrypted_data, verification_tag, nonce,
    secret_text)]; [None] is Python's [None].  Only [cipher.verify] is
    inside the [try]. *)
Definition decrypt (encrypted_data verification_tag nonce secret_text : string)
  : M rng (option bytes) :=
  (nonce <- lift (Base64.b64decode nonce) ;;
   cipher <- lift (EAX.new_with_nonce (encode_utf8 secret_text) nonce) ;;
   data <- lift (Base64.b64decode encrypted_data) ;;
   let '(plaintext, cipher) := EAX.decrypt cipher data in
   tag <- lift (Base64.b64decode verification_tag) ;;
   try_except
     (EAX.verify cipher tag ;;; ret (Some plaintext))
     isinstance_ValueError
     (fun _ => ret None))%monad.

Section Store.

Context {value : Type} `{Json value} {S : Type} `{TableService S}.

Local Open Scope monad_scope.

Definition make_entity (self : StorageAccount) (key encoded_data tag nonce : string)
  : entity :=
  <["PartitionKey" := partition_key self]>
  (<["RowKey" := key]>
  (<["Data" := encoded_data]>
  (<["Tag" := tag]>
  (<["Nonce" := nonce]> ∅)))).

(** [StorageAccount.write(key, data, encryption_key)] *)
Definition write (self : StorageAccount) (key : string) (data : value)
           (encryption_key : string) : M (world S) unit :=
  data <- lift (json_dumps data) ;;
  triple <- with_entropy (encrypt data encryption_key) ;;
  let '(encoded_data, tag, nonce) := triple in
  let entity := make_entity self key encoded_data tag nonce in
  try_except
    (with_service (insert_or_merge_entity (table_name self) entity))
    isinstance_AzureMissingResourceHttpError
    (fun e =>
       if negb (create_table_if_not_exists self) then raise e
       else
         with_service (create_table (table_name self)) ;;;
         with_service (insert_or_merge_entity (table_name self) entity)).

(** [StorageAccount.read(key, encryption_key)] *)
Definition read (self : StorageAccount) (key : string) (encryption_key : string)
  : M (world S) (option value) :=
  try_except
    (data <- with_service (get_entity (table_name self) (partition_key self) key) ;;
     encrypted_data <- lift (getitem data "Data") ;;
     verification_tag <- lift (getitem data "Tag") ;;
     nonce <- lift (getitem data "Nonce") ;;
     decoded <- with_entropy (decrypt encrypted_data verification_tag nonce encryption_key) ;;
     match decoded with
     | Some decoded => v <- lift (json_loads decoded) ;; ret (Some v)
     | None => ret None
     end)
    isinstance_AzureMissingResourceHttpError
    (fun _ => ret None).

(** [StorageAccount.delete(key)] *)
Definition delete (self : StorageAccount) (key : string) : M (world S) unit :=
  try_except
    (with_service (delete_entity (table_name self) (partition_key self) key))
    isinstance_AzureMissingResourceHttpError
    (fun _ => ret tt).

End Store.

(** ** A table service in memory

    Tables by name, rows by (PartitionKey, RowKey).  A missing table or a
    missing row answers 404, which the client raises as
    [AzureMissingResourceHttpError]. *)

Abbreviation rows := (gmap (string * string) (gmap string string)).
Abbreviation tables := (gmap string (gmap (string * string) (gmap string string))).

Definition mem_insert_or_merge_entity (tn : string) (e : entity) (st : tables)
  : result unit * tables :=
  match e !! "PartitionKey", e !! "RowKey" with
  | Some pk, Some rk =>
      match st !! tn with
      | None => (Raise AzureMissingResourceHttpError, st)
      | Some rs =>
          let old := default ∅ (rs !! (pk, rk)) in
          (Ret tt, <[tn := <[(pk, rk) := e ∪ old]> rs]> st)
      end
  | _, _ => (Raise (ValueError "PartitionKey and RowKey must be specified"), st)
  end.

Definition mem_get_entity (tn pk rk : string) (st : tables)
  : result entity * tables :=
  match st !! tn with
  | None => (Raise AzureMissingResourceHttpError, st)
  | Some rs =>
      match rs !! (pk, rk) with
      | None => (Raise AzureMissingResourceHttpError, st)
      | Some e => (Ret e, st)
      end
  end.

Definition mem_delete_entity (tn pk rk : string) (st : tables)
  : result unit * tables :=
  match st !! tn with
  | None => (Raise AzureMissingResourceHttpError, st)
  | Some rs =>
      match rs !! (pk, rk) with
      | None => (Raise AzureMissingResourceHttpError, st)
      | Some _ => (Ret tt, <[tn := base.delete (pk, rk) rs]> st)
      end
  end.

(** [create_table(name)] with [fail_on_exist=False]. *)
Definition mem_create_table (tn : string) (st : tables) : result bool * tables :=
  match st !! tn with
  | Some _ => (Ret false, st)
  | None => (Ret true, <[tn := ∅]> st)
  end.

#[global] Instance mem_tables : TableService tables := {
  insert_or_merge_entity := mem_insert_or_merge_entity;
  get_entity := mem_get_entity;
  delete_entity := mem_delete_entity;
  create_table := mem_create_table
}.

(** The row stored under a table, partition key and row key. *)
Definition row (st : tables) (tn pk rk : string) : option entity :=
  match st !! tn with
  | Some rs => rs !! (pk, rk)
  | None => None
  end.

(** ** A scripted table service

    A service that answers each request with the next reply of a script
    and keeps a log of the requests it received: any behaviour a backend
    can show to one caller is some script. *)

Inductive request : Type :=
| InsertOrMergeEntity (tn : string) (e : entity)
| GetEntity (tn pk rk : string)
| DeleteEntity (tn pk rk : string)
| CreateTable (tn : string).

Inductive reply : Type :=
| Done                    (* the request succeeded *)
| Found (e : entity)      (* the entity a get returns *)
| Fails (e : exn).        (* the request raised *)

Record script : Type := mk_script {
  replies : list reply;
  requests : list request   (* latest first *)
}.

Definition answer {A} (rq : request) (ok : reply -> A) (sc : script)
  : result A * script :=
  match replies sc with
  | Fails e :: rs => (Raise e, mk_script rs (rq :: requests sc))
  | r :: rs => (Ret (ok r), mk_script rs (rq :: requests sc))
  | [] => (Ret (ok Done), mk_script [] (rq :: requests sc))
  end.

#[global] Instance scripted : TableService script := {
  insert_or_merge_entity tn e := answer (InsertOrMergeEntity tn e) (fun _ => tt);
  get_entity tn pk rk :=
    answer (GetEntity tn pk rk)
           (fun r => match r with Found e => e | _ => ∅ end);
  delete_entity tn pk rk := answer (DeleteEntity tn pk rk) (fun _ => tt);
  create_table tn := answer (CreateTable tn) (fun _ => true)
}.

Definition is_upsert (rq : request) : bool :=
  match rq with
  | InsertOrMergeEntity _ _ => true
  | _ => false
  end.

(** How many upserts a log holds. *)
Definition upserts (log : list request) : nat := length (List.filter is_upsert log).

(** ** json

    Python values as [json.dumps] meets them, with [json.dumps] at its
    defaults (separators [", "] and [": "], [ensure_ascii=True],
    [allow_nan=True], [skipkeys=False]) and [json.loads] on bytes.  A
    float is an IEEE 754 binary64 number, in the Standard Library's
    [spec_float]. *)

#[local] Set Warnings "-register-all".

Inductive pyvalue : Type :=
| PyNone
| PyBool (b : bool)
| PyInt (z : Z)
| PyFloat (x : spec_float)
| PyStr (s : string)
| PyList (items : list pyvalue)
| PyTuple (items : list pyvalue)
| PyDict (items : list (pyvalue * pyvalue))
| PySet (items : list pyvalue).

(** *** Floats: [float(text)] and [float.__repr__] *)

Module PyFloat.

Definition prec : Z := 53.
Definition emax : Z := 1024.

(** How many decimal digits a positive number has. *)
Definition digits10 (z : Z) : Z :=
  Z.of_nat (String.length (NilZero.string_of_uint (N.to_uint (Z.to_N z)))).

(** [m * 10 ^ e10], rounded to the nearest float, ties to even; [m] is
    not negative.  Beyond 10^309 the result is infinite, below 10^-330 it
    is zero. *)
Definition of_decimal (neg : bool) (m e10 : Z) : spec_float :=
  if m =? 0 then S754_zero neg
  else if 309 <=? digits10 m - 1 + e10 then S754_infinity neg
  else if digits10 m + e10 <? -330 then S754_zero neg
  else if 0 <=? e10 then
    binary_normalize prec emax (if neg then - (m * 10 ^ e10) else m * 10 ^ e10) 0 neg
  else
    let '(q, e, l) := SFdiv_core_binary prec emax m 0 (10 ^ (- e10)) 0 in
    binary_round_aux prec emax neg q e l.

Definition eqb (x y : spec_float) : bool :=
  match x, y with
  | S754_zero a, S754_zero b => Bool.eqb a b
  | S754_infinity a, S754_infinity b => Bool.eqb a b
  | S754_nan, S754_nan => true
  | S754_finite a m e, S754_finite b n f => Bool.eqb a b && Pos.eqb m n && (e =? f)
  | _, _ => false
  end.

(** [10 ^ p <= num / den] *)
Definition pow10_le (p num den : Z) : bool :=
  if 0 <=? p then 10 ^ p * den <=? num else den <=? num * 10 ^ (- p).

(** The largest [p] with [10 ^ p <= num / den], found upwards from an
    estimate that is too small. *)
Fixpoint floor_log10_from (fuel : nat) (p num den : Z) : Z :=
  match fuel with
  | O => p
  | S fuel' =>
      if pow10_le (p + 1) num den then floor_log10_from fuel' (p + 1) num den
      else p
  end.

Definition floor_log10 (num den : Z) : Z :=
  let estimate := (Z.log2 num - Z.log2 den) * 30103 / 100000 - 2 in
  floor_log10_from 8 estimate num den.

(** The [n]-digit decimals next to [num / den], as [(c, k)] for
    [c * 10 ^ k]: the one that reads back as the float [x], the nearer
    one if both do. *)
Definition candidate (x : spec_float) (num den p : Z) (n : Z) : option (Z * Z) :=
  let k := p - (n - 1) in
  let N := if 0 <=? k then num else num * 10 ^ (- k) in
  let D := if 0 <=? k then den * 10 ^ k else den in
  let lo := N / D in
  let r := N mod D in
  let hi := lo + 1 in
  let back c := eqb (of_decimal false c k) x in
  if r =? 0 then Some (lo, k)
  else
    match back lo, back hi with
    | true, true =>
        if 2 * r <? D then Some (lo, k)
        else if D <? 2 * r then Some (hi, k)
        else if Z.even lo then Some (lo, k) else Some (hi, k)
    | true, false => Some (lo, k)
    | false, true => Some (hi, k)
    | false, false => None
    end.

Fixpoint shortest_from (fuel : nat) (x : spec_float) (num den p n : Z) : Z * Z :=
  match fuel with
  | O => (num / den, 0)
  | S fuel' =>
      match candidate x num den p n with
      | Some ck => ck
      | None => shortest_from fuel' x num den p (n + 1)
      end
  end.

(** Trailing zeros of the digits go to the exponent. *)
Fixpoint strip_zeros (fuel : nat) (c k : Z) : Z * Z :=
  match fuel with
  | O => (c, k)
  | S fuel' => if (c mod 10 =? 0) && (0 <? c) then strip_zeros fuel' (c / 10) (k + 1) else (c, k)
  end.

(** The shortest digits that read back as the positive float
    [m * 2 ^ e], and the position of the decimal point after them. *)
Definition shortest (m : positive) (e : Z) : string * Z :=
  let num := if 0 <=? e then Z.pos m * 2 ^ e else Z.pos m in
  let den := if 0 <=? e then 1 else 2 ^ (- e) in
  let p := floor_log10 num den in
  let '(c, k) := shortest_from 17 (S754_finite false m e) num den p 1 in
  let '(c, k) := strip_zeros 400 c k in
  let ds := NilZero.string_of_uint (N.to_uint (Z.to_N c)) in
  (ds, Z.of_nat (String.length ds) + k).

Definition zeros (n : Z) : string :=
  string_of_list_ascii (repeat "0"%char (Z.to_nat n)).

Definition two_digits (n : Z) : string :=
  let s := NilZero.string_of_uint (N.to_uint (Z.to_N n)) in
  if n <? 10 then "0" ++ s else s.

(** [float.__repr__] of a finite float that is not zero: format ['r']
    with [Py_DTSF_ADD_DOT_0]. *)
Definition repr_finite (m : positive) (e : Z) : string :=
  let '(ds, decpt) := shortest m e in
  let nd := Z.of_nat (String.length ds) in
  if (decpt <=? -4) || (16 <? decpt) then
    let x := decpt - 1 in
    let mant :=
      match ds with
      | String d EmptyString => String d EmptyString
      | String d rest => String d ("." ++ rest)
      | EmptyString => EmptyString
      end in
    mant ++ "e" ++ (if x <? 0 then "-" else "+") ++ two_digits (Z.abs x)
  else if decpt <=? 0 then "0." ++ zeros (- decpt) ++ ds
  else if nd <=? decpt then ds ++ zeros (decpt - nd) ++ ".0"
  else
    string_of_list_ascii (firstn (Z.to_nat decpt) (list_ascii_of_string ds))
    ++ "." ++ string_of_list_ascii (skipn (Z.to_nat decpt) (list_ascii_of_string ds)).

(** [encoder_encode_float]: [float.__repr__], and the three names of
    JavaScript for what is not finite. *)
Definition encode (x : spec_float) : string :=
  match x with
  | S754_nan => "NaN"
  | S754_infinity false => "Infinity"
  | S754_infinity true => "-Infinity"
  | S754_zero false => "0.0"
  | S754_zero true => "-0.0"
  | S754_finite s m e => (if s then "-" else EmptyString) ++ repr_finite m e
  end.

End PyFloat.

Module PyJson.

Definition code (c : ascii) : Z := Z.of_N (N_of_ascii c).
Definition chr (z : Z) : ascii := ascii_of_N (Z.to_N (z mod 256)).

Definition hex_digit (d : Z) : ascii :=
  if d <? 10 then chr (48 + d) else chr (87 + d).

Definition hex4 (n : Z) : list ascii :=
  [hex_digit (n / 4096 mod 16); hex_digit (n / 256 mod 16);
   hex_digit (n / 16 mod 16); hex_digit (n mod 16)].

Definition u_escape (n : Z) : list ascii :=
  chr 92 :: "u"%char :: hex4 n.

Definition dquote : ascii := chr 34.
Definition backslash : ascii := chr 92.

(** The code points of a UTF-8 text. *)
Fixpoint code_points (l : list Z) : list Z :=
  match l with
  | [] => []
  | a :: r =>
      if a <? 192 then a :: code_points r
      else
        match r with
        | [] => [a]
        | b :: r2 =>
            if a <? 224 then ((a - 192) * 64 + (b - 128)) :: code_points r2
            else
              match r2 with
              | [] => [a; b]
              | c :: r3 =>
                  if a <? 240
                  then (((a - 224) * 64 + (b - 128)) * 64 + (c - 128)) :: code_points r3
                  else
                    match r3 with
                    | [] => [a; b; c]
                    | d :: r4 =>
                        ((((a - 240) * 64 + (b - 128)) * 64 + (c - 128)) * 64 + (d - 128))
                          :: code_points r4
                    end
              end
        end
  end.

(** The UTF-8 bytes of a code point. *)
Definition utf8_of (cp : Z) : list ascii :=
  if cp <? 128 then [chr cp]
  else if cp <? 2048 then [chr (192 + cp / 64); chr (128 + cp mod 64)]
  else if cp <? 65536 then
    [chr (224 + cp / 4096); chr (128 + cp / 64 mod 64); chr (128 + cp mod 64)]
  else
    [chr (240 + cp / 262144); chr (128 + cp / 4096 mod 64);
     chr (128 + cp / 64 mod 64); chr (128 + cp mod 64)].

(** [py_encode_basestring_ascii] on one code point. *)
Definition escape_cp (cp : Z) : list ascii :=
  if cp =? 34 then [backslash; dquote]
  else if cp =? 92 then [backslash; backslash]
  else if cp =? 10 then [backslash; "n"%char]
  else if cp =? 13 then [backslash; "r"%char]
  else if cp =? 9 then [backslash; "t"%char]
  else if cp =? 8 then [backslash; "b"%char]
  else if cp =? 12 then [backslash; "f"%char]
  else if (32 <=? cp) && (cp <=? 126) then [chr cp]
  else if cp <? 65536 then u_escape cp
  else
    let v := cp - 65536 in
    u_escape (55296 + v / 1024) ++ u_escape (56320 + v mod 1024).

Definition quote (s : string) : list ascii :=
  dquote
    :: flat_map escape_cp (code_points (map code (list_ascii_of_string s)))
    ++ [dquote].

(** [sys.get_int_max_str_digits()] at its default. *)
Definition max_str_digits : nat := 4300.

Definition digits_of (z : Z) : string :=
  NilZero.string_of_uint (N.to_uint (Z.to_N (Z.abs z))).

(** [int.__repr__]: beyond 4300 digits the conversion is refused. *)
Definition int_repr (z : Z) : result (list ascii) :=
  let ds := digits_of z in
  if Nat.ltb max_str_digits (String.length ds) then
    Raise (ValueError
      "Exceeds the limit (4300 digits) for integer string conversion; use sys.set_int_max_str_digits() to increase the limit")
  else Ret ((if z <? 0 then ["-"%char] else []) ++ list_ascii_of_string ds).

Fixpoint join (sep : list ascii) (parts : list (list ascii)) : list ascii :=
  match parts with
  | [] => []
  | [p] => p
  | p :: ps => p ++ sep ++ join sep ps
  end.

(** The name of the type of a value, as the error messages give it. *)
Definition type_name (v : pyvalue) : string :=
  match v with
  | PyNone => "NoneType"
  | PyBool _ => "bool"
  | PyInt _ => "int"
  | PyFloat _ => "float"
  | PyStr _ => "str"
  | PyList _ => "list"
  | PyTuple _ => "tuple"
  | PyDict _ => "dict"
  | PySet _ => "set"
  end.

(** The text of a dictionary key: a [str] as it is, a float, a bool,
    [None] and an int as [json] writes them; any other key is refused. *)
Definition key_text (k : pyvalue) : result (list ascii) :=
  match k with
  | PyStr s => Ret (quote s)
  | PyFloat x => Ret (dquote :: list_ascii_of_string (PyFloat.encode x) ++ [dquote])
  | PyBool true => Ret (dquote :: list_ascii_of_string "true" ++ [dquote])
  | PyBool false => Ret (dquote :: list_ascii_of_string "false" ++ [dquote])
  | PyNone => Ret (dquote :: list_ascii_of_string "null" ++ [dquote])
  | PyInt z => result_bind (int_repr z) (fun ds => Ret (dquote :: ds ++ [dquote]))
  | _ =>
      Raise (TypeError ("keys must be str, int, float, bool or None, not "
                        ++ type_name k))
  end.

(** The encoder, left to right: the first value or key it cannot write
    raises. *)
Fixpoint encode (v : pyvalue) : result (list ascii) :=
  match v with
  | PyNone => Ret (list_ascii_of_string "null")
  | PyBool true => Ret (list_ascii_of_string "true")
  | PyBool false => Ret (list_ascii_of_string "false")
  | PyInt z => int_repr z
  | PyFloat x => Ret (list_ascii_of_string (PyFloat.encode x))
  | PyStr s => Ret (quote s)
  | PyList l | PyTuple l =>
      result_bind
        ((fix items (l : list pyvalue) : result (list (list ascii)) :=
            match l with
            | [] => Ret []
            | x :: r =>
                result_bind (encode x) (fun a =>
                result_bind (items r) (fun b => Ret (a :: b)))
            end) l)
        (fun parts => Ret ("["%char :: join [","; " "]%char parts ++ ["]"%char]))
  | PyDict l =>
      result_bind
        ((fix members (l : list (pyvalue * pyvalue)) : result (list (list ascii)) :=
            match l with
            | [] => Ret []
            | (k, x) :: r =>
                result_bind (key_text k) (fun kt =>
                result_bind (encode x) (fun a =>
                result_bind (members r) (fun b =>
                Ret ((kt ++ [":"; " "]%char ++ a) :: b))))
            end) l)
        (fun parts => Ret ("{"%char :: join [","; " "]%char parts ++ ["}"%char]))
  | PySet _ =>
      Raise (TypeError ("Object of type " ++ type_name v ++ " is not JSON serializable"))
  end.

Definition dumps (v : pyvalue) : result string :=
  result_bind (encode v) (fun cs => Ret (string_of_list_ascii cs)).

(** *** The decoder *)

Definition is_ws (c : ascii) : bool :=
  let n := code c in (n =? 32) || (n =? 9) || (n =? 10) || (n =? 13).

Fixpoint skip_ws (s : list ascii) : list ascii :=
  match s with
  | c :: s' => if is_ws c then skip_ws s' else s
  | [] => []
  end.

Definition is_digit (c : ascii) : bool := (48 <=? code c) && (code c <=? 57).

Fixpoint span_digits (s : list ascii) : list ascii * list ascii :=
  match s with
  | c :: s' =>
      if is_digit c then let '(ds, r) := span_digits s' in (c :: ds, r)
      else ([], s)
  | [] => ([], [])
  end.

Definition digits_value (ds : list ascii) : Z :=
  fold_left (fun acc c => acc * 10 + (code c - 48)) ds 0.

Definition hex_value (c : ascii) : option Z :=
  let n := code c in
  if (48 <=? n) && (n <=? 57) then Some (n - 48)
  else if (97 <=? n) && (n <=? 102) then Some (n - 87)
  else if (65 <=? n) && (n <=? 70) then Some (n - 55)
  else None.

Definition hex4_value (a b c d : ascii) : option Z :=
  match hex_value a, hex_value b, hex_value c, hex_value d with
  | Some x, Some y, Some z, Some w => Some (((x * 16 + y) * 16 + z) * 16 + w)
  | _, _, _, _ => None
  end.

Definition bad {A} (msg : string) : result A := Raise (JSONDecodeError msg).

(** [py_scanstring] after the opening quote, [strict=True]; [acc] holds
    the text read so far, reversed. *)
Fixpoint scan_string (s : list ascii) (acc : list ascii)
  : result (string * list ascii) :=
  match s with
  | [] => bad "Unterminated string starting at"
  | c :: s1 =>
      if code c =? 34 then Ret (string_of_list_ascii (rev acc), s1)
      else if code c =? 92 then
        match s1 with
        | [] => bad "Unterminated string starting at"
        | e :: s2 =>
            if code e =? 117 then
              match s2 with
              | h1 :: h2 :: h3 :: h4 :: s3 =>
                  match hex4_value h1 h2 h3 h4 with
                  | None => bad "Invalid \uXXXX escape"
                  | Some hi =>
                      let single := scan_string s3 (rev (utf8_of hi) ++ acc) in
                      if (55296 <=? hi) && (hi <=? 56319) then
                        match s3 with
                        | b :: u :: g1 :: g2 :: g3 :: g4 :: s4 =>
                            if (code b =? 92) && (code u =? 117) then
                              match hex4_value g1 g2 g3 g4 with
                              | Some lo =>
                                  if (56320 <=? lo) && (lo <=? 57343) then
                                    scan_string s4
                                      (rev (utf8_of (65536 + (hi - 55296) * 1024
                                                     + (lo - 56320))) ++ acc)
                                  else single
                              | None => single
                              end
                            else single
                        | _ => single
                        end
                      else single
                  end
              | _ => bad "Invalid \uXXXX escape"
              end
            else
              let plain (x : Z) := scan_string s2 (chr x :: acc) in
              if code e =? 34 then plain 34
              else if code e =? 92 then plain 92
              else if code e =? 47 then plain 47
              else if code e =? 98 then plain 8
              else if code e =? 102 then plain 12
              else if code e =? 110 then plain 10
              else if code e =? 114 then plain 13
              else if code e =? 116 then plain 9
              else bad "Invalid \escape"
        end
      else if code c <? 32 then bad "Invalid control character at"
      else scan_string s1 (c :: acc)
  end.

(** The fraction and exponent of the number pattern, when present: the
    digits of each, and the sign of the exponent. *)
Definition scan_frac (s : list ascii) : list ascii * list ascii :=
  match s with
  | d :: s1 =>
      if code d =? 46 then
        match span_digits s1 with
        | ([], _) => ([], s)
        | (ds, r) => (ds, r)
        end
      else ([], s)
  | [] => ([], s)
  end.

Definition scan_exp (s : list ascii) : option (bool * list ascii) * list ascii :=
  match s with
  | e :: s1 =>
      if (code e =? 101) || (code e =? 69) then
        let '(minus, s2) :=
          match s1 with
          | g :: s2 =>
              if code g =? 43 then (false, s2)
              else if code g =? 45 then (true, s2)
              else (false, s1)
          | [] => (false, s1)
          end in
        match span_digits s2 with
        | ([], _) => (None, s)
        | (ds, r) => (Some (minus, ds), r)
        end
      else (None, s)
  | [] => (None, s)
  end.

(** [int(text)]: beyond 4300 digits the conversion is refused. *)
Definition int_of_digits (neg : bool) (ds : list ascii) : result pyvalue :=
  if Nat.ltb max_str_digits (length ds) then
    Raise (ValueError
      ("Exceeds the limit (4300 digits) for integer string conversion: value has "
       ++ NilZero.string_of_uint (Nat.to_uint (length ds))
       ++ " digits; use sys.set_int_max_str_digits() to increase the limit"))
  else Ret (PyInt (if neg then - digits_value ds else digits_value ds)).

(** [NUMBER_RE]: the integer part is [0] or starts with a non-zero
    digit; with a fraction or an exponent the number is a float. *)
Definition scan_number (neg : bool) (s : list ascii)
  : option (result pyvalue * list ascii) :=
  let '(ipart, r) :=
    match s with
    | c :: s1 =>
        if code c =? 48 then ([c], s1)
        else if is_digit c then span_digits s
        else ([], s)
    | [] => ([], s)
    end in
  match ipart with
  | [] => None
  | _ =>
      let '(frac, r1) := scan_frac r in
      let '(exp, r2) := scan_exp r1 in
      match frac, exp with
      | [], None => Some (int_of_digits neg ipart, r1)
      | _, _ =>
          let e :=
            match exp with
            | Some (minus, ds) => if minus then - digits_value ds else digits_value ds
            | None => 0
            end in
          Some (Ret (PyFloat (PyFloat.of_decimal neg (digits_value (ipart ++ frac))
                                                 (e - Z.of_nat (length frac)))),
                r2)
      end
  end.

Fixpoint strip_prefix (p s : list ascii) : option (list ascii) :=
  match p, s with
  | [], _ => Some s
  | a :: p', b :: s' => if Ascii.eqb a b then strip_prefix p' s' else None
  | _ :: _, [] => None
  end.

Definition literal (word : string) (v : pyvalue) (s : list ascii)
  : option (result pyvalue * list ascii) :=
  match strip_prefix (list_ascii_of_string word) s with
  | Some r => Some (Ret v, r)
  | None => None
  end.

(** [dict(pairs)]: a repeated key keeps its place and takes the later
    value. *)
Fixpoint dict_set (d : list (pyvalue * pyvalue)) (k : string) (v : pyvalue)
  : list (pyvalue * pyvalue) :=
  match d with
  | [] => [(PyStr k, v)]
  | (PyStr k', v') :: d' =>
      if String.eqb k k' then (PyStr k, v) :: d' else (PyStr k', v') :: dict_set d' k v
  | kv :: d' => kv :: dict_set d' k v
  end.

Definition first_of {A} (l : list (option A)) : option A :=
  fold_right (fun o rest => match o with Some x => Some x | None => rest end) None l.

(** [scan_once], [JSONArray] and [JSONObject]; [fuel] bounds the nesting
    and the number of elements. *)
Fixpoint scan_once (fuel : nat) (s : list ascii) : result (pyvalue * list ascii) :=
  match fuel with
  | O => bad "Expecting value"
  | Datatypes.S fuel' =>
      match s with
      | [] => bad "Expecting value"
      | c :: s1 =>
          if code c =? 34 then
            match scan_string s1 [] with
            | Ret (str, r) => Ret (PyStr str, r)
            | Raise e => Raise e
            end
          else if code c =? 123 then
            match skip_ws s1 with
            | d :: s2 =>
                if code d =? 125 then Ret (PyDict [], s2)
                else scan_members fuel' (skip_ws s1) []
            | [] => bad "Expecting property name enclosed in double quotes"
            end
          else if code c =? 91 then
            match skip_ws s1 with
            | d :: s2 =>
                if code d =? 93 then Ret (PyList [], s2)
                else scan_items fuel' (skip_ws s1) []
            | [] => bad "Expecting value"
            end
          else
            match
              first_of
                [literal "null" PyNone s; literal "true" (PyBool true) s;
                 literal "false" (PyBool false) s;
                 (if code c =? 45 then scan_number true s1 else scan_number false s);
                 literal "NaN" (PyFloat S754_nan) s;
                 literal "Infinity" (PyFloat (S754_infinity false)) s;
                 literal "-Infinity" (PyFloat (S754_infinity true)) s]
            with
            | Some (Ret v, r) => Ret (v, r)
            | Some (Raise e, _) => Raise e
            | None => bad "Expecting value"
            end
      end
  end

with scan_items (fuel : nat) (s : list ascii) (acc : list pyvalue)
  : result (pyvalue * list ascii) :=
  match fuel with
  | O => bad "Expecting value"
  | Datatypes.S fuel' =>
      match scan_once fuel' s with
      | Raise e => Raise e
      | Ret (v, r) =>
          match skip_ws r with
          | d :: r1 =>
              if code d =? 93 then Ret (PyList (rev (v :: acc)), r1)
              else if code d =? 44 then scan_items fuel' (skip_ws r1) (v :: acc)
              else bad "Expecting ',' delimiter"
          | [] => bad "Expecting ',' delimiter"
          end
      end
  end

with scan_members (fuel : nat) (s : list ascii) (acc : list (pyvalue * pyvalue))
  : result (pyvalue * list ascii) :=
  match fuel with
  | O => bad "Expecting value"
  | Datatypes.S fuel' =>
      match s with
      | q :: s1 =>
          if code q =? 34 then
            match scan_string s1 [] with
            | Raise e => Raise e
            | Ret (k, r) =>
                match skip_ws r with
                | colon :: r1 =>
                    if code colon =? 58 then
                      match scan_once fuel' (skip_ws r1) with
                      | Raise e => Raise e
                      | Ret (v, r2) =>
                          match skip_ws r2 with
                          | d :: r3 =>
                              if code d =? 125 then Ret (PyDict (dict_set acc k v), r3)
                              else if code d =? 44
                              then scan_members fuel' (skip_ws r3) (dict_set acc k v)
                              else bad "Expecting ',' delimiter"
                          | [] => bad "Expecting ',' delimiter"
                          end
                      end
                    else bad "Expecting ':' delimiter"
                | [] => bad "Expecting ':' delimiter"
                end
            end
          else bad "Expecting property name enclosed in double quotes"
      | [] => bad "Expecting property name enclosed in double quotes"
      end
  end.

(** *** From bytes to text *)

(** Well-formed UTF-8, as the [utf-8] codec with [surrogatepass] takes
    it. *)
Definition cont (b : Z) : bool := (128 <=? b) && (b <=? 191).

Fixpoint valid_utf8 (l : list Z) : bool :=
  match l with
  | [] => true
  | a :: r =>
      if a <? 128 then valid_utf8 r
      else
        match r with
        | b :: r2 =>
            if (194 <=? a) && (a <=? 223) then cont b && valid_utf8 r2
            else
              match r2 with
              | c :: r3 =>
                  if (224 <=? a) && (a <=? 239) then
                    cont b && cont c && negb ((a =? 224) && (b <? 160))
                      && valid_utf8 r3
                  else
                    match r3 with
                    | d :: r4 =>
                        (240 <=? a) && (a <=? 244) && cont b && cont c && cont d
                          && negb ((a =? 240) && (b <? 144))
                          && negb ((a =? 244) && (143 <? b))
                          && valid_utf8 r4
                    | [] => false
                    end
              | [] => false
              end
        | [] => false
        end
  end.

Inductive encoding : Type :=
| utf_8 | utf_8_sig | utf_16 | utf_16_be | utf_16_le | utf_32 | utf_32_be | utf_32_le.

(** [json.detect_encoding] *)
Definition detect_encoding (b : list Z) : encoding :=
  match b with
  | 0 :: 0 :: 254 :: 255 :: _ | 255 :: 254 :: 0 :: 0 :: _ => utf_32
  | 254 :: 255 :: _ | 255 :: 254 :: _ => utf_16
  | 239 :: 187 :: 191 :: _ => utf_8_sig
  | b0 :: b1 :: b2 :: b3 :: _ =>
      if b0 =? 0 then (if b1 =? 0 then utf_32_be else utf_16_be)
      else if b1 =? 0 then
        (if (b2 =? 0) && (b3 =? 0) then utf_32_le else utf_16_le)
      else utf_8
  | [b0; b1] =>
      if b0 =? 0 then utf_16_be else if b1 =? 0 then utf_16_le else utf_8
  | _ => utf_8
  end.

(** The 16-bit and the 32-bit units of a text; [None] when bytes are
    left over. *)
Fixpoint units16 (big : bool) (b : list Z) : option (list Z) :=
  match b with
  | [] => Some []
  | x :: y :: r =>
      match units16 big r with
      | Some us => Some ((if big then x * 256 + y else y * 256 + x) :: us)
      | None => None
      end
  | _ => None
  end.

Fixpoint units32 (big : bool) (b : list Z) : option (list Z) :=
  match b with
  | [] => Some []
  | x :: y :: z :: w :: r =>
      match units32 big r with
      | Some us =>
          Some ((if big then ((x * 256 + y) * 256 + z) * 256 + w
                 else ((w * 256 + z) * 256 + y) * 256 + x) :: us)
      | None => None
      end
  | _ => None
  end.

(** UTF-16 units to code points: a high surrogate and the low one after
    it make one code point, a surrogate alone passes. *)
Fixpoint pair_surrogates (us : list Z) : list Z :=
  match us with
  | [] => []
  | hi :: r =>
      match r with
      | lo :: r' =>
          if (55296 <=? hi) && (hi <=? 56319) && (56320 <=? lo) && (lo <=? 57343)
          then (65536 + (hi - 55296) * 1024 + (lo - 56320)) :: pair_surrogates r'
          else hi :: pair_surrogates r
      | [] => [hi]
      end
  end.

Definition text_of_code_points (cps : list Z) : list ascii := flat_map utf8_of cps.

(** [b.decode(encoding, 'surrogatepass')], the text as UTF-8. *)
Definition decode (enc : encoding) (b : list Z) : result (list ascii) :=
  let utf8 (b : list Z) :=
    if valid_utf8 b then Ret (map chr b) else Raise UnicodeDecodeError in
  let utf16 (big : bool) (b : list Z) :=
    match units16 big b with
    | Some us => Ret (text_of_code_points (pair_surrogates us))
    | None => Raise UnicodeDecodeError
    end in
  let utf32 (big : bool) (b : list Z) :=
    match units32 big b with
    | Some us =>
        if forallb (fun u => u <? 1114112) us then Ret (text_of_code_points us)
        else Raise UnicodeDecodeError
    | None => Raise UnicodeDecodeError
    end in
  match enc with
  | utf_8 => utf8 b
  | utf_8_sig =>
      match b with
      | 239 :: 187 :: 191 :: r => utf8 r
      | _ => utf8 b
      end
  | utf_16 =>
      match b with
      | 254 :: 255 :: r => utf16 true r
      | 255 :: 254 :: r => utf16 false r
      | _ => utf16 false b
      end
  | utf_16_be => utf16 true b
  | utf_16_le => utf16 false b
  | utf_32 =>
      match b with
      | 0 :: 0 :: 254 :: 255 :: r => utf32 true r
      | 255 :: 254 :: 0 :: 0 :: r => utf32 false r
      | _ => utf32 false b
      end
  | utf_32_be => utf32 true b
  | utf_32_le => utf32 false b
  end.

(** [json.loads(b)] on bytes: the text is decoded as
    [detect_encoding] says, then read as one JSON value between
    whitespace. *)
Definition loads (b : bytes) : result pyvalue :=
  let zs := map Z_of_byte b in
  match decode (detect_encoding zs) zs with
  | Raise e => Raise e
  | Ret s =>
      match scan_once (Datatypes.S (2 * length s)) (skip_ws s) with
      | Raise e => Raise e
      | Ret (v, r) =>
          match skip_ws r with
          | [] => Ret v
          | _ :: _ => bad "Extra data"
          end
      end
  end.

End PyJson.

#[global] Instance py_json : Json pyvalue := {
  json_dumps := PyJson.dumps;
  json_loads := PyJson.loads
}.

(** ** Vocabulary of the specification *)

(** A secret of accepted key length: its UTF-8 bytes number 16, 24 or
    32. *)
Definition accepted_key_length (secret : string) : bool :=
  existsb (Nat.eqb (length (encode_utf8 secret))) AES.key_size.

(** The specification's names for the exceptions the code lets through. *)
Definition InvalidKeyError (e : exn) : Prop :=
  exists len, e = ValueError (EAX.incorrect_key_length len).

(** Text that [base64.b64decode] accepts. *)
Definition well_formed (s : string) : Prop :=
  exists b, Base64.b64decode s = Ret b.

Definition MalformedInputError (e : exn) : Prop :=
  (exists msg, e = BinasciiError msg) \/ (exists msg, e = ValueError msg).

Definition CorruptRecordError (e : exn) : Prop :=
  (exists msg, e = JSONDecodeError msg) \/ e = UnicodeDecodeError.

Definition StorageUnavailableError (e : exn) : Prop :=
  e = AzureMissingResourceHttpError \/ exists status, e = AzureHttpError status.

(** The sixteen bytes the next [encrypt] will draw as its nonce. *)
Definition next_nonce (g : rng) : bytes := fst (get_random_bytes 16 g).

Definition after_nonce (g : rng) : rng := snd (get_random_bytes 16 g).

(** The entropy after the sixteen bytes [cipher.verify] draws. *)
Definition after_verify (g : rng) : rng := snd (get_random_bytes 16 g).


(** The entity [write] builds from the serialised text [s], with the
    entropy pool at [g]. *)
Definition sealed_entity (self : StorageAccount) (key s secret : string) (g : rng)
  : entity :=
  let k := encode_utf8 secret in
  let n := next_nonce g in
  let c := EAX.ctr k n (encode_utf8 s) in
  make_entity self key (Base64.b64encode c)
              (Base64.b64encode (EAX.mac_tag k n c)) (Base64.b64encode n).

(** What [read] makes of a fetched entity. *)
Definition open_entity {value : Type} `{Json value} (data : entity)
           (encryption_key : string) : M rng (option value) :=
  (encrypted_data <- lift (getitem data "Data") ;;
   verification_tag <- lift (getitem data "Tag") ;;
   nonce <- lift (getitem data "Nonce") ;;
   decoded <- decrypt encrypted_data verification_tag nonce encryption_key ;;
   match decoded with
   | Some decoded => v <- lift (json_loads decoded) ;; ret (Some v)
   | None => ret None
   end)%monad.

(** A Python exception handler for [AzureMissingResourceHttpError] that
    yields [a]. *)
Definition or_else {A} (a : A) (r : result A) : result A :=
  match r with
  | Raise e => if isinstance_AzureMissingResourceHttpError e then Ret a else Raise e
  | Ret x => Ret x
  end.

(** ** Stored text changed behind the store's back *)

(** The property [field] of the row at [(pk, rk)] of table [tn] replaced
    by [text]. *)
Definition set_field (field text : string) (tn pk rk : string) (st : tables)
  : tables :=
  alter (alter (<[field := text]>) (pk, rk)) tn st.

(** Character [i] of [s] replaced by [c]. *)
Fixpoint replace_char (i : nat) (c : ascii) (s : string) : string :=
  match s, i with
  | EmptyString, _ => EmptyString
  | String _ s', O => String c s'
  | String a s', Datatypes.S i' => String a (replace_char i' c s')
  end.

(** Character [i] of the property [field] of a row replaced by [c]. *)
Definition set_char (field : string) (i : nat) (c : ascii) (tn pk rk : string)
           (st : tables) : tables :=
  alter (alter (alter (replace_char i c) field) (pk, rk)) tn st.

(** The same change seen from the world. *)
Definition in_service {S} (f : S -> S) (w : world S) : world S :=
  mk_world (entropy w) (f (service w)).

(** ** The scenario of the specification *)

Definition ada : pyvalue :=
  PyDict [(PyStr "name", PyStr "Ada"); (PyStr "count", PyInt 3)].

Definition sessions : StorageAccount := mk_StorageAccount "sessions" "app" true.

(** Some entropy: byte [i] of the tape is [37 i + 11 mod 256]. *)
Definition pool : rng :=
  mk_rng (fun i => byte_of_Z ((Z.of_nat i * 37 + 11) mod 256)) 0.

(** A service without tables, and one with the table of [sessions]. *)
Definition no_tables : world tables := mk_world pool ∅.

Definition one_table : world tables := mk_world pool (<["sessions" := ∅]> ∅).

(** A world whose row for ["user42"] seals, under the secret
    ["0123456789abcdef"], a text that is no JSON. *)
Definition not_json : world tables :=
  mk_world pool
    (<["sessions" :=
         <[("app", "user42") :=
             sealed_entity sessions "user42" "{oops" "0123456789abcdef" pool]> ∅]> ∅).

(** A backend without the table, whose table cannot be created for good:
    the upsert fails with 404, the creation is accepted, the upsert fails
    with 404 again. *)
Definition lost_table : world script :=
  mk_world pool
    (mk_script [Fails AzureMissingResourceHttpError; Done;
                Fails AzureMissingResourceHttpError; Done] []).

(** The text stored in the property [name] of the row for [key]. *)
Definition stored (self : StorageAccount) (key name : string) (w : world tables)
  : option string :=
  row (service w) (table_name self) (partition_key self) key ≫= (.!! name).

(** A scripted backend with the replies [rs] to come and nothing
    logged. *)
Definition backend (rs : list reply) : world script :=
  mk_world pool (mk_script rs []).

(** The property names of a stored row. *)
Definition row_layout : list string :=
  ["PartitionKey"; "RowKey"; "Data"; "Tag"; "Nonce"].

(** ** Hexadecimal text, for published test vectors *)

Definition hex_nibble (c : ascii) : Z :=
  let n := Z.of_N (N_of_ascii c) in
  if (48 <=? n) && (n <=? 57) then n - 48
  else if (97 <=? n) && (n <=? 102) then n - 87
  else if (65 <=? n) && (n <=? 70) then n - 55
  else 0.

Fixpoint unhex_chars (s : list ascii) : bytes :=
  match s with
  | a :: b :: s' => byte_of_Z (16 * hex_nibble a + hex_nibble b) :: unhex_chars s'
  | _ => []
  end.

Definition unhex (s : string) : bytes := unhex_chars (list_ascii_of_string s).

(** ** Notions for the proofs about the block cipher *)

(** A number that is a byte, and a state of sixteen of them. *)
Definition is_byte (x : Z) : bool := (0 <=? x) && (x <? 256).

Definition is_block (st : list Z) : bool :=
  Nat.eqb (length st) 16 && forallb is_byte st.

(** The 256 bytes. *)
Definition all_bytes : list Z := map Z.of_nat (seq 0 256).

(** [InvMixColumns] on one column (FIPS 197, 5.3.3). *)
Definition inv_mix_column (c : list Z) : list Z :=
  match c with
  | [b0; b1; b2; b3] =>
      [Z.lxor (AES.gmul 14 b0) (Z.lxor (AES.gmul 11 b1)
         (Z.lxor (AES.gmul 13 b2) (AES.gmul 9 b3)));
       Z.lxor (AES.gmul 9 b0) (Z.lxor (AES.gmul 14 b1)
         (Z.lxor (AES.gmul 11 b2) (AES.gmul 13 b3)));
       Z.lxor (AES.gmul 13 b0) (Z.lxor (AES.gmul 9 b1)
         (Z.lxor (AES.gmul 14 b2) (AES.gmul 11 b3)));
       Z.lxor (AES.gmul 11 b0) (Z.lxor (AES.gmul 13 b1)
         (Z.lxor (AES.gmul 9 b2) (AES.gmul 14 b3)))]
  | _ => c
  end.

(** A word of the key schedule: four bytes. *)
Definition is_word (w : list Z) : Prop :=
  length w = 4%nat /\ Forall (fun x => 0 <= x < 256) w.


(** ** Notions for the proofs about the MAC *)

(** Two states of the CBC chain of [CMAC.absorb] (chaining value, pending
    block) that can no longer meet: the chaining values differ under the
    same pending block, or the pending blocks are two different full blocks
    under the same chaining value. *)
Definition cmac_apart (s1 s2 : bytes * bytes) : Prop :=
  length (fst s1) = 16%nat /\ length (fst s2) = 16%nat
  /\ length (snd s1) = length (snd s2) /\ (length (snd s1) <= 16)%nat
  /\ ((fst s1 <> fst s2 /\ snd s1 = snd s2)
      \/ (fst s1 = fst s2 /\ snd s1 <> snd s2 /\ length (snd s1) = 16%nat)).

(** The last step of [CMAC.digest], from the state [absorb] has reached. *)
Definition cmac_final (key : bytes) (s : bytes * bytes) : bytes :=
  let k1 := CMAC.dbl (AES.encrypt_block key CMAC.zero_block) in
  let k2 := CMAC.dbl k1 in
  if Nat.eqb (length (snd s)) 16
  then AES.encrypt_block key (xor_bytes (xor_bytes (fst s) (snd s)) k1)
  else AES.encrypt_block key (xor_bytes (xor_bytes (fst s) (CMAC.pad_block (snd s))) k2).

(** Two byte strings of one length that agree outside the [j]-th block of
    sixteen bytes. *)
Definition within_block (j : nat) (c c' : bytes) : Prop :=
  length c = length c'
  /\ firstn (16 * j) c = firstn (16 * j) c'
  /\ skipn (16 * j + 16) c = skipn (16 * j + 16) c'.

(** ** The layout of a stored row *)

(** An entity laid out as [write] builds it for [key]: the partition key
    of the store, the key, and three texts of base64, nothing else. *)
Definition laid_out (self : StorageAccount) (key : string) (e : entity) : Prop :=
  e !! "PartitionKey" = Some (partition_key self)
  /\ e !! "RowKey" = Some key
  /\ (forall name, is_Some (e !! name) <-> In name row_layout)
  /\ (forall name text,
        In name ["Data"; "Tag"; "Nonce"] -> e !! name = Some text ->
        well_formed text).

(** What [write] may send to the backend: upserts into the table of the
    store of entities laid out for [key], and the creation of that
    table. *)
Definition sent_by_write (self : StorageAccount) (key : string) (rq : request) : Prop :=
  match rq with
  | InsertOrMergeEntity tn e => tn = table_name self /\ laid_out self key e
  | CreateTable tn => tn = table_name self
  | _ => False
  end.

(** * Facts about the libraries *)

(** ** Bytes *)

Lemma Z_of_byte_range (b : byte) : 0 <= Z_of_byte b < 256.
Proof.
  unfold Z_of_byte. pose proof (Byte.to_N_bounded b) as Hb. lia.
Qed.

Lemma byte_of_Z_of_byte (b : byte) : byte_of_Z (Z_of_byte b) = b.
Proof.
  unfold byte_of_Z. pose proof (Z_of_byte_range b) as Hb.
  rewrite Z.mod_small by lia. unfold Z_of_byte.
  rewrite N2Z.id. now rewrite Byte.of_to_N.
Qed.

Lemma Z_of_byte_of_Z (z : Z) : 0 <= z < 256 -> Z_of_byte (byte_of_Z z) = z.
Proof.
  intros Hz. unfold byte_of_Z, Z_of_byte. rewrite Z.mod_small by lia.
  destruct (Byte.of_N (Z.to_N z)) as [b|] eqn:E.
  - apply Byte.to_of_N in E. rewrite E. lia.
  - apply Byte.of_N_None_iff in E. lia.
Qed.

Lemma byte_xor_involutive (a k : byte) : byte_xor (byte_xor a k) k = a.
Proof.
  unfold byte_xor.
  destruct (Byte.to_bits a) as (a0 & a1 & a2 & a3 & a4 & a5 & a6 & a7) eqn:Ea.
  destruct (Byte.to_bits k) as (k0 & k1 & k2 & k3 & k4 & k5 & k6 & k7) eqn:Ek.
  rewrite Byte.to_bits_of_bits.
  rewrite <- (Byte.of_bits_to_bits a), Ea.
  f_equal.
  now rewrite !xorb_assoc, !xorb_nilpotent, !xorb_false_r.
Qed.

Lemma xor_bytes_length (data stream : bytes) :
  (length data <= length stream)%nat ->
  length (xor_bytes data stream) = length data.
Proof.
  revert stream. induction data as [|d data IH]; intros [|k stream] Hlen;
    simpl in *; try lia.
  rewrite IH; lia.
Qed.

Lemma xor_bytes_involutive (data stream : bytes) :
  (length data <= length stream)%nat ->
  xor_bytes (xor_bytes data stream) stream = data.
Proof.
  revert stream. induction data as [|d data IH]; intros [|k stream] Hlen;
    simpl in *; try lia; try reflexivity.
  rewrite byte_xor_involutive, IH; [reflexivity | lia].
Qed.

Lemma bytes_eqb_eq (a b : bytes) : EAX.bytes_eqb a b = true <-> a = b.
Proof.
  revert b. induction a as [|x a IH]; intros [|y b]; simpl; split;
    try congruence; try discriminate.
  - intros Hxy. apply andb_true_iff in Hxy as [Hx Ha].
    apply Byte.byte_dec_bl in Hx. apply IH in Ha. congruence.
  - intros [= -> ->]. apply andb_true_iff. split.
    + now apply Byte.byte_dec_lb.
    + now apply IH.
Qed.

Lemma bytes_eqb_refl (a : bytes) : EAX.bytes_eqb a a = true.
Proof. now apply bytes_eqb_eq. Qed.

Lemma bytes_eqb_neq (a b : bytes) : a <> b -> EAX.bytes_eqb a b = false.
Proof.
  intros Hne. destruct (EAX.bytes_eqb a b) eqn:E; [|reflexivity].
  apply bytes_eqb_eq in E. contradiction.
Qed.

(** ** base64: decoding what was encoded *)

Lemma list_ind3 {A} (P : list A -> Prop) :
  P [] -> (forall a, P [a]) -> (forall a b, P [a; b]) ->
  (forall a b c l, P l -> P (a :: b :: c :: l)) ->
  forall l, P l.
Proof.
  intros H0 H1 H2 H3.
  fix IH 1. intros [|a [|b [|c l]]].
  - exact H0.
  - apply H1.
  - apply H2.
  - apply H3, IH.
Qed.

Lemma b64_char_nat (n : nat) :
  (n < 64)%nat ->
  Ascii.eqb (Base64.b64_char (Z.of_nat n)) Base64.pad = false
  /\ Base64.b64_index (Base64.b64_char (Z.of_nat n)) = Some (Z.of_nat n).
Proof.
  intros Hn. unfold Base64.b64_char. rewrite Nat2Z.id.
  do 64 (destruct n as [|n]; [split; vm_compute; reflexivity|]).
  lia.
Qed.

Lemma b64_char_spec (v : Z) :
  0 <= v < 64 ->
  Ascii.eqb (Base64.b64_char v) Base64.pad = false
  /\ Base64.b64_index (Base64.b64_char v) = Some v.
Proof.
  intros Hv. rewrite <- (Z2Nat.id v) by lia. apply b64_char_nat. lia.
Qed.

Lemma b64_char_is_ascii (v : Z) : Base64.is_ascii (Base64.b64_char v) = true.
Proof.
  unfold Base64.b64_char. generalize (Z.to_nat v) as n. intros n.
  do 65 (destruct n as [|n]; [vm_compute; reflexivity|]).
  destruct n; vm_compute; reflexivity.
Qed.

(** One alphabet character through the decoder's loop. *)
Lemma a2b_loop_char (v : Z) (s : list ascii) (st : Base64.a2b_state) :
  0 <= v < 64 ->
  Base64.a2b_loop (Base64.b64_char v :: s) st =
  let lc := Base64.leftchar st * 64 + v in
  let lb := Base64.leftbits st + 6 in
  let qp := (Base64.quad_pos st + 1) mod 4 in
  if 8 <=? lb then
    Base64.a2b_loop s
      (Base64.mk_a2b qp (lc mod 2 ^ (lb - 8)) (lb - 8)
                     (byte_of_Z (lc / 2 ^ (lb - 8)) :: Base64.bin_data st))
  else Base64.a2b_loop s (Base64.mk_a2b qp lc lb (Base64.bin_data st)).
Proof.
  intros Hv. destruct (b64_char_spec v Hv) as [Hpad Hidx].
  cbn [Base64.a2b_loop]. rewrite Hpad, Hidx. reflexivity.
Qed.

Lemma a2b_state_eq (q q' c c' b b' : Z) (o o' : bytes) :
  q = q' -> c = c' -> b = b' -> o = o' ->
  Base64.mk_a2b q c b o = Base64.mk_a2b q' c' b' o'.
Proof. congruence. Qed.

(** Three bytes, four characters: the decoder is back at a quad boundary
    with the three bytes added. *)
Lemma a2b_loop_group (a b c : byte) (s : list ascii) (out : bytes) :
  let x := Z_of_byte a in
  let y := Z_of_byte b in
  let z := Z_of_byte c in
  Base64.a2b_loop
    (Base64.b64_char (x / 4) :: Base64.b64_char ((x mod 4) * 16 + y / 16)
       :: Base64.b64_char ((y mod 16) * 4 + z / 64) :: Base64.b64_char (z mod 64)
       :: s)
    (Base64.mk_a2b 0 0 0 out)
  = Base64.a2b_loop s (Base64.mk_a2b 0 0 0 (c :: b :: a :: out)).
Proof.
  intros x y z.
  pose proof (Z_of_byte_range a) as Ha. pose proof (Z_of_byte_range b) as Hb.
  pose proof (Z_of_byte_range c) as Hc. fold x in Ha. fold y in Hb. fold z in Hc.
  rewrite a2b_loop_char by (Z.div_mod_to_equations; lia).
  cbn [Base64.leftchar Base64.leftbits Base64.quad_pos Base64.bin_data].
  change (8 <=? 0 + 6) with false. cbv iota zeta.
  rewrite a2b_loop_char by (Z.div_mod_to_equations; lia).
  cbn [Base64.leftchar Base64.leftbits Base64.quad_pos Base64.bin_data].
  change (8 <=? 0 + 6 + 6) with true. cbv iota zeta.
  rewrite a2b_loop_char by (Z.div_mod_to_equations; lia).
  cbn [Base64.leftchar Base64.leftbits Base64.quad_pos Base64.bin_data].
  change (8 <=? 0 + 6 + 6 - 8 + 6) with true. cbv iota zeta.
  rewrite a2b_loop_char by (Z.div_mod_to_equations; lia).
  cbn [Base64.leftchar Base64.leftbits Base64.quad_pos Base64.bin_data].
  change (8 <=? 0 + 6 + 6 - 8 + 6 - 8 + 6) with true. cbv iota zeta.
  f_equal.
  change (2 ^ (0 + 6 + 6 - 8)) with 16.
  change (2 ^ (0 + 6 + 6 - 8 + 6 - 8)) with 4.
  change (2 ^ (0 + 6 + 6 - 8 + 6 - 8 + 6 - 8)) with 1.
  apply a2b_state_eq.
  - reflexivity.
  - Z.div_mod_to_equations; lia.
  - reflexivity.
  - repeat f_equal.
    + rewrite <- (byte_of_Z_of_byte c). f_equal. fold z.
      Z.div_mod_to_equations; lia.
    + rewrite <- (byte_of_Z_of_byte b). f_equal. fold y.
      Z.div_mod_to_equations; lia.
    + rewrite <- (byte_of_Z_of_byte a). f_equal. fold x.
      Z.div_mod_to_equations; lia.
Qed.

Lemma byte_of_Z_eq (a : byte) (z : Z) : z = Z_of_byte a -> byte_of_Z z = a.
Proof. intros ->. apply byte_of_Z_of_byte. Qed.

(** A pad where the quad is complete enough ends the decoding. *)
Lemma a2b_loop_pad_stop (s : list ascii) (q c b : Z) (out : bytes) :
  q = 3 \/ (q = 2 /\ Base64.next_valid s = Some Base64.pad) ->
  Base64.a2b_loop (Base64.pad :: s) (Base64.mk_a2b q c b out) = Ret (rev out).
Proof.
  intros Hq. cbn [Base64.a2b_loop Base64.quad_pos Base64.bin_data].
  change (Ascii.eqb Base64.pad Base64.pad) with true. cbv iota.
  destruct Hq as [-> | [-> ->]]; reflexivity.
Qed.

Lemma a2b_loop_encode (l : bytes) :
  forall out,
    Base64.a2b_loop (Base64.b64encode_chars l) (Base64.mk_a2b 0 0 0 out)
    = Ret (rev out ++ l).
Proof.
  induction l as [| a | a b | a b c l IH] using list_ind3; intros out.
  - cbn. now rewrite app_nil_r.
  - cbn [Base64.b64encode_chars]. cbv zeta.
    pose proof (Z_of_byte_range a) as Ha.
    rewrite a2b_loop_char by (Z.div_mod_to_equations; lia).
    cbn [Base64.leftchar Base64.leftbits Base64.quad_pos Base64.bin_data].
    change (8 <=? 0 + 6) with false. cbv iota zeta.
    rewrite a2b_loop_char by (Z.div_mod_to_equations; lia).
    cbn [Base64.leftchar Base64.leftbits Base64.quad_pos Base64.bin_data].
    change (8 <=? 0 + 6 + 6) with true. cbv iota zeta.
    change (2 ^ (0 + 6 + 6 - 8)) with 16.
    rewrite a2b_loop_pad_stop by (right; split; reflexivity).
    cbn [rev]. do 3 f_equal.
    apply byte_of_Z_eq. Z.div_mod_to_equations; lia.
  - cbn [Base64.b64encode_chars]. cbv zeta.
    pose proof (Z_of_byte_range a) as Ha. pose proof (Z_of_byte_range b) as Hb.
    rewrite a2b_loop_char by (Z.div_mod_to_equations; lia).
    cbn [Base64.leftchar Base64.leftbits Base64.quad_pos Base64.bin_data].
    change (8 <=? 0 + 6) with false. cbv iota zeta.
    rewrite a2b_loop_char by (Z.div_mod_to_equations; lia).
    cbn [Base64.leftchar Base64.leftbits Base64.quad_pos Base64.bin_data].
    change (8 <=? 0 + 6 + 6) with true. cbv iota zeta.
    rewrite a2b_loop_char by (Z.div_mod_to_equations; lia).
    cbn [Base64.leftchar Base64.leftbits Base64.quad_pos Base64.bin_data].
    change (8 <=? 0 + 6 + 6 - 8 + 6) with true. cbv iota zeta.
    change (2 ^ (0 + 6 + 6 - 8)) with 16.
    change (2 ^ (0 + 6 + 6 - 8 + 6 - 8)) with 4.
    rewrite a2b_loop_pad_stop by (left; reflexivity).
    cbn [rev]. rewrite <- !app_assoc. cbn [app]. do 2 f_equal.
    f_equal; [|f_equal]; apply byte_of_Z_eq; Z.div_mod_to_equations; lia.
  - cbn [Base64.b64encode_chars]. cbv zeta.
    rewrite a2b_loop_group, IH. cbn [rev]. f_equal.
    now rewrite <- !app_assoc.
Qed.

Lemma b64encode_chars_ascii (l : bytes) :
  forallb Base64.is_ascii (Base64.b64encode_chars l) = true.
Proof.
  induction l as [| a | a b | a b c l IH] using list_ind3;
    cbn [Base64.b64encode_chars forallb]; cbv zeta;
    rewrite ?b64_char_is_ascii, ?IH; reflexivity.
Qed.

(** [b64decode(b64encode(b)) == b] *)
Lemma b64decode_b64encode (l : bytes) :
  Base64.b64decode (Base64.b64encode l) = Ret l.
Proof.
  unfold Base64.b64decode, Base64.b64encode. cbv zeta.
  rewrite list_ascii_of_string_of_list_ascii, b64encode_chars_ascii.
  unfold Base64.a2b_base64. now rewrite a2b_loop_encode.
Qed.

Lemma b64encode_inj (l l' : bytes) :
  Base64.b64encode l = Base64.b64encode l' -> l = l'.
Proof.
  intros Heq. pose proof (b64decode_b64encode l) as H1.
  rewrite Heq, b64decode_b64encode in H1. congruence.
Qed.

(** ** EAX: the key stream covers the data, and CTR undoes itself *)

Lemma encrypt_block_length (k b : bytes) :
  length (AES.encrypt_block k b) = 16%nat.
Proof. unfold AES.encrypt_block. now rewrite length_map, length_seq. Qed.

Lemma flat_map_blocks_length {A : Type} (f : A -> bytes) (l : list A) :
  (forall a, length (f a) = 16%nat) ->
  length (flat_map f l) = (16 * length l)%nat.
Proof.
  intros Hf. induction l as [|a l IH]; [reflexivity|].
  cbn [flat_map length]. rewrite length_app, Hf, IH. lia.
Qed.

Lemma keystream_length (k : bytes) (iv : Z) (n : nat) :
  length (EAX.keystream k iv n) = (16 * n)%nat.
Proof.
  unfold EAX.keystream. rewrite flat_map_blocks_length.
  - now rewrite length_seq.
  - intros j. apply encrypt_block_length.
Qed.

Lemma keystream_covers (k : bytes) (iv : Z) (n : nat) :
  (n <= length (EAX.keystream k iv (Nat.div (n + 15) 16)))%nat.
Proof.
  rewrite keystream_length.
  pose proof (Nat.div_mod (n + 15) 16) as Hd.
  pose proof (Nat.mod_upper_bound (n + 15) 16) as Hm. lia.
Qed.

Lemma ctr_length (k n data : bytes) :
  length (EAX.ctr k n data) = length data.
Proof. unfold EAX.ctr. apply xor_bytes_length, keystream_covers. Qed.

Lemma ctr_involutive (k n data : bytes) :
  EAX.ctr k n (EAX.ctr k n data) = data.
Proof.
  unfold EAX.ctr at 1. rewrite ctr_length. unfold EAX.ctr.
  apply xor_bytes_involutive, keystream_covers.
Qed.

Lemma get_random_bytes_length (n : nat) (g : rng) :
  length (fst (get_random_bytes n g)) = n.
Proof. unfold get_random_bytes. cbn. now rewrite length_map, length_seq. Qed.

Lemma new_with_nonce_ok (k n : bytes) :
  n <> [] ->
  existsb (Nat.eqb (length k)) AES.key_size = true ->
  EAX.new_with_nonce k n = Ret (EAX.mk_cipher k n []).
Proof.
  intros Hn Hk. unfold EAX.new_with_nonce.
  destruct n as [|b n]; [contradiction|]. cbn [length Nat.eqb].
  now rewrite Hk.
Qed.

Lemma verify_eq (c : EAX.cipher) (tag : bytes) (g : rng) :
  EAX.verify c tag g
  = (if EAX.bytes_eqb (EAX.mac_tag (EAX.key c) (EAX.nonce c) (EAX.absorbed c)) tag
     then Ret tt else Raise (ValueError "MAC check failed"),
     after_verify g).
Proof. reflexivity. Qed.

Lemma pair_fst_snd {A B} (p : A * B) (a : A) : fst p = a -> p = (a, snd p).
Proof. intros <-. now destruct p. Qed.

(** Splits conjunctions, and nothing else. *)
Ltac split_conj := repeat match goal with |- _ /\ _ => split end.

(** ** encrypt and decrypt *)

Lemma next_nonce_nonempty (g : rng) : next_nonce g <> [].
Proof.
  intros Hnil. pose proof (get_random_bytes_length 16 g) as Hlen.
  unfold next_nonce in Hnil. rewrite Hnil in Hlen. discriminate.
Qed.

Lemma next_nonce_length (g : rng) : length (next_nonce g) = 16%nat.
Proof. apply get_random_bytes_length. Qed.

Lemma encrypt_ok (data secret : string) (g : rng) :
  accepted_key_length secret = true ->
  let k := encode_utf8 secret in
  let n := next_nonce g in
  let c := EAX.ctr k n (encode_utf8 data) in
  encrypt data secret g
  = (Ret (Base64.b64encode c,
          Base64.b64encode (EAX.mac_tag k n c),
          Base64.b64encode n), after_nonce g).
Proof.
  intros Hk k n c. unfold encrypt, EAX.new.
  unfold next_nonce, after_nonce in *.
  destruct (get_random_bytes 16 g) as [n' g'] eqn:Hg. cbn [fst snd] in *.
  rewrite new_with_nonce_ok; [reflexivity | | exact Hk].
  pose proof (next_nonce_nonempty g) as Hne. unfold next_nonce in Hne.
  now rewrite Hg in Hne.
Qed.

Lemma encrypt_bad_key (data secret : string) (g : rng) :
  accepted_key_length secret = false ->
  encrypt data secret g
  = (Raise (ValueError (EAX.incorrect_key_length (length (encode_utf8 secret)))),
     after_nonce g).
Proof.
  intros Hk. unfold encrypt, EAX.new, after_nonce.
  pose proof (next_nonce_nonempty g) as Hne. unfold next_nonce in Hne.
  destruct (get_random_bytes 16 g) as [n' g'] eqn:Hg. cbn [fst snd] in *.
  unfold EAX.new_with_nonce. destruct n' as [|b n']; [contradiction|].
  cbn [length Nat.eqb]. unfold accepted_key_length in Hk. now rewrite Hk.
Qed.

Lemma new_with_nonce_inv (k n : bytes) (c : EAX.cipher) :
  EAX.new_with_nonce k n = Ret c ->
  c = EAX.mk_cipher k n [] /\ n <> []
  /\ existsb (Nat.eqb (length k)) AES.key_size = true.
Proof.
  unfold EAX.new_with_nonce. destruct n as [|b n]; cbn [length Nat.eqb].
  - discriminate.
  - destruct (existsb _ _); [|discriminate].
    intros [= <-]. repeat split. discriminate.
Qed.

Lemma new_with_nonce_raises (k n : bytes) (e : exn) :
  EAX.new_with_nonce k n = Raise e ->
  (n = [] /\ e = ValueError "Nonce cannot be empty in EAX mode")
  \/ (n <> [] /\ existsb (Nat.eqb (length k)) AES.key_size = false
      /\ e = ValueError (EAX.incorrect_key_length (length k))).
Proof.
  unfold EAX.new_with_nonce. destruct n as [|b n]; cbn [length Nat.eqb].
  - intros [= <-]. now left.
  - destruct (existsb _ _); [discriminate|]. intros [= <-]. right.
    repeat split. discriminate.
Qed.

Lemma new_with_nonce_bad_key (k n : bytes) :
  n <> [] ->
  existsb (Nat.eqb (length k)) AES.key_size = false ->
  EAX.new_with_nonce k n = Raise (ValueError (EAX.incorrect_key_length (length k))).
Proof.
  intros Hn Hk. unfold EAX.new_with_nonce.
  destruct n as [|b n]; [contradiction|]. cbn [length Nat.eqb]. now rewrite Hk.
Qed.

(** [decrypt], outcome by outcome: it raises with the entropy as it
    was, or reaches [verify], which draws sixteen bytes. *)
Lemma decrypt_cases (D T N secret : string) (g : rng) :
  let k := encode_utf8 secret in
  decrypt D T N secret g
  = match Base64.b64decode N with
    | Raise e => (Raise e, g)
    | Ret n =>
        match EAX.new_with_nonce k n with
        | Raise e => (Raise e, g)
        | Ret _ =>
            match Base64.b64decode D with
            | Raise e => (Raise e, g)
            | Ret d =>
                match Base64.b64decode T with
                | Raise e => (Raise e, g)
                | Ret t =>
                    (if EAX.bytes_eqb (EAX.mac_tag k n d) t
                     then Ret (Some (EAX.ctr k n d)) else Ret None,
                     after_verify g)
                end
            end
        end
    end.
Proof.
  cbv zeta. unfold decrypt, bind, lift, try_except, ret.
  destruct (Base64.b64decode N) as [n|e]; [|reflexivity].
  destruct (EAX.new_with_nonce _ n) as [c|e] eqn:Hc; [|reflexivity].
  apply new_with_nonce_inv in Hc as (-> & _ & _).
  destruct (Base64.b64decode D) as [d|e]; [|reflexivity].
  cbn [EAX.decrypt EAX.key EAX.nonce EAX.absorbed app].
  destruct (Base64.b64decode T) as [t|e]; [|reflexivity].
  rewrite verify_eq. cbn [EAX.key EAX.nonce EAX.absorbed].
  now destruct (EAX.bytes_eqb _ t).
Qed.

Lemma decrypt_decoded (D T N secret : string) (n d t : bytes) (g : rng) :
  Base64.b64decode N = Ret n ->
  n <> [] ->
  accepted_key_length secret = true ->
  Base64.b64decode D = Ret d ->
  Base64.b64decode T = Ret t ->
  decrypt D T N secret g
  = (if EAX.bytes_eqb (EAX.mac_tag (encode_utf8 secret) n d) t
     then Ret (Some (EAX.ctr (encode_utf8 secret) n d))
     else Ret None, after_verify g).
Proof.
  intros HN Hn Hk HD HT. pose proof (decrypt_cases D T N secret g) as Hc.
  cbv zeta in Hc. now rewrite HN, (new_with_nonce_ok _ _ Hn Hk), HD, HT in Hc.
Qed.

Lemma decrypt_encrypted (secret : string) (n p : bytes) (g : rng) :
  n <> [] ->
  accepted_key_length secret = true ->
  let k := encode_utf8 secret in
  let c := EAX.ctr k n p in
  decrypt (Base64.b64encode c) (Base64.b64encode (EAX.mac_tag k n c))
          (Base64.b64encode n) secret g
  = (Ret (Some p), after_verify g).
Proof.
  intros Hn Hk k c.
  rewrite (decrypt_decoded _ _ _ _ n c (EAX.mac_tag k n c));
    auto using b64decode_b64encode.
  fold k. rewrite bytes_eqb_refl. unfold c. now rewrite ctr_involutive.
Qed.

Lemma decrypt_bad_nonce (D T N secret : string) (e : exn) (g : rng) :
  Base64.b64decode N = Raise e -> decrypt D T N secret g = (Raise e, g).
Proof.
  intros HN. pose proof (decrypt_cases D T N secret g) as Hc.
  cbv zeta in Hc. now rewrite HN in Hc.
Qed.

Lemma decrypt_no_cipher (D T N secret : string) (n : bytes) (e : exn) (g : rng) :
  Base64.b64decode N = Ret n ->
  EAX.new_with_nonce (encode_utf8 secret) n = Raise e ->
  decrypt D T N secret g = (Raise e, g).
Proof.
  intros HN Hn. pose proof (decrypt_cases D T N secret g) as Hc.
  cbv zeta in Hc. now rewrite HN, Hn in Hc.
Qed.

Lemma decrypt_bad_data (D T N secret : string) (n : bytes) (c : EAX.cipher)
      (e : exn) (g : rng) :
  Base64.b64decode N = Ret n ->
  EAX.new_with_nonce (encode_utf8 secret) n = Ret c ->
  Base64.b64decode D = Raise e ->
  decrypt D T N secret g = (Raise e, g).
Proof.
  intros HN Hn HD. pose proof (decrypt_cases D T N secret g) as Hc.
  cbv zeta in Hc. now rewrite HN, Hn, HD in Hc.
Qed.

Lemma decrypt_bad_tag (D T N secret : string) (n d : bytes) (c : EAX.cipher)
      (e : exn) (g : rng) :
  Base64.b64decode N = Ret n ->
  EAX.new_with_nonce (encode_utf8 secret) n = Ret c ->
  Base64.b64decode D = Ret d ->
  Base64.b64decode T = Raise e ->
  decrypt D T N secret g = (Raise e, g).
Proof.
  intros HN Hn HD HT. pose proof (decrypt_cases D T N secret g) as Hc.
  cbv zeta in Hc. now rewrite HN, Hn, HD, HT in Hc.
Qed.

(** ** What base64 decoding can raise *)

Lemma a2b_loop_raises (s : list ascii) (st : Base64.a2b_state) (e : exn) :
  Base64.a2b_loop s st = Raise e -> exists msg, e = BinasciiError msg.
Proof.
  revert st. induction s as [|c s IH]; intros st; cbn [Base64.a2b_loop].
  - unfold Base64.a2b_finish.
    destruct (_ =? 0); [discriminate|].
    destruct (_ =? 6); intros [= <-]; eauto.
  - destruct (Ascii.eqb c Base64.pad).
    + destruct (_ || _); [apply IH|discriminate].
    + destruct (Base64.b64_index c) as [v|]; [|apply IH].
      cbv zeta. destruct (8 <=? _); apply IH.
Qed.

Lemma b64decode_raises (s : string) (e : exn) :
  Base64.b64decode s = Raise e -> MalformedInputError e.
Proof.
  unfold Base64.b64decode, MalformedInputError.
  destruct (forallb _ _).
  - intros Hr. left. exact (a2b_loop_raises _ _ _ Hr).
  - intros [= <-]. right. eauto.
Qed.

Lemma malformed_not_missing (e : exn) :
  MalformedInputError e -> isinstance_AzureMissingResourceHttpError e = false.
Proof. now intros [[msg ->]|[msg ->]]. Qed.

Lemma corrupt_not_missing (e : exn) :
  CorruptRecordError e -> isinstance_AzureMissingResourceHttpError e = false.
Proof. now intros [[msg ->]| ->]. Qed.

(** ** The store over any table service *)

Section StoreFacts.

Context {value : Type} `{Json value} {S : Type} `{TableService S}.

Lemma open_entity_fields (e : entity) (D T N secret : string) (g : rng) :
  e !! "Data" = Some D -> e !! "Tag" = Some T -> e !! "Nonce" = Some N ->
  open_entity e secret g
  = match decrypt D T N secret g with
    | (Ret (Some p), g') =>
        (result_bind (json_loads p) (fun v => Ret (Some v)), g')
    | (Ret None, g') => (Ret None, g')
    | (Raise x, g') => (Raise x, g')
    end.
Proof.
  intros HD HT HN. unfold open_entity, getitem, bind, lift, ret.
  rewrite HD, HT, HN.
  destruct (decrypt D T N secret g) as [[[p|]|x] g']; try reflexivity.
  now destruct (json_loads p).
Qed.

Lemma read_open (self : StorageAccount) (key secret : string) (w : world S) :
  read self key secret w
  = match get_entity (table_name self) (partition_key self) key (service w) with
    | (Ret data, s) =>
        let '(r, g) := open_entity data secret (entropy w) in
        (or_else None r, mk_world g s)
    | (Raise e, s) => (or_else None (Raise e), mk_world (entropy w) s)
    end.
Proof.
  unfold read, try_except, bind, with_service, with_entropy, lift, ret,
    open_entity, bind, lift, ret, or_else.
  destruct (get_entity _ _ _ _) as [[data|e] s]; cbn [entropy service].
  - destruct (getitem data "Data") as [D|e];
      [|now destruct (isinstance_AzureMissingResourceHttpError e)].
    destruct (getitem data "Tag") as [T|e];
      [|now destruct (isinstance_AzureMissingResourceHttpError e)].
    destruct (getitem data "Nonce") as [N|e];
      [|now destruct (isinstance_AzureMissingResourceHttpError e)].
    destruct (decrypt D T N secret (entropy w)) as [[[p|]|e] g];
      cbn [entropy service]; try reflexivity;
      [|now destruct (isinstance_AzureMissingResourceHttpError e)].
    destruct (json_loads p) as [v|e];
      [reflexivity|now destruct (isinstance_AzureMissingResourceHttpError e)].
  - now destruct (isinstance_AzureMissingResourceHttpError e).
Qed.

Lemma write_dumps_fails (self : StorageAccount) (key secret : string) (v : value)
      (w : world S) (e : exn) :
  json_dumps v = Raise e ->
  write self key v secret w = (Raise e, w).
Proof. intros Hd. unfold write, bind, lift. now rewrite Hd. Qed.

Lemma write_bad_key (self : StorageAccount) (key secret : string) (v : value)
      (w : world S) (s : string) :
  json_dumps v = Ret s ->
  accepted_key_length secret = false ->
  write self key v secret w
  = (Raise (ValueError (EAX.incorrect_key_length (length (encode_utf8 secret)))),
     mk_world (after_nonce (entropy w)) (service w)).
Proof.
  intros Hd Hk. unfold write, bind, lift, with_entropy. rewrite Hd.
  now rewrite (encrypt_bad_key _ _ _ Hk).
Qed.

Lemma write_unfold (self : StorageAccount) (key secret : string) (v : value)
      (w : world S) (s : string) :
  json_dumps v = Ret s ->
  accepted_key_length secret = true ->
  let e := sealed_entity self key s secret (entropy w) in
  let g := after_nonce (entropy w) in
  let tn := table_name self in
  write self key v secret w
  = match insert_or_merge_entity tn e (service w) with
    | (Ret _, s1) => (Ret tt, mk_world g s1)
    | (Raise x, s1) =>
        if isinstance_AzureMissingResourceHttpError x then
          if create_table_if_not_exists self then
            match create_table tn s1 with
            | (Ret _, s2) =>
                let '(r, s3) := insert_or_merge_entity tn e s2 in (r, mk_world g s3)
            | (Raise y, s2) => (Raise y, mk_world g s2)
            end
          else (Raise x, mk_world g s1)
        else (Raise x, mk_world g s1)
    end.
Proof.
  intros Hd Hk e g tn.
  unfold write, bind, lift, with_entropy, try_except, with_service, raise.
  rewrite Hd. rewrite (encrypt_ok _ _ _ Hk). cbn [entropy service].
  fold (sealed_entity self key s secret (entropy w)). fold e g tn.
  destruct (insert_or_merge_entity tn e (service w)) as [[[]|x] s1];
    [reflexivity|].
  destruct (isinstance_AzureMissingResourceHttpError x); [|reflexivity].
  destruct (create_table_if_not_exists self); cbn [negb]; [|reflexivity].
  cbn [entropy service].
  destruct (create_table tn s1) as [[b|y] s2]; reflexivity.
Qed.

Lemma delete_unfold (self : StorageAccount) (key : string) (w : world S) :
  delete self key w
  = match delete_entity (table_name self) (partition_key self) key (service w) with
    | (r, s) => (or_else tt r, mk_world (entropy w) s)
    end.
Proof.
  unfold delete, try_except, with_service, ret.
  destruct (delete_entity _ _ _ _) as [[[]|e] s]; cbn [or_else]; [reflexivity|].
  now destruct (isinstance_AzureMissingResourceHttpError e).
Qed.

End StoreFacts.

(** ** The store over tables in memory *)

Lemma make_entity_PartitionKey (self : StorageAccount) (key D T N : string) :
  make_entity self key D T N !! "PartitionKey" = Some (partition_key self).
Proof. unfold make_entity. now rewrite lookup_insert_eq. Qed.

Lemma make_entity_RowKey (self : StorageAccount) (key D T N : string) :
  make_entity self key D T N !! "RowKey" = Some key.
Proof.
  unfold make_entity.
  rewrite lookup_insert_ne by discriminate. now rewrite lookup_insert_eq.
Qed.

Lemma make_entity_Data (self : StorageAccount) (key D T N : string) :
  make_entity self key D T N !! "Data" = Some D.
Proof.
  unfold make_entity.
  rewrite !lookup_insert_ne by discriminate. now rewrite lookup_insert_eq.
Qed.

Lemma make_entity_Tag (self : StorageAccount) (key D T N : string) :
  make_entity self key D T N !! "Tag" = Some T.
Proof.
  unfold make_entity.
  rewrite !lookup_insert_ne by discriminate. now rewrite lookup_insert_eq.
Qed.

Lemma make_entity_Nonce (self : StorageAccount) (key D T N : string) :
  make_entity self key D T N !! "Nonce" = Some N.
Proof.
  unfold make_entity.
  rewrite !lookup_insert_ne by discriminate. now rewrite lookup_insert_eq.
Qed.

Lemma mem_get_entity_row (tn pk rk : string) (st : tables) :
  mem_get_entity tn pk rk st
  = match row st tn pk rk with
    | Some e => (Ret e, st)
    | None => (Raise AzureMissingResourceHttpError, st)
    end.
Proof.
  unfold mem_get_entity, row. destruct (st !! tn) as [rs|]; [|reflexivity].
  now destruct (rs !! (pk, rk)).
Qed.

Lemma mem_delete_entity_row (tn pk rk : string) (st : tables) :
  mem_delete_entity tn pk rk st
  = match st !! tn, row st tn pk rk with
    | Some rs, Some _ => (Ret tt, <[tn := base.delete (pk, rk) rs]> st)
    | _, _ => (Raise AzureMissingResourceHttpError, st)
    end.
Proof.
  unfold mem_delete_entity, row. destruct (st !! tn) as [rs|]; [|reflexivity].
  now destruct (rs !! (pk, rk)).
Qed.

Lemma row_insert (st : tables) (tn pk rk : string) (rs : rows) (e : entity) :
  row (<[tn := <[(pk, rk) := e]> rs]> st) tn pk rk = Some e.
Proof. unfold row. now rewrite !lookup_insert_eq. Qed.

Lemma row_insert_other (st : tables) (tn pk rk tn' pk' rk' : string)
      (rs : rows) (e : entity) :
  (tn', pk', rk') <> (tn, pk, rk) ->
  row (<[tn := <[(pk, rk) := e]> rs]> st) tn' pk' rk'
  = if decide (tn' = tn) then rs !! (pk', rk') else row st tn' pk' rk'.
Proof.
  intros Hne. unfold row. destruct (decide (tn' = tn)) as [->|Htn].
  - rewrite lookup_insert_eq, lookup_insert_ne; [reflexivity|]. congruence.
  - now rewrite lookup_insert_ne by congruence.
Qed.

Lemma row_delete (st : tables) (tn pk rk : string) (rs : rows) :
  row (<[tn := base.delete (pk, rk) rs]> st) tn pk rk = None.
Proof. unfold row. now rewrite lookup_insert_eq, lookup_delete_eq. Qed.

Lemma row_delete_other (st : tables) (tn pk rk tn' pk' rk' : string) (rs : rows) :
  (tn', pk', rk') <> (tn, pk, rk) ->
  st !! tn = Some rs ->
  row (<[tn := base.delete (pk, rk) rs]> st) tn' pk' rk' = row st tn' pk' rk'.
Proof.
  intros Hne Hrs. unfold row. destruct (decide (tn' = tn)) as [->|Htn].
  - rewrite lookup_insert_eq, Hrs, lookup_delete_ne; [reflexivity|]. congruence.
  - now rewrite lookup_insert_ne by congruence.
Qed.

Section MemStore.

Context {value : Type} `{Json value}.

Lemma mem_insert_sealed (self : StorageAccount) (key D T N : string) (st : tables) :
  mem_insert_or_merge_entity (table_name self) (make_entity self key D T N) st
  = match st !! table_name self with
    | None => (Raise AzureMissingResourceHttpError, st)
    | Some rs =>
        (Ret tt,
         <[table_name self :=
             <[(partition_key self, key) :=
                 make_entity self key D T N
                 ∪ default ∅ (rs !! (partition_key self, key))]> rs]> st)
    end.
Proof.
  unfold mem_insert_or_merge_entity.
  now rewrite make_entity_PartitionKey, make_entity_RowKey.
Qed.

(** [write] on tables in memory, for a value that serialises and a key
    of accepted length. *)
Lemma write_mem (self : StorageAccount) (key secret : string) (v : value)
      (w : world tables) (s : string) :
  json_dumps v = Ret s ->
  accepted_key_length secret = true ->
  let e := sealed_entity self key s secret (entropy w) in
  let g := after_nonce (entropy w) in
  let tn := table_name self in
  let k := (partition_key self, key) in
  write self key v secret w
  = match service w !! tn with
    | Some rs =>
        (Ret tt, mk_world g (<[tn := <[k := e ∪ default ∅ (rs !! k)]> rs]> (service w)))
    | None =>
        if create_table_if_not_exists self
        then (Ret tt, mk_world g (<[tn := <[k := e]> ∅]> (service w)))
        else (Raise AzureMissingResourceHttpError, mk_world g (service w))
    end.
Proof.
  intros Hd Hk. cbv zeta. rewrite (write_unfold _ _ _ _ _ _ Hd Hk).
  cbn [insert_or_merge_entity create_table mem_tables]. unfold sealed_entity.
  rewrite mem_insert_sealed.
  destruct (service w !! table_name self) as [rs|] eqn:Hrs; [reflexivity|].
  cbn [isinstance_AzureMissingResourceHttpError].
  destruct (create_table_if_not_exists self); [|reflexivity].
  unfold mem_create_table. rewrite Hrs. rewrite mem_insert_sealed.
  rewrite lookup_insert_eq, lookup_empty. cbn [default].
  rewrite insert_insert_eq. now rewrite (right_id ∅ (∪)).
Qed.

Lemma read_mem (self : StorageAccount) (key secret : string) (w : world tables) :
  read self key secret w
  = match row (service w) (table_name self) (partition_key self) key with
    | Some e =>
        let '(r, g) := open_entity e secret (entropy w) in
        (or_else None r, mk_world g (service w))
    | None => (Ret None, w)
    end.
Proof.
  rewrite read_open. cbn [get_entity mem_tables]. rewrite mem_get_entity_row.
  destruct w as [g st]. cbn [entropy service].
  now destruct (row st _ _ _).
Qed.

End MemStore.

Lemma delete_mem (self : StorageAccount) (key : string) (w : world tables) :
  delete self key w
  = match service w !! table_name self,
          row (service w) (table_name self) (partition_key self) key with
    | Some rs, Some _ =>
        (Ret tt,
         mk_world (entropy w)
           (<[table_name self := base.delete (partition_key self, key) rs]>
              (service w)))
    | _, _ => (Ret tt, w)
    end.
Proof.
  rewrite delete_unfold. cbn [delete_entity mem_tables].
  rewrite mem_delete_entity_row. destruct w as [g st]. cbn [entropy service].
  destruct (st !! table_name self); [|reflexivity].
  now destruct (row st _ _ _).
Qed.

(** ** Rows after a change of stored text *)

Lemma row_set_field (field text tn pk rk : string) (st : tables) :
  row (set_field field text tn pk rk st) tn pk rk
  = (<[field := text]>) <$> row st tn pk rk.
Proof.
  unfold row, set_field. rewrite lookup_alter_eq.
  destruct (st !! tn) as [rs|]; cbn; [|reflexivity].
  now rewrite lookup_alter_eq.
Qed.

Lemma row_set_field_other (field text tn pk rk tn' pk' rk' : string) (st : tables) :
  (tn', pk', rk') <> (tn, pk, rk) ->
  row (set_field field text tn pk rk st) tn' pk' rk' = row st tn' pk' rk'.
Proof.
  intros Hne. unfold row, set_field. destruct (decide (tn' = tn)) as [->|Htn].
  - rewrite lookup_alter_eq. destruct (st !! tn) as [rs|]; cbn; [|reflexivity].
    rewrite lookup_alter_ne; [reflexivity|congruence].
  - now rewrite lookup_alter_ne by congruence.
Qed.


(** ** Rows that [write] sealed *)

Section Sealed.

Context {value : Type} `{Json value}.

Lemma open_entity_decoded (e : entity) (D T secret : string) (n d t : bytes)
      (g : rng) :
  e !! "Data" = Some D -> e !! "Tag" = Some T ->
  e !! "Nonce" = Some (Base64.b64encode n) ->
  n <> [] ->
  accepted_key_length secret = true ->
  Base64.b64decode D = Ret d ->
  Base64.b64decode T = Ret t ->
  open_entity e secret g
  = (if EAX.bytes_eqb (EAX.mac_tag (encode_utf8 secret) n d) t
     then result_bind (json_loads (EAX.ctr (encode_utf8 secret) n d))
                      (fun v => Ret (Some v))
     else Ret None, after_verify g).
Proof.
  intros HD HT HN Hn Hk Hd Ht.
  rewrite (open_entity_fields _ _ _ _ _ _ HD HT HN).
  rewrite (decrypt_decoded _ _ _ _ n d t);
    auto using b64decode_b64encode.
  now destruct (EAX.bytes_eqb _ t).
Qed.

Lemma sealed_fields (self : StorageAccount) (key s secret : string) (g : rng)
      (old : entity) :
  let k := encode_utf8 secret in
  let n := next_nonce g in
  let c := EAX.ctr k n (encode_utf8 s) in
  let e := sealed_entity self key s secret g ∪ old in
  e !! "Data" = Some (Base64.b64encode c)
  /\ e !! "Tag" = Some (Base64.b64encode (EAX.mac_tag k n c))
  /\ e !! "Nonce" = Some (Base64.b64encode n).
Proof.
  cbv zeta. unfold sealed_entity.
  repeat split; apply lookup_union_Some_l;
    auto using make_entity_Data, make_entity_Tag, make_entity_Nonce.
Qed.

(** The secret that sealed a row opens it. *)
Lemma open_sealed (self : StorageAccount) (key s secret : string) (g g' : rng)
      (old : entity) :
  accepted_key_length secret = true ->
  open_entity (sealed_entity self key s secret g ∪ old) secret g'
  = (result_bind (json_loads (encode_utf8 s)) (fun v => Ret (Some v)),
     after_verify g').
Proof.
  intros Hk.
  destruct (sealed_fields self key s secret g old) as (HD & HT & HN).
  rewrite (open_entity_decoded _ _ _ _ _ _ _ _ HD HT HN (next_nonce_nonempty g) Hk
             (b64decode_b64encode _) (b64decode_b64encode _)).
  now rewrite bytes_eqb_refl, ctr_involutive.
Qed.

(** Under another secret the row opens exactly when the tag comes out
    the same. *)
Lemma open_sealed_other (self : StorageAccount) (key s secretA secretB : string)
      (g g' : rng) (old : entity) :
  accepted_key_length secretB = true ->
  let n := next_nonce g in
  let c := EAX.ctr (encode_utf8 secretA) n (encode_utf8 s) in
  open_entity (value := value) (sealed_entity self key s secretA g ∪ old) secretB g'
  = (if EAX.bytes_eqb (EAX.mac_tag (encode_utf8 secretB) n c)
                      (EAX.mac_tag (encode_utf8 secretA) n c)
     then result_bind (json_loads (EAX.ctr (encode_utf8 secretB) n c))
                      (fun v => Ret (Some v))
     else Ret None, after_verify g').
Proof.
  intros Hk. cbv zeta.
  destruct (sealed_fields self key s secretA g old) as (HD & HT & HN).
  exact (open_entity_decoded _ _ _ _ _ _ _ _ HD HT HN (next_nonce_nonempty g) Hk
           (b64decode_b64encode _) (b64decode_b64encode _)).
Qed.

(** Where a successful [write] leaves the world. *)
Lemma write_mem_row (self : StorageAccount) (key secret : string) (v : value)
      (w w1 : world tables) (s : string) :
  json_dumps v = Ret s ->
  accepted_key_length secret = true ->
  write self key v secret w = (Ret tt, w1) ->
  entropy w1 = after_nonce (entropy w)
  /\ exists old,
       row (service w1) (table_name self) (partition_key self) key
       = Some (sealed_entity self key s secret (entropy w) ∪ old).
Proof.
  intros Hd Hk. rewrite (write_mem _ _ _ _ _ _ Hd Hk).
  destruct (service w !! table_name self) as [rs|].
  - intros [= <-]. cbn [entropy service]. split; [reflexivity|].
    eexists. apply row_insert.
  - destruct (create_table_if_not_exists self); [|discriminate].
    intros [= <-]. cbn [entropy service]. split; [reflexivity|].
    exists ∅. rewrite (right_id ∅ (∪)). apply row_insert.
Qed.

(** [write] succeeds when the table is there or may be created. *)
Lemma write_mem_succeeds (self : StorageAccount) (key secret : string) (v : value)
      (w : world tables) (s : string) :
  json_dumps v = Ret s ->
  accepted_key_length secret = true ->
  is_Some (service w !! table_name self) \/ create_table_if_not_exists self = true ->
  exists w1, write self key v secret w = (Ret tt, w1).
Proof.
  intros Hd Hk Ht. rewrite (write_mem _ _ _ _ _ _ Hd Hk).
  destruct (service w !! table_name self) as [rs|]; [eauto|].
  destruct Ht as [[rs Hrs]| ->]; [discriminate|eauto].
Qed.

End Sealed.


(** ** The store over a scripted service *)

Lemma answer_nth {A} (rq : request) (ok : reply -> A) (sc : script) :
  answer rq ok sc
  = (match nth 0 (replies sc) Done with
     | Fails e => Raise e
     | r => Ret (ok r)
     end,
     mk_script (tl (replies sc)) (rq :: requests sc)).
Proof.
  unfold answer. destruct (replies sc) as [|[| |] rs]; reflexivity.
Qed.

Lemma upserts_cons (rq : request) (log : list request) :
  upserts (rq :: log) = ((if is_upsert rq then 1 else 0) + upserts log)%nat.
Proof. unfold upserts. cbn [List.filter]. now destruct (is_upsert rq). Qed.

(** ** What the operations leave alone *)

Section Frame.

Context {value : Type} `{Json value}.

Lemma write_mem_frame (self : StorageAccount) (key secret : string) (v : value)
      (w : world tables) (tn' pk' rk' : string) :
  (tn', pk', rk') <> (table_name self, partition_key self, key) ->
  row (service (snd (write self key v secret w))) tn' pk' rk'
  = row (service w) tn' pk' rk'.
Proof.
  intros Hne. destruct (json_dumps v) as [s|e] eqn:Hd.
  2:{ now rewrite (write_dumps_fails _ _ _ _ _ _ Hd). }
  destruct (accepted_key_length secret) eqn:Hk.
  2:{ now rewrite (write_bad_key _ _ _ _ _ _ Hd Hk). }
  rewrite (write_mem _ _ _ _ _ _ Hd Hk).
  destruct (service w !! table_name self) as [rs|] eqn:Hrs.
  - cbn [snd service]. rewrite row_insert_other by exact Hne.
    destruct (decide (tn' = table_name self)) as [->|]; [|reflexivity].
    unfold row. now rewrite Hrs.
  - destruct (create_table_if_not_exists self); [|reflexivity].
    cbn [snd service]. rewrite row_insert_other by exact Hne.
    destruct (decide (tn' = table_name self)) as [->|]; [|reflexivity].
    unfold row. now rewrite Hrs, lookup_empty.
Qed.

Lemma read_mem_frame (self : StorageAccount) (key secret : string) (w : world tables) :
  service (snd (read self key secret w)) = service w.
Proof.
  rewrite read_mem. destruct (row (service w) _ _ _) as [e|]; [|reflexivity].
  now destruct (open_entity e secret (entropy w)).
Qed.

End Frame.

Lemma delete_mem_frame (self : StorageAccount) (key : string) (w : world tables)
      (tn' pk' rk' : string) :
  (tn', pk', rk') <> (table_name self, partition_key self, key) ->
  row (service (snd (delete self key w))) tn' pk' rk' = row (service w) tn' pk' rk'.
Proof.
  intros Hne. rewrite delete_mem.
  destruct (service w !! table_name self) as [rs|] eqn:Hrs; [|reflexivity].
  destruct (row (service w) (table_name self) _ _); [|reflexivity].
  cbn [snd service]. now apply row_delete_other.
Qed.

Lemma delete_mem_removes (self : StorageAccount) (key : string) (w : world tables) :
  row (service (snd (delete self key w))) (table_name self) (partition_key self) key
  = None.
Proof.
  rewrite delete_mem.
  destruct (service w !! table_name self) as [rs|] eqn:Hrs.
  - destruct (row (service w) (table_name self) _ _) eqn:Hrow; [|exact Hrow].
    cbn [snd service]. apply row_delete.
  - cbn [snd]. unfold row. now rewrite Hrs.
Qed.

(** ** Reading a sealed row whose text was replaced *)

Section Tampered.

Context {value : Type} `{Json value}.

Lemma service_in_service {S} (f : S -> S) (w : world S) :
  service (in_service f w) = f (service w).
Proof. reflexivity. Qed.

Lemma entropy_in_service {S} (f : S -> S) (w : world S) :
  entropy (in_service f w) = entropy w.
Proof. reflexivity. Qed.

(** [read] of a row with the fields [D], [T] and a sealed nonce. *)
Lemma read_mem_decoded (self : StorageAccount) (key secret : string)
      (w : world tables) (e : entity) (D T : string) (n : bytes) :
  row (service w) (table_name self) (partition_key self) key = Some e ->
  e !! "Data" = Some D -> e !! "Tag" = Some T ->
  e !! "Nonce" = Some (Base64.b64encode n) ->
  n <> [] ->
  accepted_key_length secret = true ->
  let k := encode_utf8 secret in
  read self key secret w
  = match Base64.b64decode D, Base64.b64decode T with
    | Raise x, _ => (Raise x, w)
    | Ret _, Raise x => (Raise x, w)
    | Ret d, Ret t =>
        (if EAX.bytes_eqb (EAX.mac_tag k n d) t
         then or_else None (result_bind (json_loads (EAX.ctr k n d))
                                        (fun v => Ret (Some v)))
         else Ret None,
         mk_world (after_verify (entropy w)) (service w))
    end.
Proof.
  intros Hrow HD HT HN Hn Hk. cbv zeta.
  rewrite read_mem, Hrow.
  pose proof (new_with_nonce_ok _ _ Hn Hk) as Hc.
  destruct (Base64.b64decode D) as [d|x] eqn:Hd.
  - destruct (Base64.b64decode T) as [t|x] eqn:Ht.
    + rewrite (open_entity_decoded _ _ _ _ _ _ _ _ HD HT HN Hn Hk Hd Ht).
      now destruct (EAX.bytes_eqb _ t).
    + rewrite (open_entity_fields _ _ _ _ _ _ HD HT HN).
      rewrite (decrypt_bad_tag _ _ _ _ _ _ _ _ _ (b64decode_b64encode n) Hc Hd Ht).
      cbn [or_else].
      rewrite (malformed_not_missing _ (b64decode_raises _ _ Ht)).
      now destruct w.
  - rewrite (open_entity_fields _ _ _ _ _ _ HD HT HN).
    rewrite (decrypt_bad_data _ _ _ _ _ _ _ _ (b64decode_b64encode n) Hc Hd).
    cbn [or_else].
    rewrite (malformed_not_missing _ (b64decode_raises _ _ Hd)).
    now destruct w.
Qed.

End Tampered.

(** ** Sizes *)

Lemma digest_length (k msg : bytes) : length (CMAC.digest k msg) = 16%nat.
Proof.
  unfold CMAC.digest. destruct (CMAC.absorb k msg CMAC.zero_block []) as [chain buf].
  destruct (Nat.eqb (length buf) 16); apply encrypt_block_length.
Qed.

Lemma mac_tag_length (k n c : bytes) : length (EAX.mac_tag k n c) = 16%nat.
Proof.
  unfold EAX.mac_tag, EAX.tag_of, EAX.omac.
  assert (Hin : forall a b, length (xor_bytes (CMAC.digest k a) (CMAC.digest k b))
                            = 16%nat).
  { intros a b. rewrite xor_bytes_length; rewrite !digest_length; lia. }
  rewrite xor_bytes_length; rewrite Hin; [reflexivity|].
  rewrite digest_length. lia.
Qed.

(** Beyond its layout a sealed entity has no property. *)
Lemma sealed_entity_other (self : StorageAccount) (key s secret : string)
      (g : rng) (name : string) :
  ~ In name row_layout -> sealed_entity self key s secret g !! name = None.
Proof.
  intros Hname. unfold sealed_entity, make_entity.
  unfold row_layout in Hname. cbn [In] in Hname.
  rewrite !lookup_insert_ne by (intros <-; tauto).
  apply lookup_empty.
Qed.

(** ** The ciphers against their published vectors *)

(** FIPS 197, appendix C: AES-128, AES-192 and AES-256. *)
Example aes_fips197 :
  AES.encrypt_block (unhex "000102030405060708090a0b0c0d0e0f")
                    (unhex "00112233445566778899aabbccddeeff")
  = unhex "69c4e0d86a7b0430d8cdb78070b4c55a"
  /\ AES.encrypt_block (unhex "000102030405060708090a0b0c0d0e0f1011121314151617")
                       (unhex "00112233445566778899aabbccddeeff")
     = unhex "dda97ca4864cdfe06eaf70a0ec0d7191"
  /\ AES.encrypt_block
       (unhex "000102030405060708090a0b0c0d0e0f101112131415161718191a1b1c1d1e1f")
       (unhex "00112233445566778899aabbccddeeff")
     = unhex "8ea2b7ca516745bfeafc49904b496089".
Proof. split_conj; vm_compute; reflexivity. Qed.

(** RFC 4493, section 4: AES-CMAC of 0, 16 and 40 bytes. *)
Example cmac_rfc4493 :
  let k := unhex "2b7e151628aed2a6abf7158809cf4f3c" in
  CMAC.digest k [] = unhex "bb1d6929e95937287fa37d129b756746"
  /\ CMAC.digest k (unhex "6bc1bee22e409f96e93d7e117393172a")
     = unhex "070a16b46b4d4144f79bdd9dd04a287c"
  /\ CMAC.digest k
       (unhex "6bc1bee22e409f96e93d7e117393172aae2d8a571e03ac9c9eb76fac45af8e5130c81c46a35ce411")
     = unhex "dfa66747de9ae63030ca32611497c827".
Proof. cbv zeta. split_conj; vm_compute; reflexivity. Qed.

(** The EAX paper (Bellare, Rogaway, Wagner), test vectors 1 and 2. *)
Example eax_vectors :
  EAX.tag_of (unhex "233952dee4d5ed5f9b9c6d6ff80ff478")
             (unhex "62ec67f9c3a4a407fcb2a8c49031a8b3")
             (unhex "6bfb914fd07eae6b") []
  = unhex "e037830e8389f27b025a2d6527e79d01"
  /\ (let k := unhex "91945d3f4dcbee0bf45ef52255f095a4" in
      let n := unhex "becaf043b0a23d843194ba972c66debd" in
      let c := EAX.ctr k n (unhex "f7fb") in
      c ++ EAX.tag_of k n (unhex "fa3bfd4806eb53fa") c
      = unhex "19dd5c4c9331049d0bdab0277408f67967e5").
Proof. cbv zeta. split_conj; vm_compute; reflexivity. Qed.

(** ** The block cipher is one-to-one *)

Lemma is_byte_range (x : Z) : is_byte x = true <-> 0 <= x < 256.
Proof. unfold is_byte. rewrite andb_true_iff, Z.leb_le, Z.ltb_lt. tauto. Qed.

Lemma in_all_bytes (x : Z) : 0 <= x < 256 -> In x all_bytes.
Proof.
  intros Hx. unfold all_bytes. apply in_map_iff. exists (Z.to_nat x).
  split; [lia|]. apply in_seq. lia.
Qed.

(** What holds of each of the 256 bytes holds of every byte. *)
Lemma byte_cases (P : Z -> bool) :
  forallb P all_bytes = true -> forall x, 0 <= x < 256 -> P x = true.
Proof.
  intros Hall x Hx. rewrite forallb_forall in Hall. apply Hall, in_all_bytes, Hx.
Qed.

Lemma byte_cases2 (P : Z -> Z -> bool) :
  forallb (fun x => forallb (P x) all_bytes) all_bytes = true ->
  forall x y, 0 <= x < 256 -> 0 <= y < 256 -> P x y = true.
Proof.
  intros Hall x y Hx Hy.
  apply (byte_cases (P x)); [|exact Hy].
  exact (byte_cases (fun x => forallb (P x) all_bytes) Hall x Hx).
Qed.

Lemma lxor_is_byte (x y : Z) : 0 <= x < 256 -> 0 <= y < 256 -> 0 <= Z.lxor x y < 256.
Proof.
  intros Hx Hy. apply is_byte_range.
  apply (byte_cases2 (fun x y => is_byte (Z.lxor x y))); [|exact Hx|exact Hy].
  vm_compute. reflexivity.
Qed.

Lemma sbox_is_byte (x : Z) : 0 <= x < 256 -> 0 <= AES.sbox x < 256.
Proof.
  intros Hx. apply is_byte_range.
  apply (byte_cases (fun x => is_byte (AES.sbox x))); [|exact Hx].
  vm_compute. reflexivity.
Qed.

Lemma sbox_inj (x y : Z) :
  0 <= x < 256 -> 0 <= y < 256 -> AES.sbox x = AES.sbox y -> x = y.
Proof.
  intros Hx Hy Heq.
  pose proof (byte_cases2
    (fun x y => negb (AES.sbox x =? AES.sbox y) || (x =? y))
    ltac:(vm_compute; reflexivity) x y Hx Hy) as Hc.
  cbv beta in Hc. rewrite Heq, Z.eqb_refl in Hc. cbn in Hc. now apply Z.eqb_eq.
Qed.

Lemma xtime_is_byte (x : Z) : 0 <= x < 256 -> 0 <= AES.xtime x < 256.
Proof.
  intros Hx. apply is_byte_range.
  apply (byte_cases (fun x => is_byte (AES.xtime x))); [|exact Hx].
  vm_compute. reflexivity.
Qed.

(** Multiplication in GF(2^8) by a constant is linear. *)
Lemma gmul_aux_acc (n : nat) (a b acc : Z) :
  AES.gmul_aux n a b acc = Z.lxor acc (AES.gmul_aux n a b 0).
Proof.
  revert a b acc. induction n as [|n IH]; intros a b acc; cbn [AES.gmul_aux].
  - now rewrite Z.lxor_0_r.
  - rewrite IH. rewrite (IH _ _ (if Z.odd b then _ else _)).
    destruct (Z.odd b).
    + now rewrite Z.lxor_0_l, Z.lxor_assoc.
    + now rewrite Z.lxor_0_l.
Qed.

Lemma div2_lxor (x y : Z) : Z.lxor x y / 2 = Z.lxor (x / 2) (y / 2).
Proof.
  rewrite <- !Z.div2_div, !Z.div2_spec. apply Z.shiftr_lxor.
Qed.

Lemma odd_lxor (x y : Z) : Z.odd (Z.lxor x y) = xorb (Z.odd x) (Z.odd y).
Proof. rewrite <- !Z.bit0_odd. apply Z.lxor_spec. Qed.

Lemma gmul_aux_lxor (n : nat) (a x y : Z) :
  AES.gmul_aux n a (Z.lxor x y) 0
  = Z.lxor (AES.gmul_aux n a x 0) (AES.gmul_aux n a y 0).
Proof.
  revert a x y. induction n as [|n IH]; intros a x y; cbn [AES.gmul_aux].
  - reflexivity.
  - rewrite div2_lxor, odd_lxor.
    rewrite (gmul_aux_acc n _ _ (if xorb _ _ then _ else _)).
    rewrite (gmul_aux_acc n _ (x / 2)), (gmul_aux_acc n _ (y / 2)).
    rewrite IH.
    apply Z.bits_inj'. intros i _. rewrite !Z.lxor_spec.
    destruct (Z.odd x), (Z.odd y); cbn [xorb];
      rewrite ?Z.lxor_spec, ?Z.lxor_0_l, ?Z.bits_0; btauto.
Qed.

Lemma gmul_lxor (c x y : Z) :
  AES.gmul c (Z.lxor x y) = Z.lxor (AES.gmul c x) (AES.gmul c y).
Proof. apply gmul_aux_lxor. Qed.

Lemma gmul_0_r (c : Z) : AES.gmul c 0 = 0.
Proof. reflexivity. Qed.

Lemma gmul_is_byte (c x : Z) :
  In c [2; 3; 9; 11; 13; 14] -> 0 <= x < 256 -> 0 <= AES.gmul c x < 256.
Proof.
  intros Hc Hx. apply is_byte_range. revert x Hx. cbn [In] in Hc.
  destruct Hc as [<-|[<-|[<-|[<-|[<-|[<-|[]]]]]]];
    apply byte_cases; vm_compute; reflexivity.
Qed.

(** One byte of a column, through [MixColumns] and back. *)
Lemma inv_mix_one (x : Z) :
  0 <= x < 256 ->
  Z.lxor (AES.gmul 14 (AES.gmul 2 x))
    (Z.lxor (AES.gmul 11 x) (Z.lxor (AES.gmul 13 x) (AES.gmul 9 (AES.gmul 3 x)))) = x
  /\ Z.lxor (AES.gmul 14 (AES.gmul 3 x))
       (Z.lxor (AES.gmul 11 (AES.gmul 2 x)) (Z.lxor (AES.gmul 13 x) (AES.gmul 9 x))) = 0
  /\ Z.lxor (AES.gmul 14 x)
       (Z.lxor (AES.gmul 11 (AES.gmul 3 x)) (Z.lxor (AES.gmul 13 (AES.gmul 2 x)) (AES.gmul 9 x))) = 0
  /\ Z.lxor (AES.gmul 14 x)
       (Z.lxor (AES.gmul 11 x) (Z.lxor (AES.gmul 13 (AES.gmul 3 x)) (AES.gmul 9 (AES.gmul 2 x)))) = 0
  /\ Z.lxor (AES.gmul 9 (AES.gmul 2 x))
       (Z.lxor (AES.gmul 14 x) (Z.lxor (AES.gmul 11 x) (AES.gmul 13 (AES.gmul 3 x)))) = 0
  /\ Z.lxor (AES.gmul 9 (AES.gmul 3 x))
       (Z.lxor (AES.gmul 14 (AES.gmul 2 x)) (Z.lxor (AES.gmul 11 x) (AES.gmul 13 x))) = x
  /\ Z.lxor (AES.gmul 9 x)
       (Z.lxor (AES.gmul 14 (AES.gmul 3 x)) (Z.lxor (AES.gmul 11 (AES.gmul 2 x)) (AES.gmul 13 x))) = 0
  /\ Z.lxor (AES.gmul 9 x)
       (Z.lxor (AES.gmul 14 x) (Z.lxor (AES.gmul 11 (AES.gmul 3 x)) (AES.gmul 13 (AES.gmul 2 x)))) = 0
  /\ Z.lxor (AES.gmul 13 (AES.gmul 2 x))
       (Z.lxor (AES.gmul 9 x) (Z.lxor (AES.gmul 14 x) (AES.gmul 11 (AES.gmul 3 x)))) = 0
  /\ Z.lxor (AES.gmul 13 (AES.gmul 3 x))
       (Z.lxor (AES.gmul 9 (AES.gmul 2 x)) (Z.lxor (AES.gmul 14 x) (AES.gmul 11 x))) = 0
  /\ Z.lxor (AES.gmul 13 x)
       (Z.lxor (AES.gmul 9 (AES.gmul 3 x)) (Z.lxor (AES.gmul 14 (AES.gmul 2 x)) (AES.gmul 11 x))) = x
  /\ Z.lxor (AES.gmul 13 x)
       (Z.lxor (AES.gmul 9 x) (Z.lxor (AES.gmul 14 (AES.gmul 3 x)) (AES.gmul 11 (AES.gmul 2 x)))) = 0
  /\ Z.lxor (AES.gmul 11 (AES.gmul 2 x))
       (Z.lxor (AES.gmul 13 x) (Z.lxor (AES.gmul 9 x) (AES.gmul 14 (AES.gmul 3 x)))) = 0
  /\ Z.lxor (AES.gmul 11 (AES.gmul 3 x))
       (Z.lxor (AES.gmul 13 (AES.gmul 2 x)) (Z.lxor (AES.gmul 9 x) (AES.gmul 14 x))) = 0
  /\ Z.lxor (AES.gmul 11 x)
       (Z.lxor (AES.gmul 13 (AES.gmul 3 x)) (Z.lxor (AES.gmul 9 (AES.gmul 2 x)) (AES.gmul 14 x))) = 0
  /\ Z.lxor (AES.gmul 11 x)
       (Z.lxor (AES.gmul 13 x) (Z.lxor (AES.gmul 9 (AES.gmul 3 x)) (AES.gmul 14 (AES.gmul 2 x)))) = x.
Proof.
  intros Hx.
  split_conj;
    (apply Z.eqb_eq; revert x Hx;
     match goal with
     | |- forall x, _ -> (?f =? ?r) = true =>
         idtac
     end;
     apply byte_cases; vm_compute; reflexivity).
Qed.

(** From four sums of bits to their joint sum. *)
Ltac regroup_bits B0 B1 B2 B3 :=
  match type of B0 with
  | ?l0 = _ =>
      match type of B1 with
      | ?l1 = _ =>
          match type of B2 with
          | ?l2 = _ =>
              match type of B3 with
              | ?l3 = _ =>
                  transitivity (xorb l0 (xorb l1 (xorb l2 l3)));
                  [btauto | rewrite B0, B1, B2, B3; btauto]
              end
          end
      end
  end.

Ltac bits_of i H :=
  apply (f_equal (fun z => Z.testbit z i)) in H; cbv beta in H;
  rewrite ?Z.lxor_spec, ?Z.bits_0 in H.

Lemma inv_mix_column_mix_column (a0 a1 a2 a3 : Z) :
  0 <= a0 < 256 -> 0 <= a1 < 256 -> 0 <= a2 < 256 -> 0 <= a3 < 256 ->
  inv_mix_column (AES.mix_column [a0; a1; a2; a3]) = [a0; a1; a2; a3].
Proof.
  intros H0 H1 H2 H3. cbn [AES.mix_column inv_mix_column].
  destruct (inv_mix_one a0 H0)
    as (A00 & _ & _ & _ & A10 & _ & _ & _ & A20 & _ & _ & _ & A30 & _ & _ & _).
  destruct (inv_mix_one a1 H1)
    as (_ & A01 & _ & _ & _ & A11 & _ & _ & _ & A21 & _ & _ & _ & A31 & _ & _).
  destruct (inv_mix_one a2 H2)
    as (_ & _ & A02 & _ & _ & _ & A12 & _ & _ & _ & A22 & _ & _ & _ & A32 & _).
  destruct (inv_mix_one a3 H3)
    as (_ & _ & _ & A03 & _ & _ & _ & A13 & _ & _ & _ & A23 & _ & _ & _ & A33).
  rewrite !gmul_lxor.
  repeat f_equal; apply Z.bits_inj'; intros i _; rewrite !Z.lxor_spec.
  - bits_of i A00. bits_of i A01. bits_of i A02. bits_of i A03.
    regroup_bits A00 A01 A02 A03.
  - bits_of i A10. bits_of i A11. bits_of i A12. bits_of i A13.
    regroup_bits A10 A11 A12 A13.
  - bits_of i A20. bits_of i A21. bits_of i A22. bits_of i A23.
    regroup_bits A20 A21 A22 A23.
  - bits_of i A30. bits_of i A31. bits_of i A32. bits_of i A33.
    regroup_bits A30 A31 A32 A33.
Qed.

(** *** The four steps of a round, on states of sixteen bytes *)

Lemma is_block_spec (st : list Z) :
  is_block st = true <-> length st = 16%nat /\ Forall (fun x => 0 <= x < 256) st.
Proof.
  unfold is_block. rewrite andb_true_iff, Nat.eqb_eq, forallb_forall, List.Forall_forall.
  split; intros [Hl Hb]; (split; [exact Hl|]); intros x Hx;
    apply is_byte_range, Hb, Hx.
Qed.

(** A state, byte by byte. *)
Ltac explode st H :=
  let Hl := fresh "Hl" in
  let Hb := fresh "Hb" in
  apply is_block_spec in H; destruct H as [Hl Hb];
  do 16 (destruct st as [|? st]; [discriminate Hl|]);
  (destruct st; [|discriminate Hl]); clear Hl;
  rewrite !List.Forall_cons_iff in Hb.

Lemma map_inj_on {A B} (f : A -> B) (P : A -> Prop) (l l' : list A) :
  (forall x y, P x -> P y -> f x = f y -> x = y) ->
  Forall P l -> Forall P l' -> map f l = map f l' -> l = l'.
Proof.
  intros Hf Hl. revert l'. induction Hl as [|x l Hx Hl IH]; intros [|y l'] Hl' Heq;
    try discriminate; [reflexivity|].
  inversion Hl'; subst. injection Heq as Hxy Heq.
  f_equal; [now apply Hf|now apply IH].
Qed.

Lemma sub_bytes_block (st : list Z) :
  is_block st = true -> is_block (AES.sub_bytes st) = true.
Proof.
  rewrite !is_block_spec. intros [Hl Hb]. unfold AES.sub_bytes.
  split; [now rewrite length_map|].
  apply List.Forall_map. eapply List.Forall_impl; [|exact Hb].
  intros x Hx. now apply sbox_is_byte.
Qed.

Lemma sub_bytes_inj (st st' : list Z) :
  is_block st = true -> is_block st' = true ->
  AES.sub_bytes st = AES.sub_bytes st' -> st = st'.
Proof.
  rewrite !is_block_spec. intros [_ Hb] [_ Hb']. unfold AES.sub_bytes.
  apply (map_inj_on _ (fun x => 0 <= x < 256)); auto using sbox_inj.
Qed.

Lemma xor_word_length (a b : list Z) :
  length (AES.xor_word a b) = Nat.min (length a) (length b).
Proof. unfold AES.xor_word. now rewrite length_map, length_combine. Qed.

Lemma xor_word_bytes (a b : list Z) :
  Forall (fun x => 0 <= x < 256) a -> Forall (fun x => 0 <= x < 256) b ->
  Forall (fun x => 0 <= x < 256) (AES.xor_word a b).
Proof.
  intros Ha. revert b. induction Ha as [|x a Hx Ha IH]; intros [|y b] Hb;
    try constructor.
  - inversion Hb; subst. now apply lxor_is_byte.
  - inversion Hb; subst. now apply IH.
Qed.

Lemma xor_word_involutive (a b : list Z) :
  (length a <= length b)%nat -> AES.xor_word (AES.xor_word a b) b = a.
Proof.
  revert b. induction a as [|x a IH]; intros [|y b] Hl; cbn in *; try reflexivity;
    try lia.
  f_equal.
  - now rewrite Z.lxor_assoc, Z.lxor_nilpotent, Z.lxor_0_r.
  - apply IH. lia.
Qed.

Lemma add_round_key_block (st rk : list Z) :
  is_block st = true -> is_block rk = true ->
  is_block (AES.add_round_key st rk) = true.
Proof.
  rewrite !is_block_spec. intros [Hl Hb] [Hl' Hb']. unfold AES.add_round_key.
  split; [rewrite xor_word_length; lia|now apply xor_word_bytes].
Qed.

Lemma add_round_key_inj (st st' rk : list Z) :
  is_block st = true -> is_block st' = true -> is_block rk = true ->
  AES.add_round_key st rk = AES.add_round_key st' rk -> st = st'.
Proof.
  rewrite !is_block_spec. intros [Hl _] [Hl' _] [Hk _] Heq.
  unfold AES.add_round_key in Heq.
  rewrite <- (xor_word_involutive st rk), <- (xor_word_involutive st' rk) by lia.
  now rewrite Heq.
Qed.

Lemma shift_rows_block (st : list Z) :
  is_block st = true -> is_block (AES.shift_rows st) = true.
Proof.
  intros H. explode st H. apply is_block_spec. cbn.
  split; [reflexivity|]. repeat constructor; tauto.
Qed.

Lemma shift_rows_inj (st st' : list Z) :
  is_block st = true -> is_block st' = true ->
  AES.shift_rows st = AES.shift_rows st' -> st = st'.
Proof.
  intros H H'. explode st H. explode st' H'. cbn. intros Heq.
  injection Heq as -> -> -> -> -> -> -> -> -> -> -> -> -> -> -> ->. reflexivity.
Qed.

Lemma mix_column_bytes (a0 a1 a2 a3 : Z) :
  0 <= a0 < 256 -> 0 <= a1 < 256 -> 0 <= a2 < 256 -> 0 <= a3 < 256 ->
  Forall (fun x => 0 <= x < 256) (AES.mix_column [a0; a1; a2; a3]).
Proof.
  intros H0 H1 H2 H3. cbn [AES.mix_column].
  assert (G2 : forall x, 0 <= x < 256 -> 0 <= AES.gmul 2 x < 256)
    by (intros; apply gmul_is_byte; cbn; tauto).
  assert (G3 : forall x, 0 <= x < 256 -> 0 <= AES.gmul 3 x < 256)
    by (intros; apply gmul_is_byte; cbn; tauto).
  repeat constructor; repeat apply lxor_is_byte; auto.
Qed.

Lemma mix_columns_block (st : list Z) :
  is_block st = true -> is_block (AES.mix_columns st) = true.
Proof.
  intros H. explode st H. apply is_block_spec.
  unfold AES.mix_columns. cbn [AES.words_of firstn skipn map concat].
  split; [reflexivity|].
  rewrite !List.Forall_app.
  repeat split; try apply mix_column_bytes; try tauto.
Qed.

Lemma mix_columns_inj (st st' : list Z) :
  is_block st = true -> is_block st' = true ->
  AES.mix_columns st = AES.mix_columns st' -> st = st'.
Proof.
  intros H H'. explode st H. explode st' H'.
  unfold AES.mix_columns. cbn [AES.words_of firstn skipn map concat].
  intros Heq.
  assert (Hcol : forall a0 a1 a2 a3 b0 b1 b2 b3 r r',
             0 <= a0 < 256 -> 0 <= a1 < 256 -> 0 <= a2 < 256 -> 0 <= a3 < 256 ->
             0 <= b0 < 256 -> 0 <= b1 < 256 -> 0 <= b2 < 256 -> 0 <= b3 < 256 ->
             AES.mix_column [a0; a1; a2; a3] ++ r
             = AES.mix_column [b0; b1; b2; b3] ++ r' ->
             [a0; a1; a2; a3] = [b0; b1; b2; b3] /\ r = r').
  { intros a0 a1 a2 a3 b0 b1 b2 b3 r r' ? ? ? ? ? ? ? ? Hm.
    assert (Hm' : AES.mix_column [a0; a1; a2; a3] = AES.mix_column [b0; b1; b2; b3]
                  /\ r = r').
    { cbn [AES.mix_column app] in Hm. cbn [AES.mix_column].
      injection Hm as -> -> -> -> ->. now split. }
    destruct Hm' as [Hm' ->]. split; [|reflexivity].
    rewrite <- (inv_mix_column_mix_column a0 a1 a2 a3),
            <- (inv_mix_column_mix_column b0 b1 b2 b3) by assumption.
    now rewrite Hm'. }
  apply Hcol in Heq as [[= -> -> -> ->] Heq]; try tauto.
  apply Hcol in Heq as [[= -> -> -> ->] Heq]; try tauto.
  apply Hcol in Heq as [[= -> -> -> ->] Heq]; try tauto.
  apply Hcol in Heq as [[= -> -> -> ->] _]; tauto.
Qed.

(** *** The key schedule yields blocks *)

Lemma rcon_is_byte (j : nat) : 0 <= AES.rcon j < 256.
Proof.
  induction j as [|[|j] IH]; cbn [AES.rcon]; try lia.
  now apply xtime_is_byte.
Qed.

Lemma xor_word_is_word (a b : list Z) :
  is_word a -> is_word b -> is_word (AES.xor_word a b).
Proof.
  intros [La Ba] [Lb Bb]. split.
  - rewrite xor_word_length. lia.
  - now apply xor_word_bytes.
Qed.

Lemma sub_word_is_word (w : list Z) : is_word w -> is_word (AES.sub_word w).
Proof.
  intros [L B]. split; unfold AES.sub_word.
  - now rewrite length_map.
  - apply List.Forall_map. eapply List.Forall_impl; [|exact B].
    intros x Hx. now apply sbox_is_byte.
Qed.

Lemma rot_word_is_word (w : list Z) : is_word w -> is_word (AES.rot_word w).
Proof.
  intros [L B]. destruct w as [|a r]; [discriminate|]. cbn [AES.rot_word].
  inversion B; subst. split.
  - rewrite length_app. cbn in *. lia.
  - apply List.Forall_app. split; [assumption|]. now constructor.
Qed.

Lemma nth_is_word (ws : list (list Z)) (i : nat) :
  Forall is_word ws -> (i < length ws)%nat -> is_word (nth i ws []).
Proof.
  intros Hws Hi. rewrite List.Forall_forall in Hws. apply Hws, nth_In, Hi.
Qed.

Lemma expand_words (nk n i : nat) (ws : list (list Z)) :
  (1 <= nk <= length ws)%nat ->
  Forall is_word ws ->
  Forall is_word (AES.expand nk n i ws)
  /\ length (AES.expand nk n i ws) = (length ws + n)%nat.
Proof.
  unfold AES.word in *.
  revert i ws. induction n as [|n IH]; intros i ws Hnk Hws; cbn [AES.expand];
    fold AES.word; unfold AES.word in *.
  - split; [assumption|lia].
  - cbv zeta.
    assert (Hprev : is_word (nth 0 ws [])) by (apply nth_is_word; [assumption|lia]).
    assert (Hold : is_word (nth (Nat.pred nk) ws []))
      by (apply nth_is_word; [assumption|lia]).
    match goal with
    | |- context [AES.expand nk n (S i) (?w :: ws)] =>
        assert (Hw : is_word w)
    end.
    { apply xor_word_is_word; [exact Hold|].
      destruct (Nat.eqb (Nat.modulo i nk) 0).
      - apply xor_word_is_word.
        + now apply sub_word_is_word, rot_word_is_word.
        + split; [reflexivity|]. pose proof (rcon_is_byte (Nat.div i nk)).
          repeat constructor; lia.
      - destruct (_ && _); [now apply sub_word_is_word|exact Hprev]. }
    destruct (IH (S i) (_ :: ws) ltac:(cbn [length]; lia) (List.Forall_cons _ _ _ Hw Hws))
      as [HF HL].
    split; [exact HF|]. rewrite HL. cbn [length]. lia.
Qed.

Lemma words_of_words (l : list Z) (n : nat) :
  (4 * n <= length l)%nat ->
  Forall (fun x => 0 <= x < 256) l ->
  Forall is_word (AES.words_of l n) /\ length (AES.words_of l n) = n.
Proof.
  revert l. induction n as [|n IH]; intros l Hl Hb; cbn [AES.words_of].
  - split; [constructor|reflexivity].
  - destruct (IH (skipn 4 l)) as [HF HL].
    + rewrite length_skipn. lia.
    + rewrite <- (firstn_skipn 4 l) in Hb. now apply List.Forall_app in Hb.
    + split; [|cbn [length]; now rewrite HL].
      constructor; [|exact HF]. split.
      * rewrite length_firstn. lia.
      * rewrite <- (firstn_skipn 4 l) in Hb. now apply List.Forall_app in Hb.
Qed.

Lemma concat_words (ws : list (list Z)) :
  Forall is_word ws ->
  length (concat ws) = (4 * length ws)%nat
  /\ Forall (fun x => 0 <= x < 256) (concat ws).
Proof.
  induction 1 as [|w ws [Lw Bw] Hws [IHl IHb]]; cbn [concat length].
  - split; [reflexivity|constructor].
  - split; [rewrite length_app; lia|]. apply List.Forall_app. now split.
Qed.

Lemma key_expansion_blocks (key : list Z) :
  In (length key) AES.key_size ->
  Forall (fun x => 0 <= x < 256) key ->
  Forall (fun rk => is_block rk = true) (AES.key_expansion key)
  /\ AES.key_expansion key <> [].
Proof.
  intros Hlen Hb. unfold AES.key_expansion.
  set (nk := Nat.div (length key) 4).
  assert (Hnk : (nk = 4 \/ nk = 6 \/ nk = 8)%nat /\ length key = (4 * nk)%nat).
  { unfold nk. cbn [In AES.key_size] in Hlen.
    destruct Hlen as [<-|[<-|[<-|[]]]]; cbn; lia. }
  destruct Hnk as [Hnk Hkey].
  destruct (words_of_words key nk ltac:(lia) Hb) as [HWF HWL].
  set (n := (4 * (nk + 6 + 1) - nk)%nat).
  destruct (expand_words nk n nk (rev (AES.words_of key nk))) as [HF HL].
  { rewrite length_rev, HWL. lia. }
  { now apply List.Forall_rev. }
  rewrite length_rev, HWL in HL.
  set (ws := rev (AES.expand nk n nk (rev (AES.words_of key nk)))).
  assert (HwsF : Forall is_word ws) by now apply List.Forall_rev.
  assert (HwsL : length ws = (4 * (nk + 6 + 1))%nat).
  { unfold ws. rewrite length_rev, HL. unfold n. lia. }
  split.
  - apply List.Forall_map. apply List.Forall_forall. intros r Hr.
    apply in_seq in Hr. apply is_block_spec.
    assert (Hfour : Forall is_word (firstn 4 (skipn (4 * r) ws))
                    /\ length (firstn 4 (skipn (4 * r) ws)) = 4%nat).
    { split.
      - rewrite <- (firstn_skipn (4 * r) ws) in HwsF.
        apply List.Forall_app in HwsF as [_ HwsF].
        rewrite <- (firstn_skipn 4 (skipn (4 * r) ws)) in HwsF.
        now apply List.Forall_app in HwsF.
      - rewrite length_firstn, length_skipn, HwsL. apply Nat.min_l.
        destruct Hr as [_ Hr]. cbn [Nat.add] in Hr. lia. }
    destruct Hfour as [HfF HfL].
    destruct (concat_words _ HfF) as [Hcl Hcb]. split; [|exact Hcb].
    unfold AES.word in *. rewrite Hcl, HfL. reflexivity.
  - destruct Hnk as [Hk|[Hk|Hk]]; rewrite Hk; discriminate.
Qed.

(** *** The cipher is a permutation of the sixteen-byte blocks *)

Ltac blocks :=
  repeat first [ assumption | apply add_round_key_block | apply mix_columns_block
               | apply shift_rows_block | apply sub_bytes_block ].

Lemma rounds_block_inj (rks : list (list Z)) :
  Forall (fun rk => is_block rk = true) rks ->
  forall st st', is_block st = true -> is_block st' = true ->
    is_block (AES.rounds st rks) = true
    /\ (AES.rounds st rks = AES.rounds st' rks -> st = st').
Proof.
  induction 1 as [|rk rks Hrk Hrks IH]; intros st st' Hst Hst'.
  - cbn. auto.
  - destruct rks as [|rk' rks].
    + cbn [AES.rounds]. split.
      * blocks.
      * intros Heq.
        apply add_round_key_inj in Heq; [|blocks ..].
        apply shift_rows_inj in Heq; [|blocks ..].
        now apply sub_bytes_inj in Heq.
    + change (AES.rounds st (rk :: rk' :: rks))
        with (AES.rounds (AES.add_round_key
                (AES.mix_columns (AES.shift_rows (AES.sub_bytes st))) rk) (rk' :: rks)).
      change (AES.rounds st' (rk :: rk' :: rks))
        with (AES.rounds (AES.add_round_key
                (AES.mix_columns (AES.shift_rows (AES.sub_bytes st'))) rk) (rk' :: rks)).
      assert (Hn : forall s, is_block s = true ->
                 is_block (AES.add_round_key
                   (AES.mix_columns (AES.shift_rows (AES.sub_bytes s))) rk) = true).
      { intros s Hs. blocks. }
      destruct (IH _ _ (Hn st Hst) (Hn st' Hst')) as [Hb Hi].
      split; [exact Hb|]. intros Heq. apply Hi in Heq.
      apply add_round_key_inj in Heq; [|blocks ..].
      apply mix_columns_inj in Heq; [|blocks ..].
      apply shift_rows_inj in Heq; [|blocks ..].
      now apply sub_bytes_inj in Heq.
Qed.

Lemma cipher_block_inj (key b b' : list Z) :
  In (length key) AES.key_size ->
  Forall (fun x => 0 <= x < 256) key ->
  is_block b = true -> is_block b' = true ->
  is_block (AES.cipher key b) = true
  /\ (AES.cipher key b = AES.cipher key b' -> b = b').
Proof.
  intros Hlen Hkey Hb Hb'. unfold AES.cipher.
  destruct (key_expansion_blocks key Hlen Hkey) as [Hrks Hne].
  destruct (AES.key_expansion key) as [|rk0 rks]; [congruence|].
  inversion Hrks as [|? ? Hrk0 Hrks']; subst.
  destruct (rounds_block_inj rks Hrks' (AES.add_round_key b rk0)
              (AES.add_round_key b' rk0)) as [Hblk Hinj];
    try blocks.
  split; [exact Hblk|]. intros Heq. apply Hinj in Heq.
  now apply add_round_key_inj in Heq.
Qed.

Lemma bytes_as_block (b : bytes) :
  Forall (fun x => 0 <= x < 256) (map Z_of_byte b).
Proof. apply List.Forall_map, List.Forall_forall. intros x _. apply Z_of_byte_range. Qed.

Lemma Z_of_byte_inj (a b : byte) : Z_of_byte a = Z_of_byte b -> a = b.
Proof.
  intros H. rewrite <- (byte_of_Z_of_byte a), <- (byte_of_Z_of_byte b). now rewrite H.
Qed.

Lemma map_Z_of_byte_inj (a b : bytes) : map Z_of_byte a = map Z_of_byte b -> a = b.
Proof.
  revert b. induction a as [|x a IH]; intros [|y b] H; try discriminate; [reflexivity|].
  injection H as Hx H. f_equal; [now apply Z_of_byte_inj|now apply IH].
Qed.

Lemma encrypt_block_inj (k b b' : bytes) :
  In (length k) AES.key_size ->
  length b = 16%nat -> length b' = 16%nat ->
  AES.encrypt_block k b = AES.encrypt_block k b' -> b = b'.
Proof.
  intros Hk Hb Hb'. unfold AES.encrypt_block, AES.block_size.
  assert (HB : forall x : bytes, length x = 16%nat -> is_block (map Z_of_byte x) = true).
  { intros x Hx. apply is_block_spec. split; [now rewrite length_map|].
    apply bytes_as_block. }
  destruct (cipher_block_inj (map Z_of_byte k) (map Z_of_byte b) (map Z_of_byte b'))
    as [Hout Hinj]; auto using bytes_as_block.
  { now rewrite length_map. }
  destruct (cipher_block_inj (map Z_of_byte k) (map Z_of_byte b') (map Z_of_byte b))
    as [Hout' _]; auto using bytes_as_block.
  { now rewrite length_map. }
  intros Heq. apply map_Z_of_byte_inj, Hinj.
  set (o := AES.cipher (map Z_of_byte k) (map Z_of_byte b)) in *.
  set (o' := AES.cipher (map Z_of_byte k) (map Z_of_byte b')) in *.
  clearbody o o'. clear Hinj.
  explode o Hout. explode o' Hout'. cbn in Heq.
  assert (Hz : forall x y, 0 <= x < 256 -> 0 <= y < 256 ->
                           byte_of_Z x = byte_of_Z y -> x = y).
  { intros x y Hx Hy E. rewrite <- (Z_of_byte_of_Z x), <- (Z_of_byte_of_Z y) by assumption.
    now rewrite E. }
  injection Heq as E0 E1 E2 E3 E4 E5 E6 E7 E8 E9 E10 E11 E12 E13 E14 E15.
  apply Hz in E0, E1, E2, E3, E4, E5, E6, E7, E8, E9, E10, E11, E12, E13, E14, E15;
    try tauto.
  congruence.
Qed.

(** ** The MAC tells apart messages that differ in one block *)

Lemma byte_xor_comm (a b : byte) : byte_xor a b = byte_xor b a.
Proof.
  unfold byte_xor.
  destruct (Byte.to_bits a) as (a0 & a1 & a2 & a3 & a4 & a5 & a6 & a7).
  destruct (Byte.to_bits b) as (b0 & b1 & b2 & b3 & b4 & b5 & b6 & b7).
  f_equal. repeat (f_equal; [apply xorb_comm|]). apply xorb_comm.
Qed.

Lemma xor_bytes_comm (a b : bytes) : xor_bytes a b = xor_bytes b a.
Proof.
  revert b. induction a as [|x a IH]; intros [|y b]; cbn; try reflexivity.
  now rewrite byte_xor_comm, IH.
Qed.

Lemma xor_bytes_inj_l (a b k : bytes) :
  length a = length b -> (length a <= length k)%nat ->
  xor_bytes a k = xor_bytes b k -> a = b.
Proof.
  intros Hab Hak Heq.
  rewrite <- (xor_bytes_involutive a k), <- (xor_bytes_involutive b k) by lia.
  now rewrite Heq.
Qed.

Lemma xor_bytes_inj_r (a b k : bytes) :
  length a = length b -> (length a <= length k)%nat ->
  xor_bytes k a = xor_bytes k b -> a = b.
Proof. rewrite !(xor_bytes_comm k). apply xor_bytes_inj_l. Qed.

Lemma dbl_length (b : bytes) : length (CMAC.dbl b) = 16%nat.
Proof. unfold CMAC.dbl, CMAC.long_to_block. now rewrite length_map, length_seq. Qed.

Lemma pad_block_length (b : bytes) : length (CMAC.pad_block b) = 16%nat.
Proof.
  unfold CMAC.pad_block. rewrite length_firstn, length_app. cbn [length].
  rewrite repeat_length. lia.
Qed.

Lemma pad_block_inj (b b' : bytes) :
  length b = length b' -> (length b <= 16)%nat ->
  CMAC.pad_block b = CMAC.pad_block b' -> b = b'.
Proof.
  intros Hl Hle. unfold CMAC.pad_block.
  rewrite !firstn_app, <- Hl.
  rewrite (firstn_all2 (n := 16) b) by lia.
  rewrite (firstn_all2 (n := 16) b') by lia.
  apply app_inv_tail.
Qed.

Lemma absorb_app (k m1 m2 chain buf : bytes) :
  CMAC.absorb k (m1 ++ m2) chain buf
  = CMAC.absorb k m2 (fst (CMAC.absorb k m1 chain buf))
      (snd (CMAC.absorb k m1 chain buf)).
Proof.
  revert chain buf. induction m1 as [|b m1 IH]; intros chain buf; [reflexivity|].
  cbn [app CMAC.absorb]. destruct (Nat.eqb (length buf) 16); apply IH.
Qed.

Lemma absorb_fill (k m chain buf : bytes) :
  (length buf + length m <= 16)%nat ->
  CMAC.absorb k m chain buf = (chain, buf ++ m).
Proof.
  revert buf. induction m as [|b m IH]; intros buf Hl.
  - now rewrite app_nil_r.
  - cbn [CMAC.absorb length] in *.
    destruct (Nat.eqb_spec (length buf) 16) as [E|_]; [lia|].
    rewrite IH by (rewrite length_app; cbn; lia).
    now rewrite <- app_assoc.
Qed.

Lemma absorb_block (k m chain buf : bytes) :
  length buf = 16%nat -> m <> [] -> (length m <= 16)%nat ->
  CMAC.absorb k m chain buf = (AES.encrypt_block k (xor_bytes chain buf), m).
Proof.
  intros Hb Hm Hl. destruct m as [|b m]; [congruence|].
  cbn [CMAC.absorb length] in *. rewrite Hb. cbn [Nat.eqb].
  now rewrite absorb_fill by (cbn; lia).
Qed.

Lemma absorb_chain_length (k m chain buf : bytes) :
  length chain = 16%nat -> length (fst (CMAC.absorb k m chain buf)) = 16%nat.
Proof.
  revert chain buf. induction m as [|b m IH]; intros chain buf Hc; [exact Hc|].
  cbn [CMAC.absorb]. destruct (Nat.eqb (length buf) 16); apply IH;
    [apply encrypt_block_length|exact Hc].
Qed.

Lemma split_at (n : nat) (l : bytes) :
  (n <= length l)%nat ->
  exists a r, l = a ++ r /\ length a = n /\ length r = (length l - n)%nat.
Proof.
  intros H. exists (firstn n l), (skipn n l).
  rewrite firstn_skipn, length_firstn, length_skipn. split_conj; [reflexivity|lia|lia].
Qed.

(** After whole blocks, a whole block is pending. *)
Lemma absorb_aligned (k : bytes) (n : nat) :
  forall m chain buf, length buf = 16%nat -> length m = (16 * n)%nat ->
    length (snd (CMAC.absorb k m chain buf)) = 16%nat.
Proof.
  induction n as [|n IH]; intros m chain buf Hb Hm.
  - destruct m; [exact Hb|discriminate].
  - destruct (split_at 16 m) as (a & r & -> & La & Lr); [lia|].
    rewrite absorb_app, (absorb_block k a); [| exact Hb | | lia].
    + cbn [fst snd]. apply IH; lia.
    + intros ->. discriminate.
Qed.

Lemma digest_final (k msg : bytes) :
  CMAC.digest k msg = cmac_final k (CMAC.absorb k msg CMAC.zero_block []).
Proof.
  unfold CMAC.digest, cmac_final.
  now destruct (CMAC.absorb k msg CMAC.zero_block []) as [chain buf].
Qed.

Section Apart.

Variable k : bytes.
Hypothesis Hk : In (length k) AES.key_size.

Lemma encrypt_xor_l (c1 c2 b : bytes) :
  length c1 = 16%nat -> length c2 = 16%nat -> length b = 16%nat -> c1 <> c2 ->
  AES.encrypt_block k (xor_bytes c1 b) <> AES.encrypt_block k (xor_bytes c2 b).
Proof.
  intros H1 H2 Hb Hne Heq. apply Hne.
  apply encrypt_block_inj in Heq; [|exact Hk|rewrite xor_bytes_length; lia ..].
  apply xor_bytes_inj_l in Heq; [exact Heq|lia ..].
Qed.

Lemma encrypt_xor_r (c b1 b2 : bytes) :
  length c = 16%nat -> length b1 = 16%nat -> length b2 = 16%nat -> b1 <> b2 ->
  AES.encrypt_block k (xor_bytes c b1) <> AES.encrypt_block k (xor_bytes c b2).
Proof.
  intros Hc H1 H2 Hne Heq. apply Hne.
  apply encrypt_block_inj in Heq; [|exact Hk|rewrite xor_bytes_length; lia ..].
  apply xor_bytes_inj_r in Heq; [exact Heq|lia ..].
Qed.

Ltac apart_goal :=
  unfold cmac_apart; cbv beta iota delta [fst snd];
  rewrite ?encrypt_block_length, ?length_app;
  change (@length byte [?x]) with 1%nat.

(** States that are apart stay apart whatever is absorbed next. *)
Lemma absorb_apart (m : bytes) :
  forall s1 s2, cmac_apart s1 s2 ->
    cmac_apart (CMAC.absorb k m (fst s1) (snd s1)) (CMAC.absorb k m (fst s2) (snd s2)).
Proof.
  induction m as [|b m IH]; intros [c1 b1] [c2 b2] H; [exact H|].
  unfold cmac_apart in H. cbv beta iota delta [fst snd] in *.
  cbn [CMAC.absorb].
  destruct H as (L1 & L2 & Lb & Lle & [[Hc Hb]|(Hc & Hb & Hfull)]); cbn [fst snd] in *.
  - subst b2. destruct (Nat.eqb_spec (length b1) 16) as [E|NE].
    + apply (IH (_, _) (_, _)). apart_goal.
      split_conj; try reflexivity; try lia.
      left. split; [now apply encrypt_xor_l|reflexivity].
    + apply (IH (_, _) (_, _)). apart_goal.
      split_conj; try reflexivity; try lia.
      left. now split.
  - subst c2. rewrite <- Lb, Hfull. cbn [Nat.eqb].
    apply (IH (_, _) (_, _)). apart_goal.
    split_conj; try reflexivity; try lia.
    left. split; [apply encrypt_xor_r; congruence|reflexivity].
Qed.

(** The last step keeps them apart. *)
Lemma final_apart (s1 s2 : bytes * bytes) :
  cmac_apart s1 s2 -> cmac_final k s1 <> cmac_final k s2.
Proof.
  destruct s1 as [c1 b1], s2 as [c2 b2].
  intros (L1 & L2 & Lb & Lle & H). unfold cmac_final. cbn [fst snd] in *.
  rewrite <- Lb.
  set (k1 := CMAC.dbl (AES.encrypt_block k CMAC.zero_block)).
  set (k2 := CMAC.dbl k1).
  assert (Lk1 : length k1 = 16%nat) by apply dbl_length.
  assert (Lk2 : length k2 = 16%nat) by apply dbl_length.
  assert (Hx : forall x y z : bytes, length x = 16%nat -> length y = 16%nat ->
                 length z = 16%nat -> x <> y ->
                 AES.encrypt_block k (xor_bytes x z) <> AES.encrypt_block k (xor_bytes y z))
    by (intros; now apply encrypt_xor_l).
  destruct H as [[Hc Hb]|(Hc & Hb & Hfull)].
  - subst b2. destruct (Nat.eqb_spec (length b1) 16) as [E|NE].
    + apply Hx; try (rewrite xor_bytes_length; lia); try exact Lk1.
      intros Heq. apply Hc. apply xor_bytes_inj_l in Heq; [exact Heq|lia ..].
    + apply Hx; try (rewrite xor_bytes_length; rewrite ?pad_block_length; lia);
        try exact Lk2.
      intros Heq. apply Hc.
      apply xor_bytes_inj_l in Heq; [exact Heq|rewrite ?pad_block_length; lia ..].
  - subst c2. rewrite Hfull. cbn [Nat.eqb].
    apply Hx; try (rewrite xor_bytes_length; lia); try exact Lk1.
    intros Heq. apply Hb. apply xor_bytes_inj_r in Heq; [exact Heq|lia ..].
Qed.

(** A short last block that differs. *)
Lemma final_tail (c b1 b2 : bytes) :
  length c = 16%nat -> length b1 = length b2 -> (length b1 < 16)%nat -> b1 <> b2 ->
  cmac_final k (c, b1) <> cmac_final k (c, b2).
Proof.
  intros Lc Lb Llt Hne. unfold cmac_final. cbn [fst snd]. rewrite <- Lb.
  destruct (Nat.eqb_spec (length b1) 16) as [E|_]; [lia|].
  intros Heq.
  apply encrypt_block_inj in Heq;
    [|exact Hk|rewrite !xor_bytes_length; rewrite ?xor_bytes_length;
               rewrite ?pad_block_length, ?dbl_length; lia ..].
  apply xor_bytes_inj_l in Heq;
    [|rewrite !xor_bytes_length; rewrite ?pad_block_length; lia ..
     |rewrite xor_bytes_length; rewrite ?pad_block_length, ?dbl_length; lia].
  apply xor_bytes_inj_r in Heq; [|rewrite !pad_block_length; lia ..].
  apply pad_block_inj in Heq; [congruence|lia ..].
Qed.

(** The digests of two messages that differ in one block, behind at least
    one whole block. *)
Lemma digest_block_differs (n : nat) (pre blk blk' post : bytes) :
  length pre = (16 * S n)%nat ->
  length blk = length blk' -> blk <> blk' ->
  length blk = 16%nat \/ ((length blk < 16)%nat /\ post = []) ->
  CMAC.digest k (pre ++ blk ++ post) <> CMAC.digest k (pre ++ blk' ++ post).
Proof.
  intros Lpre Lb Hne Hshape. rewrite !digest_final, !absorb_app.
  (* the state behind [pre]: a whole block is pending *)
  set (s := CMAC.absorb k pre CMAC.zero_block []).
  assert (Ls : length (snd s) = 16%nat).
  { unfold s. destruct (split_at 16 pre) as (a & r & -> & La & Lr); [lia|].
    rewrite absorb_app, (absorb_fill k a) by (cbn; lia).
    cbn [fst snd app]. apply (absorb_aligned k n); lia. }
  assert (Lc : length (fst s) = 16%nat) by (apply absorb_chain_length; reflexivity).
  assert (Hblk : blk <> [] /\ blk' <> []).
  { split; intros E; subst; [destruct blk'|destruct blk]; cbn in *; congruence. }
  destruct Hblk as [Hb Hb'].
  assert (Lle : (length blk <= 16)%nat) by (destruct Hshape; lia).
  rewrite (absorb_block k blk), (absorb_block k blk') by (auto; lia).
  cbn [fst snd].
  destruct Hshape as [Hfull|[Hshort ->]].
  - apply final_apart. apply (absorb_apart post (_, _) (_, _)).
    apart_goal.
    split_conj; try reflexivity; try lia. right. now split_conj.
  - cbn [CMAC.absorb fst snd]. apply final_tail; auto using encrypt_block_length.
Qed.

(** Two strings that differ within one block, cut around it. *)
Lemma within_block_split (j : nat) (c c' : bytes) :
  within_block j c c' -> c <> c' ->
  exists pre blk blk' post,
    c = pre ++ blk ++ post /\ c' = pre ++ blk' ++ post
    /\ length pre = (16 * j)%nat /\ length blk = length blk' /\ blk <> blk'
    /\ (length blk = 16%nat \/ ((length blk < 16)%nat /\ post = [])).
Proof.
  intros (Hlen & Hpre & Hpost) Hne.
  assert (Hc : forall x : bytes,
             x = firstn (16 * j) x ++ firstn 16 (skipn (16 * j) x)
                 ++ skipn (16 * j + 16) x).
  { intros x. rewrite (Nat.add_comm (16 * j)), <- skipn_skipn.
    now rewrite !firstn_skipn. }
  assert (Hj : (16 * j < length c)%nat).
  { destruct (Nat.lt_ge_cases (16 * j) (length c)) as [H|H]; [exact H|].
    exfalso. apply Hne.
    rewrite <- (firstn_all2 (n := (16 * j)%nat) c) by lia.
    rewrite <- (firstn_all2 (n := (16 * j)%nat) c') by lia.
    exact Hpre. }
  exists (firstn (16 * j) c), (firstn 16 (skipn (16 * j) c)),
         (firstn 16 (skipn (16 * j) c')), (skipn (16 * j + 16) c).
  split_conj.
  - apply Hc.
  - rewrite Hpre, Hpost. apply Hc.
  - rewrite length_firstn. lia.
  - rewrite !length_firstn, !length_skipn. lia.
  - intros E. apply Hne. rewrite (Hc c), (Hc c'). now rewrite Hpre, Hpost, E.
  - rewrite length_firstn, length_skipn.
    destruct (Nat.le_gt_cases 16 (length c - 16 * j)) as [H|H]; [left; lia|].
    right. split; [lia|]. apply skipn_all2. lia.
Qed.

(** The tag of EAX on two ciphertexts that differ within one block. *)
Lemma mac_tag_block_differs (nonce c c' : bytes) (j : nat) :
  within_block j c c' -> c <> c' -> EAX.mac_tag k nonce c <> EAX.mac_tag k nonce c'.
Proof.
  intros Hw Hne.
  destruct (within_block_split j c c' Hw Hne)
    as (pre & blk & blk' & post & -> & -> & Lpre & Lb & Hb & Hshape).
  unfold EAX.mac_tag, EAX.tag_of. intros Heq.
  apply xor_bytes_inj_r in Heq;
    [|unfold EAX.omac; rewrite ?xor_bytes_length; rewrite ?digest_length; lia ..].
  revert Heq. unfold EAX.omac.
  rewrite !(app_assoc (repeat x00 15)), !(app_assoc _ pre).
  apply (digest_block_differs j); auto.
  rewrite !length_app, repeat_length. cbn [length]. lia.
Qed.

End Apart.

(** The entropy [decrypt] leaves: sixteen bytes further when it got as
    far as [verify], untouched when it raised before. *)
Lemma decrypt_entropy (D T N secret : string) (g : rng) :
  snd (decrypt D T N secret g)
  = match fst (decrypt D T N secret g) with
    | Ret _ => after_verify g
    | Raise _ => g
    end.
Proof.
  pose proof (decrypt_cases D T N secret g) as Hc. cbv zeta in Hc. rewrite Hc.
  destruct (Base64.b64decode N) as [n|e]; [|reflexivity].
  destruct (EAX.new_with_nonce _ n) as [c|e]; [|reflexivity].
  destruct (Base64.b64decode D) as [d|e]; [|reflexivity].
  destruct (Base64.b64decode T) as [t|e]; [|reflexivity].
  now destruct (EAX.bytes_eqb _ t).
Qed.

(** The five parts of the taxonomy of [decrypt]; the last is closed by
    computation. *)
Ltac taxonomy_split :=
  refine (conj _ (conj _ (conj _ (conj _ _))));
  [ split | intros ?p; split | intros ?e; split | intros ?e | reflexivity ].

Lemma accepted_key_size (secret : string) :
  accepted_key_length secret = true ->
  In (length (encode_utf8 secret)) AES.key_size.
Proof.
  unfold accepted_key_length. intros H.
  apply existsb_exists in H as (n & Hin & Hn).
  apply Nat.eqb_eq in Hn. now rewrite Hn.
Qed.

(** One changed byte leaves two strings that differ within one block. *)
Lemma single_byte_within_block (pre post : bytes) (b b' : byte) :
  b <> b' ->
  within_block (length pre / 16) (pre ++ b :: post) (pre ++ b' :: post)
  /\ pre ++ b' :: post <> pre ++ b :: post.
Proof.
  intros Hne.
  pose proof (Nat.div_mod_eq (length pre) 16) as Hdm.
  pose proof (Nat.mod_upper_bound (length pre) 16 ltac:(discriminate)) as Hub.
  set (j := (length pre / 16)%nat) in *. set (r := (length pre mod 16)%nat) in *.
  clearbody j r. split.
  - unfold within_block. rewrite !length_app. cbn [length].
    split; [reflexivity|]. split.
    + rewrite !firstn_app.
      replace (16 * j - length pre)%nat with 0%nat by lia.
      reflexivity.
    + rewrite !skipn_app.
      destruct (16 * j + 16 - length pre)%nat as [|m] eqn:E; [lia|].
      reflexivity.
  - intros E. apply app_inv_head in E. congruence.
Qed.


(** * The specification, sentence by sentence *)

(** C1, as the specification words it, fails.  The mapping [{1: 'x'}]
    is JSON-serializable, and [json.dumps] writes it as it writes
    [{'1': 'x'}], the key as text: [write] stores it, and what [read]
    then returns is [{'1': 'x'}], which is not the original. *)
Lemma read_after_write_int_key :
  let v := PyDict [(PyInt 1, PyStr "x")] in
  let secret := "0123456789abcdef" in
  let w1 := snd (write sessions "user42" v secret no_tables) in
  json_dumps v = json_dumps (PyDict [(PyStr "1", PyStr "x")])
  /\ fst (write sessions "user42" v secret no_tables) = Ret tt
  /\ fst (read sessions "user42" secret w1)
     = Ret (Some (PyDict [(PyStr "1", PyStr "x")]))
  /\ PyDict [(PyStr "1", PyStr "x")] <> v.
Proof.
  cbv zeta. split_conj; [vm_compute; reflexivity ..|discriminate].
Qed.

(** C1 (round trip), amended.  For every key, every value that
    [json.dumps] serialises, and every secret of accepted key length: on
    a service where the table exists or may be created, [write] succeeds,
    and [read] with the same key and secret in the world [write] left
    returns what [json.loads] makes of the text [json.dumps] made of the
    value.  That is the value itself exactly when json reads its own text
    back as the value, which holds for mappings with text keys and fails
    for keys that are numbers, for tuples and the like.  [read] leaves
    the rows as they are and draws sixteen bytes of entropy, those of
    [verify]. *)
Theorem read_after_write {value : Type} `{Json value}
        (self : StorageAccount) (key secret : string) (v v' : value)
        (w : world tables) (s : string) :
  json_dumps v = Ret s ->
  json_loads (encode_utf8 s) = Ret v' ->
  accepted_key_length secret = true ->
  is_Some (service w !! table_name self) \/ create_table_if_not_exists self = true ->
  exists w1,
    write self key v secret w = (Ret tt, w1)
    /\ read self key secret w1
       = (Ret (Some v'), mk_world (after_verify (entropy w1)) (service w1))
    /\ (fst (read self key secret w1) = Ret (Some v) <-> v' = v).
Proof.
  intros Hd Hl Hk Ht.
  destruct (write_mem_succeeds self key _ _ _ _ Hd Hk Ht) as [w1 Hw].
  exists w1. split; [exact Hw|].
  destruct (write_mem_row _ _ _ _ _ _ _ Hd Hk Hw) as (_ & old & Hrow).
  assert (Hr : read self key secret w1
               = (Ret (Some v'), mk_world (after_verify (entropy w1)) (service w1))).
  { rewrite read_mem, Hrow, (open_sealed _ _ _ _ _ _ _ Hk), Hl. reflexivity. }
  split; [exact Hr|]. rewrite Hr. cbn [fst]. split; [now intros [= ->]|now intros ->].
Qed.

Lemma read_after_write_ada :
  exists w1,
    write sessions "user42" ada "0123456789abcdef" no_tables = (Ret tt, w1)
    /\ read sessions "user42" "0123456789abcdef" w1
       = (Ret (Some ada), mk_world (after_verify (entropy w1)) (service w1))
    /\ (fst (read sessions "user42" "0123456789abcdef" w1) = Ret (Some ada)
        <-> ada = ada).
Proof.
  eapply read_after_write.
  - vm_compute. reflexivity.
  - vm_compute. reflexivity.
  - vm_compute. reflexivity.
  - right. reflexivity.
Defined.


(** C2, as the specification words it, fails, and the first failure is
    the code against its own contract.  [decrypt] promises None if the
    data could not be decoded, and decodes outside its [try]: a stored
    [Tag] or [Data] with one character replaced by one outside the base64
    alphabet makes [read] raise [binascii.Error].  Besides, a [Tag] whose
    last character is replaced by one that differs only in the bits
    base64 ignores makes [read] return the written value, not absent. *)
Lemma tampered_read_not_absent :
  let secret := "0123456789abcdef" in
  let w1 := snd (write sessions "user42" ada secret no_tables) in
  let tag_bang := in_service (set_char "Tag" 0 "!" "sessions" "app" "user42") w1 in
  let data_bang := in_service (set_char "Data" 3 "!" "sessions" "app" "user42") w1 in
  let tag_bits := in_service (set_char "Tag" 21 "B" "sessions" "app" "user42") w1 in
  stored sessions "user42" "Tag" w1 = Some "IIheCPQVQgQhBhe4ukXhxA=="
  /\ stored sessions "user42" "Tag" tag_bang = Some "!IheCPQVQgQhBhe4ukXhxA=="
  /\ stored sessions "user42" "Tag" tag_bits = Some "IIheCPQVQgQhBhe4ukXhxB=="
  /\ fst (read sessions "user42" secret w1) = Ret (Some ada)
  /\ fst (read (value := pyvalue) sessions "user42" secret tag_bang)
     = Raise (BinasciiError
         "Invalid base64-encoded string: number of data characters (21) cannot be 1 more than a multiple of 4")
  /\ fst (read (value := pyvalue) sessions "user42" secret data_bang)
     = Raise (BinasciiError "Incorrect padding")
  /\ fst (read sessions "user42" secret tag_bits) = Ret (Some ada).
Proof.
  cbv zeta. split_conj; vm_compute; reflexivity.
Qed.

(** C2 (tamper detection), what the code guarantees.  After
    [write key value secret], let the stored [Tag] or the stored [Data]
    be replaced by any text [X], a single changed character included.
    If base64 rejects [X], [read] raises the decoder's exception, with
    nothing drawn and nothing changed.  If [X] decodes and replaced the
    [Tag]: [read] returns absent when the decoded bytes are not the
    written tag and what the untampered row reads as when they are; it
    returns nothing else.  If [X] decodes and replaced the [Data]: [read]
    returns absent whenever the decoded bytes have the length of the
    written ciphertext and differ from it within one block of sixteen
    bytes, as they do when a single byte was changed; and it returns
    what the untampered row reads as when they are the written
    ciphertext.  The absence in the [Data] case rests on the cipher
    being a permutation of the blocks and on the chaining of the MAC, not
    on any assumption about the tag. *)
Theorem read_after_tampering {value : Type} `{Json value}
        (self : StorageAccount) (key secret : string) (v v' : value)
        (w w1 : world tables) (s X : string) :
  json_dumps v = Ret s ->
  json_loads (encode_utf8 s) = Ret v' ->
  accepted_key_length secret = true ->
  write self key v secret w = (Ret tt, w1) ->
  let k := encode_utf8 secret in
  let n := next_nonce (entropy w) in
  let c := EAX.ctr k n (encode_utf8 s) in
  let t := EAX.mac_tag k n c in
  let at_row f := in_service (f (table_name self) (partition_key self) key) w1 in
  let wT := at_row (set_field "Tag" X) in
  let wD := at_row (set_field "Data" X) in
  let verified (u : world tables) := mk_world (after_verify (entropy u)) (service u) in
  match Base64.b64decode X with
  | Raise e =>
      MalformedInputError e
      /\ read self key secret wT = (Raise e, wT)
      /\ read self key secret wD = (Raise e, wD)
  | Ret x =>
      read self key secret wT
      = (if EAX.bytes_eqb t x then Ret (Some v') else Ret None, verified wT)
      /\ (x = c -> read self key secret wD = (Ret (Some v'), verified wD))
      /\ (forall j, within_block j c x -> x <> c ->
          read self key secret wD = (Ret None, verified wD))
      /\ (forall pre post b b', c = pre ++ b :: post -> x = pre ++ b' :: post ->
          b <> b' -> read self key secret wD = (Ret None, verified wD))
  end.
Proof.
  intros Hd Hl Hk Hw. cbv zeta.
  destruct (write_mem_row _ _ _ _ _ _ _ Hd Hk Hw) as (_ & old & Hrow).
  destruct (sealed_fields self key s secret (entropy w) old) as (HD & HT & HN).
  pose proof (next_nonce_nonempty (entropy w)) as Hn.
  set (e := sealed_entity self key s secret (entropy w) ∪ old) in *.
  assert (HrT : row (service (in_service
                  (set_field "Tag" X (table_name self) (partition_key self) key) w1))
                  (table_name self) (partition_key self) key
                = Some (<["Tag" := X]> e)).
  { rewrite service_in_service, row_set_field, Hrow. reflexivity. }
  assert (HrD : row (service (in_service
                  (set_field "Data" X (table_name self) (partition_key self) key) w1))
                  (table_name self) (partition_key self) key
                = Some (<["Data" := X]> e)).
  { rewrite service_in_service, row_set_field, Hrow. reflexivity. }
  assert (HTT : <["Tag" := X]> e !! "Tag" = Some X) by apply lookup_insert_eq.
  assert (HTD : <["Tag" := X]> e !! "Data" = e !! "Data")
    by now apply lookup_insert_ne.
  assert (HTN : <["Tag" := X]> e !! "Nonce" = e !! "Nonce")
    by now apply lookup_insert_ne.
  assert (HDD : <["Data" := X]> e !! "Data" = Some X) by apply lookup_insert_eq.
  assert (HDT : <["Data" := X]> e !! "Tag" = e !! "Tag")
    by now apply lookup_insert_ne.
  assert (HDN : <["Data" := X]> e !! "Nonce" = e !! "Nonce")
    by now apply lookup_insert_ne.
  rewrite HD in HTD. rewrite HN in HTN, HDN. rewrite HT in HDT.
  pose proof (read_mem_decoded self key secret _ _ _ _ _ HrT HTD HTT HTN Hn Hk) as RT.
  pose proof (read_mem_decoded self key secret _ _ _ _ _ HrD HDD HDT HDN Hn Hk) as RD.
  cbv zeta in RT, RD. rewrite !b64decode_b64encode in RT, RD.
  destruct (Base64.b64decode X) as [x|x] eqn:HX.
  - assert (Hblock : forall j,
               within_block j (EAX.ctr (encode_utf8 secret) (next_nonce (entropy w))
                                 (encode_utf8 s)) x ->
               x <> EAX.ctr (encode_utf8 secret) (next_nonce (entropy w))
                      (encode_utf8 s) ->
               read self key secret
                 (in_service (set_field "Data" X (table_name self)
                                (partition_key self) key) w1)
               = (Ret None,
                  mk_world (after_verify (entropy (in_service
                     (set_field "Data" X (table_name self) (partition_key self) key)
                     w1)))
                    (service (in_service
                     (set_field "Data" X (table_name self) (partition_key self) key)
                     w1)))).
    { intros j Hj Hne. rewrite RD.
      rewrite bytes_eqb_neq; [reflexivity|].
      intros Heq. symmetry in Heq. revert Heq.
      apply (mac_tag_block_differs _ (accepted_key_size _ Hk) _ _ _ j Hj).
      congruence. }
    split_conj.
    + rewrite RT. destruct (EAX.bytes_eqb _ x); [|reflexivity].
      now rewrite ctr_involutive, Hl.
    + intros ->. rewrite RD. now rewrite bytes_eqb_refl, ctr_involutive, Hl.
    + exact Hblock.
    + intros pre post b b' Hc Hx Hb.
      destruct (single_byte_within_block pre post b b' Hb) as [Hj Hne].
      rewrite <- Hc, <- Hx in Hj, Hne. exact (Hblock _ Hj Hne).
  - split; [exact (b64decode_raises _ _ HX)|]. split; assumption.
Qed.

Lemma read_after_tampering_ada :
  let secret := "0123456789abcdef" in
  let w1 := snd (write sessions "user42" ada secret no_tables) in
  let wT := in_service (set_field "Tag" "IIheCPQVQgQhBhe4ukXhxQ==" "sessions" "app" "user42") w1 in
  let wD := in_service
              (set_field "Data" "JAekxS1pOylFoU3xX6/VzNaD/785TORvvA6x"
                         "sessions" "app" "user42") w1 in
  stored sessions "user42" "Data" w1 = Some "JAejxS1pOylFoU3xX6/VzNaD/785TORvvA6x"
  /\ fst (read (value := pyvalue) sessions "user42" secret wT) = Ret None
  /\ fst (read (value := pyvalue) sessions "user42" secret wD) = Ret None.
Proof.
  cbv zeta. split; [vm_compute; reflexivity|]. split.
  - pose proof (@read_after_tampering pyvalue py_json sessions "user42"
                  "0123456789abcdef" ada ada no_tables
                  (snd (write sessions "user42" ada "0123456789abcdef" no_tables))
                  _ "IIheCPQVQgQhBhe4ukXhxQ=="
                  ltac:(vm_compute; reflexivity) ltac:(vm_compute; reflexivity)
                  ltac:(vm_compute; reflexivity)
                  ltac:(apply pair_fst_snd; vm_compute; reflexivity)) as P.
    cbv zeta in P.
    destruct (Base64.b64decode "IIheCPQVQgQhBhe4ukXhxQ==") as [x|x] eqn:HX;
      [|vm_compute in HX; discriminate HX].
    destruct P as (P & _). refine (eq_trans (f_equal fst P) _). cbn [fst].
    vm_compute in HX. injection HX as <-. vm_compute. reflexivity.
  - pose proof (@read_after_tampering pyvalue py_json sessions "user42"
                  "0123456789abcdef" ada ada no_tables
                  (snd (write sessions "user42" ada "0123456789abcdef" no_tables))
                  _ "JAekxS1pOylFoU3xX6/VzNaD/785TORvvA6x"
                  ltac:(vm_compute; reflexivity) ltac:(vm_compute; reflexivity)
                  ltac:(vm_compute; reflexivity)
                  ltac:(apply pair_fst_snd; vm_compute; reflexivity)) as P.
    cbv zeta in P.
    destruct (Base64.b64decode "JAekxS1pOylFoU3xX6/VzNaD/785TORvvA6x") as [x|x] eqn:HX;
      [|vm_compute in HX; discriminate HX].
    destruct P as (_ & _ & P & _). vm_compute in HX. injection HX as <-.
    refine (f_equal fst (P 0%nat _ _)).
    + vm_compute. split_conj; reflexivity.
    + vm_compute. discriminate.
Defined.


(** C5 (idempotent delete).  [delete key] where no row is stored under
    the key, be it that the table is missing too, returns normally and
    leaves the world as it was; and for every key and every world,
    [delete key] twice in a row returns what one [delete key] returns and
    leaves the world that one leaves. *)
Theorem delete_idempotent (self : StorageAccount) (key : string) (w : world tables) :
  (row (service w) (table_name self) (partition_key self) key = None ->
   delete self key w = (Ret tt, w))
  /\ bind (delete self key) (fun _ => delete self key) w = delete self key w.
Proof.
  split.
  - intros Hrow. rewrite delete_mem, Hrow.
    now destruct (service w !! table_name self).
  - unfold bind. rewrite delete_mem.
    destruct (service w !! table_name self) as [rs|] eqn:Hrs.
    + destruct (row (service w) _ _ _) eqn:Hrow.
      * rewrite delete_mem. cbn [entropy service].
        now rewrite row_delete, lookup_insert_eq.
      * rewrite delete_mem, Hrs, Hrow. reflexivity.
    + rewrite delete_mem, Hrs. reflexivity.
Qed.

Lemma delete_idempotent_no_tables :
  let w1 := snd (write sessions "user42" ada "0123456789abcdef" no_tables) in
  delete sessions "user42" no_tables = (Ret tt, no_tables)
  /\ bind (delete sessions "user42") (fun _ => delete sessions "user42") w1
     = delete sessions "user42" w1.
Proof.
  split.
  - exact (proj1 (delete_idempotent sessions "user42" no_tables) eq_refl).
  - exact (proj2 (delete_idempotent sessions "user42" _)).
Defined.

(** C8 (invalid key rejection).  For every secret whose UTF-8 bytes do
    not number 16, 24 or 32, [encrypt] raises PyCryptodome's
    [ValueError("Incorrect AES key length (n bytes)")], the
    specification's InvalidKeyError, with [n] the length of the secret
    as it is: nothing is truncated or padded, and no result is
    returned. *)
Theorem encrypt_rejects_key (data secret : string) (g : rng) :
  accepted_key_length secret = false ->
  fst (encrypt data secret g)
  = Raise (ValueError (EAX.incorrect_key_length (length (encode_utf8 secret))))
  /\ InvalidKeyError
       (ValueError (EAX.incorrect_key_length (length (encode_utf8 secret)))).
Proof.
  intros Hk. rewrite (encrypt_bad_key _ _ _ Hk). split; [reflexivity|].
  unfold InvalidKeyError. eauto.
Qed.

Lemma encrypt_rejects_short_key :
  fst (encrypt "hello" "too short" pool)
  = Raise (ValueError (EAX.incorrect_key_length 9))
  /\ InvalidKeyError (ValueError (EAX.incorrect_key_length 9)).
Proof.
  apply (encrypt_rejects_key "hello" "too short" pool). vm_compute. reflexivity.
Defined.

(** C4 (missing-table write policy).  Let the first upsert of [write]
    fail because the table does not exist.  With
    [create_table_if_not_exists] false, [write] raises that
    [AzureMissingResourceHttpError] (a StorageUnavailableError) and the
    backend has seen the one upsert.  With the flag true, the backend
    sees the creation of the table; if the creation is accepted, it then
    sees the same upsert once more and nothing after it: [write] returns
    if that upsert is accepted and raises what it raised if it fails,
    be it for the missing table again.  In no case does the backend see
    more than two upserts. *)
Theorem write_missing_table_policy {value : Type} `{Json value}
        (self : StorageAccount) (key secret : string) (v : value)
        (w : world script) (s : string) (rest : list reply) :
  json_dumps v = Ret s ->
  accepted_key_length secret = true ->
  replies (service w) = Fails AzureMissingResourceHttpError :: rest ->
  let g := after_nonce (entropy w) in
  let tn := table_name self in
  let log := requests (service w) in
  let upsert := InsertOrMergeEntity tn (sealed_entity self key s secret (entropy w)) in
  StorageUnavailableError AzureMissingResourceHttpError
  /\ (create_table_if_not_exists self = false ->
      write self key v secret w
      = (Raise AzureMissingResourceHttpError,
         mk_world g (mk_script rest (upsert :: log))))
  /\ (create_table_if_not_exists self = true ->
      forall x, nth 0 rest Done = Fails x ->
      write self key v secret w
      = (Raise x, mk_world g (mk_script (tl rest) (CreateTable tn :: upsert :: log))))
  /\ (create_table_if_not_exists self = true ->
      (forall x, nth 0 rest Done <> Fails x) ->
      write self key v secret w
      = (match nth 1 rest Done with
         | Fails x => Raise x
         | _ => Ret tt
         end,
         mk_world g (mk_script (tl (tl rest))
                               (upsert :: CreateTable tn :: upsert :: log))))
  /\ (upserts (requests (service (snd (write self key v secret w))))
      <= upserts log + 2)%nat.
Proof.
  intros Hd Hk Hr. cbv zeta.
  rewrite (write_unfold _ _ _ _ _ _ Hd Hk). cbv zeta.
  cbn [insert_or_merge_entity create_table scripted].
  rewrite !answer_nth, Hr. cbn [nth tl replies requests].
  cbn [isinstance_AzureMissingResourceHttpError].
  split; [now left|].
  destruct (create_table_if_not_exists self).
  - rewrite ?answer_nth. cbn [nth tl replies requests].
    assert (Hn1 : nth 0 (tl rest) Done = nth 1 rest Done) by now destruct rest.
    rewrite Hn1. clear Hn1.
    split; [discriminate|].
    assert (Hcount : forall (r : result unit) (sc : list reply),
               (upserts (requests (service (snd
                  (r, mk_world (after_nonce (entropy w))
                        (mk_script sc
                           (InsertOrMergeEntity (table_name self)
                              (sealed_entity self key s secret (entropy w))
                            :: CreateTable (table_name self)
                            :: InsertOrMergeEntity (table_name self)
                                 (sealed_entity self key s secret (entropy w))
                            :: requests (service w)))))))
                <= upserts (requests (service w)) + 2)%nat).
    { intros r sc. cbn [snd service requests]. rewrite !upserts_cons.
      cbn [is_upsert]. lia. }
    destruct (nth 0 rest Done) as [|e1|x1].
    + split; [intros _ x [=]|]. split; [reflexivity|]. apply Hcount.
    + split; [intros _ x [=]|]. split; [reflexivity|]. apply Hcount.
    + split; [now intros _ x [= <-]|]. split.
      * intros _ Hno. now destruct (Hno x1).
      * cbn [snd service requests]. rewrite !upserts_cons. cbn [is_upsert]. lia.
  - split; [reflexivity|]. split; [discriminate|]. split; [discriminate|].
    cbn [snd service requests]. rewrite !upserts_cons. cbn [is_upsert]. lia.
Qed.

Lemma write_missing_table_lost :
  fst (write sessions "user42" ada "0123456789abcdef" lost_table)
  = Raise AzureMissingResourceHttpError
  /\ (upserts (requests (service
        (snd (write sessions "user42" ada "0123456789abcdef" lost_table))))
      <= 0 + 2)%nat.
Proof.
  edestruct (write_missing_table_policy sessions "user42" "0123456789abcdef"
               ada lost_table) as (_ & _ & _ & Hretry & Hcount).
  - vm_compute. reflexivity.
  - vm_compute. reflexivity.
  - reflexivity.
  - split.
    + rewrite Hretry; [reflexivity | reflexivity | intros x; discriminate].
    + exact Hcount.
Defined.

(** C6 (nonce freshness).  The nonce [write] stores is the base64 text
    of sixteen bytes that the codec draws from the random source during
    that call; the caller supplies none.  So two successive [write] calls
    with the same key, value and secret, for which the source yields two
    different draws, store different [Nonce] values. *)
Theorem successive_writes_fresh_nonce {value : Type} `{Json value}
        (self : StorageAccount) (key secret : string) (v : value)
        (w w1 w2 : world tables) (s : string) :
  json_dumps v = Ret s ->
  accepted_key_length secret = true ->
  write self key v secret w = (Ret tt, w1) ->
  write self key v secret w1 = (Ret tt, w2) ->
  next_nonce (entropy w) <> next_nonce (after_nonce (entropy w)) ->
  exists e1 e2 N1 N2,
    row (service w1) (table_name self) (partition_key self) key = Some e1
    /\ row (service w2) (table_name self) (partition_key self) key = Some e2
    /\ e1 !! "Nonce" = Some N1
    /\ e2 !! "Nonce" = Some N2
    /\ N1 = Base64.b64encode (next_nonce (entropy w))
    /\ N2 = Base64.b64encode (next_nonce (entropy w1))
    /\ N1 <> N2.
Proof.
  intros Hd Hk Hw1 Hw2 Hdraw.
  destruct (write_mem_row _ _ _ _ _ _ _ Hd Hk Hw1) as (Hg1 & old1 & Hrow1).
  destruct (write_mem_row _ _ _ _ _ _ _ Hd Hk Hw2) as (_ & old2 & Hrow2).
  destruct (sealed_fields self key s secret (entropy w) old1) as (_ & _ & HN1).
  destruct (sealed_fields self key s secret (entropy w1) old2) as (_ & _ & HN2).
  do 4 eexists. repeat split; try eassumption.
  rewrite Hg1. intros Heq. apply b64encode_inj in Heq. contradiction.
Qed.

Lemma successive_writes_fresh_nonce_ada :
  let w1 := snd (write sessions "user42" ada "0123456789abcdef" no_tables) in
  let w2 := snd (write sessions "user42" ada "0123456789abcdef" w1) in
  exists e1 e2 N1 N2,
    row (service w1) "sessions" "app" "user42" = Some e1
    /\ row (service w2) "sessions" "app" "user42" = Some e2
    /\ e1 !! "Nonce" = Some N1
    /\ e2 !! "Nonce" = Some N2
    /\ N1 = Base64.b64encode (next_nonce (entropy no_tables))
    /\ N2 = Base64.b64encode (next_nonce (entropy w1))
    /\ N1 <> N2.
Proof.
  eapply (successive_writes_fresh_nonce sessions "user42" "0123456789abcdef"
            ada no_tables).
  - vm_compute. reflexivity.
  - vm_compute. reflexivity.
  - apply pair_fst_snd. vm_compute. reflexivity.
  - apply pair_fst_snd. vm_compute. reflexivity.
  - vm_compute. discriminate.
Defined.



(** C7 (decrypt error taxonomy).  For every input, [decrypt] returns
    absent exactly when the three texts decode, the cipher is built and
    the tag over the decoded data is not the decoded tag; it returns a
    plaintext exactly when that tag is the decoded tag; and it raises
    exactly when an input is structurally invalid, before any tag is
    looked at: a text that base64 rejects (the decoder's
    [binascii.Error] or [ValueError]), an empty nonce, or a secret that
    is no key.  What it raises is a [ValueError], the specification's
    MalformedInputError; the failed verification is the only
    [ValueError] it catches.  It draws the sixteen bytes of [verify]
    from the entropy exactly when it returns, and none when it raises. *)
Theorem decrypt_taxonomy (D T N secret : string) (g : rng) :
  let k := encode_utf8 secret in
  (fst (decrypt D T N secret g) = Ret None <->
   exists n d t,
     Base64.b64decode N = Ret n /\ n <> []
     /\ accepted_key_length secret = true
     /\ Base64.b64decode D = Ret d /\ Base64.b64decode T = Ret t
     /\ EAX.mac_tag k n d <> t)
  /\ (forall p,
        fst (decrypt D T N secret g) = Ret (Some p) <->
        exists n d,
          Base64.b64decode N = Ret n /\ n <> []
          /\ accepted_key_length secret = true
          /\ Base64.b64decode D = Ret d
          /\ Base64.b64decode T = Ret (EAX.mac_tag k n d)
          /\ p = EAX.ctr k n d)
  /\ (forall e,
        fst (decrypt D T N secret g) = Raise e <->
        Base64.b64decode N = Raise e
        \/ (Base64.b64decode N = Ret []
            /\ e = ValueError "Nonce cannot be empty in EAX mode")
        \/ (exists n,
              Base64.b64decode N = Ret n /\ n <> []
              /\ accepted_key_length secret = false
              /\ e = ValueError (EAX.incorrect_key_length (length k)))
        \/ (exists n,
              Base64.b64decode N = Ret n /\ n <> []
              /\ accepted_key_length secret = true
              /\ Base64.b64decode D = Raise e)
        \/ (exists n d,
              Base64.b64decode N = Ret n /\ n <> []
              /\ accepted_key_length secret = true
              /\ Base64.b64decode D = Ret d
              /\ Base64.b64decode T = Raise e))
  /\ (forall e, fst (decrypt D T N secret g) = Raise e -> MalformedInputError e)
  /\ snd (decrypt D T N secret g)
     = match fst (decrypt D T N secret g) with
       | Ret _ => after_verify g
       | Raise _ => g
       end.
Proof.
  cbv zeta. pose proof (decrypt_cases D T N secret g) as Hc. cbv zeta in Hc.
  unfold accepted_key_length.
  destruct (Base64.b64decode N) as [n|e0] eqn:HN.
  2:{ rewrite Hc. cbn [fst snd]. taxonomy_split.
      - discriminate.
      - intros (n & d & t & [=] & _).
      - discriminate.
      - intros (n & d & [=] & _).
      - intros [= <-]. now left.
      - intros [[= ->]|[([=] & _)|[(n & [=] & _)|[(n & [=] & _)|(n & d & [=] & _)]]]].
        reflexivity.
      - intros [= <-]. exact (b64decode_raises _ _ HN). }
  destruct (EAX.new_with_nonce _ n) as [c|e1] eqn:Hn.
  2:{ rewrite Hc. cbn [fst snd]. apply new_with_nonce_raises in Hn.
      taxonomy_split.
      - discriminate.
      - intros (n' & d & t & [= <-] & Hne & Hk & _).
        destruct Hn as [[-> _]|(_ & Hk' & _)]; congruence.
      - discriminate.
      - intros (n' & d & [= <-] & Hne & Hk & _).
        destruct Hn as [[-> _]|(_ & Hk' & _)]; congruence.
      - intros [= <-]. destruct Hn as [[-> ->]|(Hne & Hk & ->)].
        + right. left. now split.
        + right. right. left. exists n. now repeat split.
      - intros [[=]|[([= ->] & ->)|[(n' & [= <-] & Hne & Hk & ->)|
                 [(n' & [= <-] & Hne & Hk & _)|(n' & d & [= <-] & Hne & Hk & _)]]]].
        + destruct Hn as [[_ ->]|(Hne & _)]; [reflexivity|contradiction].
        + destruct Hn as [[-> _]|(_ & _ & ->)]; [contradiction|reflexivity].
        + destruct Hn as [[-> _]|(_ & Hk' & _)]; congruence.
        + destruct Hn as [[-> _]|(_ & Hk' & _)]; congruence.
      - intros [= <-]. destruct Hn as [[_ ->]|(_ & _ & ->)];
          right; eauto. }
  apply new_with_nonce_inv in Hn as (_ & Hne & Hk).
  destruct (Base64.b64decode D) as [d|e2] eqn:HD.
  2:{ rewrite Hc. cbn [fst snd]. taxonomy_split.
      - discriminate.
      - intros (n' & d & t & _ & _ & _ & [=] & _).
      - discriminate.
      - intros (n' & d & _ & _ & _ & [=] & _).
      - intros [= <-]. right. right. right. left. exists n. now repeat split.
      - intros [[=]|[([= ->] & _)|[(n' & _ & _ & Hk' & _)|
                 [(n' & _ & _ & _ & [= ->])|(n' & d & _ & _ & _ & [=] & _)]]]];
          try reflexivity; try contradiction; congruence.
      - intros [= <-]. exact (b64decode_raises _ _ HD). }
  destruct (Base64.b64decode T) as [t|e3] eqn:HT.
  2:{ rewrite Hc. cbn [fst snd]. taxonomy_split.
      - discriminate.
      - intros (n' & d' & t & _ & _ & _ & _ & [=] & _).
      - discriminate.
      - intros (n' & d' & _ & _ & _ & _ & [=] & _).
      - intros [= <-]. right. right. right. right. exists n, d. now repeat split.
      - intros [[=]|[([= ->] & _)|[(n' & _ & _ & Hk' & _)|
                 [(n' & _ & _ & _ & [=])|(n' & d' & _ & _ & _ & _ & [= ->])]]]];
          try reflexivity; try contradiction; congruence.
      - intros [= <-]. exact (b64decode_raises _ _ HT). }
  rewrite Hc.
  destruct (EAX.bytes_eqb _ t) eqn:Ht; cbn [fst snd].
  - apply bytes_eqb_eq in Ht. taxonomy_split.
    + discriminate.
    + intros (n' & d' & t' & [= <-] & _ & _ & [= <-] & [= <-] & Hmac).
      contradiction.
    + intros [= <-]. exists n, d. subst t. now repeat split.
    + intros (n' & d' & [= <-] & _ & _ & [= <-] & _ & ->). reflexivity.
    + discriminate.
    + intros [[=]|[([= ->] & _)|[(n' & _ & _ & Hk' & _)|
               [(n' & _ & _ & _ & [=])|(n' & d' & _ & _ & _ & _ & [=])]]]];
        try contradiction; congruence.
    + discriminate.
  - assert (Hmac : EAX.mac_tag (encode_utf8 secret) n d <> t).
    { intros Heq. apply bytes_eqb_eq in Heq. congruence. }
    taxonomy_split.
    + intros _. exists n, d, t. now repeat split.
    + reflexivity.
    + discriminate.
    + intros (n' & d' & [= <-] & _ & _ & [= <-] & [= Heq] & _). congruence.
    + discriminate.
    + intros [[=]|[([= ->] & _)|[(n' & _ & _ & Hk' & _)|
               [(n' & _ & _ & _ & [=])|(n' & d' & _ & _ & _ & _ & [=])]]]];
        try contradiction; congruence.
    + discriminate.
Qed.



(** C9 (corrupt record).  If [read] fetches a record whose three fields
    decrypt and authenticate, and [json.loads] then fails on the
    plaintext with a [JSONDecodeError] or a [UnicodeDecodeError] (the
    specification's CorruptRecordError), [read] raises that exception:
    it returns neither absent nor a value.  The service is as the lookup
    left it, and the entropy is past the sixteen bytes [verify] drew. *)
Theorem read_corrupt_record {value : Type} `{Json value} {S : Type} `{TableService S}
        (self : StorageAccount) (key secret : string) (w : world S)
        (data : entity) (s' : S) (D T N : string) (p : bytes) (e : exn) :
  get_entity (table_name self) (partition_key self) key (service w) = (Ret data, s') ->
  data !! "Data" = Some D ->
  data !! "Tag" = Some T ->
  data !! "Nonce" = Some N ->
  fst (decrypt D T N secret (entropy w)) = Ret (Some p) ->
  json_loads p = Raise e ->
  CorruptRecordError e ->
  read self key secret w = (Raise e, mk_world (after_verify (entropy w)) s').
Proof.
  intros Hget HD HT HN Hdec Hload Herr.
  rewrite read_open, Hget, (open_entity_fields _ _ _ _ _ _ HD HT HN).
  pose proof (decrypt_entropy D T N secret (entropy w)) as Hg.
  destruct (decrypt D T N secret (entropy w)) as [r g']. cbn [fst snd] in *.
  subst r g'. rewrite Hload. cbn [result_bind or_else].
  now rewrite (corrupt_not_missing _ Herr).
Qed.

Lemma read_corrupt_record_not_json :
  exists msg,
    read (value := pyvalue) sessions "user42" "0123456789abcdef" not_json
    = (Raise (JSONDecodeError msg),
       mk_world (after_verify (entropy not_json)) (service not_json)).
Proof.
  eexists.
  eapply (read_corrupt_record (value := pyvalue) sessions "user42"
            "0123456789abcdef" not_json
            (sealed_entity sessions "user42" "{oops" "0123456789abcdef" pool)
            (service not_json)).
  - cbn [get_entity mem_tables]. rewrite mem_get_entity_row.
    unfold not_json. cbn [service]. now rewrite row_insert.
  - vm_compute. reflexivity.
  - vm_compute. reflexivity.
  - vm_compute. reflexivity.
  - vm_compute. reflexivity.
  - vm_compute. reflexivity.
  - left. eexists. reflexivity.
Defined.

(** C10 (frame).  For every key [k], whatever their outcome, [write k]
    and [delete k] leave every row whose table, partition key or row key
    is not that of [(partition_key, k)] as it was; [read k] leaves every
    table and every row as it was, the row for [k] included (of the world
    it changes only the entropy, by the bytes [verify] draws); and after
    [delete k] no row is stored under [(partition_key, k)]. *)
Theorem operations_frame {value : Type} `{Json value}
        (self : StorageAccount) (k secret : string) (v : value)
        (w : world tables) (tn' pk' rk' : string) :
  (tn', pk', rk') <> (table_name self, partition_key self, k) ->
  row (service (snd (write self k v secret w))) tn' pk' rk'
  = row (service w) tn' pk' rk'
  /\ row (service (snd (delete self k w))) tn' pk' rk' = row (service w) tn' pk' rk'
  /\ service (snd (read self k secret w)) = service w
  /\ row (service (snd (delete self k w)))
         (table_name self) (partition_key self) k = None.
Proof.
  intros Hne. split_conj.
  - now apply write_mem_frame.
  - now apply delete_mem_frame.
  - apply read_mem_frame.
  - apply delete_mem_removes.
Qed.

Lemma operations_frame_ada :
  let w := snd (write sessions "user42" ada "0123456789abcdef" no_tables) in
  row (service (snd (write sessions "user7" ada "0123456789abcdef" w)))
      "sessions" "app" "user42"
  = row (service w) "sessions" "app" "user42"
  /\ row (service (snd (delete sessions "user7" w))) "sessions" "app" "user42"
     = row (service w) "sessions" "app" "user42"
  /\ service (snd (read (value := pyvalue) sessions "user42" "0123456789abcdef" w))
     = service w
  /\ row (service (snd (delete sessions "user7" w))) "sessions" "app" "user7" = None.
Proof.
  cbv zeta.
  destruct (operations_frame sessions "user7" "0123456789abcdef" ada
              (snd (write sessions "user42" ada "0123456789abcdef" no_tables))
              "sessions" "app" "user42" ltac:(discriminate)) as (Hw & Hd & _ & Hr).
  destruct (operations_frame sessions "user42" "0123456789abcdef" ada
              (snd (write sessions "user42" ada "0123456789abcdef" no_tables))
              "sessions" "app" "user7" ltac:(discriminate)) as (_ & _ & Hread & _).
  split_conj; assumption.
Defined.


(** * Further properties of the store *)

(** X1 (encrypt, then decrypt).  For every text and every secret of
    accepted key length, [encrypt] returns three texts, and [decrypt] of
    these three texts under the same secret returns the UTF-8 bytes of
    the text that was encrypted, having drawn the sixteen bytes of
    [verify]. *)
Theorem decrypt_of_encrypt (data secret : string) (g g' : rng) :
  accepted_key_length secret = true ->
  exists D T N,
    fst (encrypt data secret g) = Ret (D, T, N)
    /\ decrypt D T N secret g' = (Ret (Some (encode_utf8 data)), after_verify g').
Proof.
  intros Hk. rewrite (encrypt_ok _ _ _ Hk). do 3 eexists.
  split; [reflexivity|].
  apply decrypt_encrypted; [apply next_nonce_nonempty|exact Hk].
Qed.

Lemma decrypt_of_encrypt_hello :
  exists D T N,
    fst (encrypt "hello" "0123456789abcdef" pool) = Ret (D, T, N)
    /\ decrypt D T N "0123456789abcdef" pool
       = (Ret (Some (encode_utf8 "hello")), after_verify pool).
Proof.
  apply (decrypt_of_encrypt "hello" "0123456789abcdef" pool pool).
  vm_compute. reflexivity.
Defined.

(** X2 (what encrypt returns).  For every text and every secret of
    accepted key length, the three texts [encrypt] returns are base64
    that decodes to a ciphertext as long as the UTF-8 bytes of the text,
    a tag of sixteen bytes and a nonce of sixteen bytes. *)
Theorem encrypt_shape (data secret : string) (g : rng) :
  accepted_key_length secret = true ->
  exists D T N c t n,
    fst (encrypt data secret g) = Ret (D, T, N)
    /\ Base64.b64decode D = Ret c
    /\ Base64.b64decode T = Ret t
    /\ Base64.b64decode N = Ret n
    /\ length c = length (encode_utf8 data)
    /\ length t = 16%nat
    /\ length n = 16%nat.
Proof.
  intros Hk. rewrite (encrypt_ok _ _ _ Hk).
  set (k := encode_utf8 secret). set (n := next_nonce g).
  set (c := EAX.ctr k n (encode_utf8 data)).
  exists (Base64.b64encode c), (Base64.b64encode (EAX.mac_tag k n c)),
    (Base64.b64encode n), c, (EAX.mac_tag k n c), n.
  split; [reflexivity|].
  split; [apply b64decode_b64encode|].
  split; [apply b64decode_b64encode|].
  split; [apply b64decode_b64encode|].
  split; [apply ctr_length|].
  split; [apply mac_tag_length|apply next_nonce_length].
Qed.

Lemma encrypt_shape_hello :
  exists D T N c t n,
    fst (encrypt "hello" "0123456789abcdef" pool) = Ret (D, T, N)
    /\ Base64.b64decode D = Ret c
    /\ Base64.b64decode T = Ret t
    /\ Base64.b64decode N = Ret n
    /\ length c = length (encode_utf8 "hello")
    /\ length t = 16%nat
    /\ length n = 16%nat.
Proof.
  apply (encrypt_shape "hello" "0123456789abcdef" pool).
  vm_compute. reflexivity.
Defined.

Section MoreStore.

Context {value : Type} `{Json value} {S : Type} `{TableService S}.

(** X3 (write, value that does not serialise).  If [json.dumps] raises
    on the value, [write] raises that exception and the world is as it
    was: no random bytes were drawn and the backend was not called. *)
Theorem write_unserialisable (self : StorageAccount) (key secret : string)
        (v : value) (w : world S) (e : exn) :
  json_dumps v = Raise e ->
  write self key v secret w = (Raise e, w).
Proof. intros Hd. unfold write, bind, lift. now rewrite Hd. Qed.

(** X4 (write, secret that is no key).  If the value serialises and the
    secret has no accepted key length, [write] raises the cipher's
    [ValueError] and the backend is left as it was: nothing is stored
    under a bad key. *)
Theorem write_rejects_key (self : StorageAccount) (key secret : string)
        (v : value) (w : world S) (s : string) :
  json_dumps v = Ret s ->
  accepted_key_length secret = false ->
  exists e,
    InvalidKeyError e
    /\ fst (write self key v secret w) = Raise e
    /\ service (snd (write self key v secret w)) = service w.
Proof.
  intros Hd Hk. rewrite (write_bad_key _ _ _ _ _ _ Hd Hk).
  eexists. split; [|split; reflexivity]. unfold InvalidKeyError. eauto.
Qed.

(** X5 (read, nothing there).  If the backend answers the lookup with
    [AzureMissingResourceHttpError], [read] returns [None]. *)
Theorem read_missing (self : StorageAccount) (key secret : string)
        (w : world S) (s' : S) :
  get_entity (table_name self) (partition_key self) key (service w)
  = (Raise AzureMissingResourceHttpError, s') ->
  read (value := value) self key secret w = (Ret None, mk_world (entropy w) s').
Proof. intros Hg. rewrite read_open, Hg. reflexivity. Qed.

(** X6 (read, backend failure).  If the backend answers the lookup with
    any other exception, [read] raises it: only the missing resource is
    turned into [None]. *)
Theorem read_backend_failure (self : StorageAccount) (key secret : string)
        (w : world S) (s' : S) (e : exn) :
  get_entity (table_name self) (partition_key self) key (service w) = (Raise e, s') ->
  e <> AzureMissingResourceHttpError ->
  read (value := value) self key secret w = (Raise e, mk_world (entropy w) s').
Proof.
  intros Hg Hne. rewrite read_open, Hg. cbn [or_else].
  destruct e; try reflexivity. contradiction.
Qed.

(** X7 (read, row without a field).  If the fetched entity lacks
    [Data], [Tag] or [Nonce], [read] raises [KeyError] for the first of
    them, in that order, that is missing. *)
Theorem read_missing_field (self : StorageAccount) (key secret : string)
        (w : world S) (data : entity) (s' : S) (name : string) :
  get_entity (table_name self) (partition_key self) key (service w) = (Ret data, s') ->
  data !! name = None ->
  (name = "Data"
   \/ (name = "Tag" /\ is_Some (data !! "Data"))
   \/ (name = "Nonce" /\ is_Some (data !! "Data") /\ is_Some (data !! "Tag"))) ->
  read (value := value) self key secret w
  = (Raise (KeyError name), mk_world (entropy w) s').
Proof.
  intros Hg Hnone Hname. rewrite read_open, Hg.
  unfold open_entity, bind, lift, getitem.
  destruct Hname as [->|[(-> & [D HD])|(-> & [D HD] & [T HT])]].
  - now rewrite Hnone.
  - now rewrite HD, Hnone.
  - now rewrite HD, HT, Hnone.
Qed.

(** X8 (read, secret that is no key).  If the fetched entity has the
    three fields, its nonce decodes to bytes that are not empty, and the
    secret has no accepted key length, [read] raises the cipher's
    [ValueError]: it does not return [None]. *)
Theorem read_rejects_key (self : StorageAccount) (key secret : string)
        (w : world S) (data : entity) (s' : S) (D T N : string) (n : bytes) :
  get_entity (table_name self) (partition_key self) key (service w) = (Ret data, s') ->
  data !! "Data" = Some D ->
  data !! "Tag" = Some T ->
  data !! "Nonce" = Some N ->
  Base64.b64decode N = Ret n ->
  n <> [] ->
  accepted_key_length secret = false ->
  read (value := value) self key secret w
  = (Raise (ValueError (EAX.incorrect_key_length (length (encode_utf8 secret)))),
     mk_world (entropy w) s').
Proof.
  intros Hg HD HT HN Hn Hne Hk. rewrite read_open, Hg.
  rewrite (open_entity_fields _ _ _ _ _ _ HD HT HN).
  rewrite (decrypt_no_cipher _ _ _ _ _ _ _ Hn (new_with_nonce_bad_key _ _ Hne Hk)).
  reflexivity.
Qed.

End MoreStore.

Lemma write_unserialisable_set :
  write sessions "user42" (PySet [PyInt 1]) "0123456789abcdef" no_tables
  = (Raise (TypeError "Object of type set is not JSON serializable"), no_tables).
Proof.
  apply (write_unserialisable sessions "user42" "0123456789abcdef"
           (PySet [PyInt 1]) no_tables).
  reflexivity.
Defined.

Lemma write_rejects_short_key :
  exists e,
    InvalidKeyError e
    /\ fst (write sessions "user42" ada "too short" one_table) = Raise e
    /\ service (snd (write sessions "user42" ada "too short" one_table))
       = service one_table.
Proof.
  eapply (write_rejects_key sessions "user42" "too short" ada one_table).
  - vm_compute. reflexivity.
  - vm_compute. reflexivity.
Defined.

Lemma read_missing_scripted :
  read (value := pyvalue) sessions "user42" "0123456789abcdef"
       (backend [Fails AzureMissingResourceHttpError])
  = (Ret None, mk_world pool (mk_script [] [GetEntity "sessions" "app" "user42"])).
Proof.
  apply (read_missing (value := pyvalue) sessions "user42" "0123456789abcdef"
           (backend [Fails AzureMissingResourceHttpError])).
  reflexivity.
Defined.

Lemma read_backend_failure_500 :
  read (value := pyvalue) sessions "user42" "0123456789abcdef"
       (backend [Fails (AzureHttpError 500)])
  = (Raise (AzureHttpError 500),
     mk_world pool (mk_script [] [GetEntity "sessions" "app" "user42"])).
Proof.
  apply (read_backend_failure (value := pyvalue) sessions "user42"
           "0123456789abcdef" (backend [Fails (AzureHttpError 500)])).
  - reflexivity.
  - discriminate.
Defined.

Lemma read_missing_field_empty :
  read (value := pyvalue) sessions "user42" "0123456789abcdef"
       (backend [Found ∅])
  = (Raise (KeyError "Data"),
     mk_world pool (mk_script [] [GetEntity "sessions" "app" "user42"])).
Proof.
  apply (read_missing_field (value := pyvalue) sessions "user42"
           "0123456789abcdef" (backend [Found ∅]) ∅).
  - reflexivity.
  - reflexivity.
  - left. reflexivity.
Defined.

Lemma read_rejects_short_key :
  read (value := pyvalue) sessions "user42" "short"
       (backend [Found (sealed_entity sessions "user42" "{oops"
                          "0123456789abcdef" pool)])
  = (Raise (ValueError (EAX.incorrect_key_length 5)),
     mk_world pool (mk_script [] [GetEntity "sessions" "app" "user42"])).
Proof.
  eapply (read_rejects_key (value := pyvalue) sessions "user42" "short"
            (backend [Found (sealed_entity sessions "user42" "{oops"
                               "0123456789abcdef" pool)])).
  - reflexivity.
  - vm_compute. reflexivity.
  - vm_compute. reflexivity.
  - vm_compute. reflexivity.
  - vm_compute. reflexivity.
  - discriminate.
  - vm_compute. reflexivity.
Defined.

(** X9 (read asks once).  Whatever the backend answers, [read] sends it
    one request, the lookup of the row [(partition_key, key)] in the
    table of the store, and nothing else: it never writes, deletes or
    creates. *)
Theorem read_one_request {value : Type} `{Json value}
        (self : StorageAccount) (key secret : string) (w : world script) :
  requests (service (snd (read (value := value) self key secret w)))
  = GetEntity (table_name self) (partition_key self) key :: requests (service w).
Proof.
  rewrite read_open. cbn [get_entity scripted]. rewrite answer_nth.
  destruct (nth 0 (replies (service w)) Done) as [|e|x]; try reflexivity.
  now destruct (open_entity e secret (entropy w)).
Qed.

(** X10 (delete asks once).  Whatever the backend answers, [delete] sends
    it one request, the deletion of the row [(partition_key, key)].  It
    returns normally when the backend accepts or answers
    [AzureMissingResourceHttpError], and raises any other exception the
    backend raised. *)
Theorem delete_one_request (self : StorageAccount) (key : string) (w : world script) :
  requests (service (snd (delete self key w)))
  = DeleteEntity (table_name self) (partition_key self) key :: requests (service w)
  /\ fst (delete self key w)
     = match nth 0 (replies (service w)) Done with
       | Fails AzureMissingResourceHttpError => Ret tt
       | Fails e => Raise e
       | _ => Ret tt
       end.
Proof.
  rewrite delete_unfold. cbn [delete_entity scripted]. rewrite answer_nth.
  cbn [fst snd service requests]. split; [reflexivity|].
  destruct (nth 0 (replies (service w)) Done) as [| |e]; try reflexivity.
  now destruct e.
Qed.

(** X11 (delete, then read).  After [delete key], whatever was stored,
    [read key] returns [None]. *)
Theorem read_after_delete {value : Type} `{Json value}
        (self : StorageAccount) (key secret : string) (w : world tables) :
  fst (read (value := value) self key secret (snd (delete self key w))) = Ret None.
Proof. now rewrite read_mem, delete_mem_removes. Qed.

(** X12 (the last write wins).  After two successful [write] calls to
    the same key, [read] under the secret of the second returns what
    [json.loads] makes of the text [json.dumps] made of the second value,
    which is that value when json reads its own text back as it: a write
    to a key that holds a record replaces what [read] sees.  The rows are
    as the second [write] left them, and the entropy is past the sixteen
    bytes [verify] drew. *)
Theorem read_after_two_writes {value : Type} `{Json value}
        (self : StorageAccount) (key secret1 secret2 : string) (v1 v2 v2' : value)
        (w w1 w2 : world tables) (s2 : string) :
  json_dumps v2 = Ret s2 ->
  json_loads (encode_utf8 s2) = Ret v2' ->
  accepted_key_length secret2 = true ->
  write self key v1 secret1 w = (Ret tt, w1) ->
  write self key v2 secret2 w1 = (Ret tt, w2) ->
  read self key secret2 w2
  = (Ret (Some v2'), mk_world (after_verify (entropy w2)) (service w2)).
Proof.
  intros Hd Hl Hk _ Hw2.
  destruct (write_mem_row _ _ _ _ _ _ _ Hd Hk Hw2) as (_ & old & Hrow).
  rewrite read_mem, Hrow, (open_sealed _ _ _ _ _ _ _ Hk), Hl. reflexivity.
Qed.

Lemma read_after_two_writes_ada :
  let w1 := snd (write sessions "user42" (PyDict []) "0123456789abcdef" no_tables) in
  let w2 := snd (write sessions "user42" ada "another-16b-key!" w1) in
  read sessions "user42" "another-16b-key!" w2
  = (Ret (Some ada), mk_world (after_verify (entropy w2)) (service w2)).
Proof.
  eapply (read_after_two_writes sessions "user42" "0123456789abcdef"
            "another-16b-key!" (PyDict []) ada ada no_tables).
  - vm_compute. reflexivity.
  - vm_compute. reflexivity.
  - vm_compute. reflexivity.
  - apply pair_fst_snd. vm_compute. reflexivity.
  - apply pair_fst_snd. vm_compute. reflexivity.
Defined.

(** X13 (write, first upsert accepted or refused).  When the backend
    accepts the first upsert, [write] returns and has sent that one
    request.  When the backend refuses it with anything but
    [AzureMissingResourceHttpError], [write] raises that exception and
    has sent that one request: no table is created and nothing is
    retried, whatever [create_table_if_not_exists] says. *)
Theorem write_first_upsert {value : Type} `{Json value}
        (self : StorageAccount) (key secret : string) (v : value)
        (w : world script) (s : string) :
  json_dumps v = Ret s ->
  accepted_key_length secret = true ->
  nth 0 (replies (service w)) Done <> Fails AzureMissingResourceHttpError ->
  requests (service (snd (write self key v secret w)))
  = InsertOrMergeEntity (table_name self)
      (sealed_entity self key s secret (entropy w)) :: requests (service w)
  /\ fst (write self key v secret w)
     = match nth 0 (replies (service w)) Done with
       | Fails e => Raise e
       | _ => Ret tt
       end.
Proof.
  intros Hd Hk Hr. rewrite (write_unfold _ _ _ _ _ _ Hd Hk). cbv zeta.
  cbn [insert_or_merge_entity create_table scripted]. rewrite !answer_nth.
  destruct (nth 0 (replies (service w)) Done) as [| |e]; try (split; reflexivity).
  destruct e; try (split; reflexivity). contradiction.
Qed.

Lemma write_first_upsert_forbidden :
  fst (write sessions "user42" ada "0123456789abcdef"
             (backend [Fails (AzureHttpError 403)]))
  = Raise (AzureHttpError 403)
  /\ upserts (requests (service (snd
       (write sessions "user42" ada "0123456789abcdef"
              (backend [Fails (AzureHttpError 403)]))))) = 1%nat.
Proof.
  edestruct (write_first_upsert sessions "user42" "0123456789abcdef" ada
               (backend [Fails (AzureHttpError 403)])) as (Hlog & Hres).
  - vm_compute. reflexivity.
  - vm_compute. reflexivity.
  - discriminate.
  - split; [exact Hres|]. rewrite Hlog. reflexivity.
Defined.

(** X14 (write never creates a table unasked).  With
    [create_table_if_not_exists] false, whatever the backend answers,
    [write] sends it the one upsert and nothing else. *)
Theorem write_without_create {value : Type} `{Json value}
        (self : StorageAccount) (key secret : string) (v : value)
        (w : world script) (s : string) :
  json_dumps v = Ret s ->
  accepted_key_length secret = true ->
  create_table_if_not_exists self = false ->
  requests (service (snd (write self key v secret w)))
  = InsertOrMergeEntity (table_name self)
      (sealed_entity self key s secret (entropy w)) :: requests (service w).
Proof.
  intros Hd Hk Hf. rewrite (write_unfold _ _ _ _ _ _ Hd Hk). cbv zeta.
  cbn [insert_or_merge_entity create_table scripted]. rewrite !answer_nth.
  rewrite Hf.
  destruct (nth 0 (replies (service w)) Done) as [| |e]; try reflexivity.
  now destruct (isinstance_AzureMissingResourceHttpError e).
Qed.

Lemma write_without_create_lost :
  let strict := mk_StorageAccount "sessions" "app" false in
  upserts (requests (service (snd
    (write strict "user42" ada "0123456789abcdef" lost_table)))) = 1%nat
  /\ length (requests (service (snd
       (write strict "user42" ada "0123456789abcdef" lost_table)))) = 1%nat.
Proof.
  cbv zeta.
  erewrite (write_without_create (mk_StorageAccount "sessions" "app" false)
              "user42" "0123456789abcdef" ada lost_table).
  - split; reflexivity.
  - vm_compute. reflexivity.
  - vm_compute. reflexivity.
  - reflexivity.
Defined.

(** X16 (write, table missing and not to be created).  On a service
    without the table, with [create_table_if_not_exists] false, [write]
    raises [AzureMissingResourceHttpError] and the service is as it was:
    no table appears and nothing is stored. *)
Theorem write_missing_table_strict {value : Type} `{Json value}
        (self : StorageAccount) (key secret : string) (v : value)
        (w : world tables) (s : string) :
  json_dumps v = Ret s ->
  accepted_key_length secret = true ->
  service w !! table_name self = None ->
  create_table_if_not_exists self = false ->
  fst (write self key v secret w) = Raise AzureMissingResourceHttpError
  /\ service (snd (write self key v secret w)) = service w.
Proof.
  intros Hd Hk Ht Hf. rewrite (write_mem _ _ _ _ _ _ Hd Hk). cbv zeta.
  rewrite Ht, Hf. split; reflexivity.
Qed.

Lemma write_missing_table_strict_ada :
  let strict := mk_StorageAccount "sessions" "app" false in
  fst (write strict "user42" ada "0123456789abcdef" no_tables)
  = Raise AzureMissingResourceHttpError
  /\ service (snd (write strict "user42" ada "0123456789abcdef" no_tables))
     = service no_tables.
Proof.
  eapply (write_missing_table_strict (mk_StorageAccount "sessions" "app" false)
            "user42" "0123456789abcdef" ada no_tables).
  - vm_compute. reflexivity.
  - vm_compute. reflexivity.
  - reflexivity.
  - reflexivity.
Defined.

(** X17 (write merges).  A successful [write] to a key whose row holds
    properties beyond the five of the layout leaves those properties as
    they were: the upsert merges, it does not replace the row. *)
Theorem write_keeps_other_properties {value : Type} `{Json value}
        (self : StorageAccount) (key secret : string) (v : value)
        (w w1 : world tables) (s name : string) (old : entity) :
  json_dumps v = Ret s ->
  accepted_key_length secret = true ->
  write self key v secret w = (Ret tt, w1) ->
  row (service w) (table_name self) (partition_key self) key = Some old ->
  ~ In name row_layout ->
  exists e,
    row (service w1) (table_name self) (partition_key self) key = Some e
    /\ e !! name = old !! name.
Proof.
  intros Hd Hk Hw Hrow Hname. rewrite (write_mem _ _ _ _ _ _ Hd Hk) in Hw.
  cbv zeta in Hw. unfold row in Hrow.
  destruct (service w !! table_name self) as [rs|]; [|discriminate].
  injection Hw as <-. cbn [service]. eexists. split; [apply row_insert|].
  rewrite Hrow. cbn [default].
  apply lookup_union_r. now apply sealed_entity_other.
Qed.

Lemma write_keeps_other_properties_expires :
  let old : entity := <["Expires" := "never"]> ∅ in
  let w : world tables :=
    mk_world pool (<["sessions" := <[("app", "user42") := old]> ∅]> ∅) in
  let w1 := snd (write sessions "user42" ada "0123456789abcdef" w) in
  exists e,
    row (service w1) "sessions" "app" "user42" = Some e
    /\ e !! "Expires" = old !! "Expires".
Proof.
  cbv zeta.
  eapply (write_keeps_other_properties sessions "user42" "0123456789abcdef" ada
            (mk_world pool
               (<["sessions" := <[("app", "user42") := <["Expires" := "never"]> ∅]> ∅]> ∅))).
  - vm_compute. reflexivity.
  - vm_compute. reflexivity.
  - apply pair_fst_snd. vm_compute. reflexivity.
  - cbn [service]. apply row_insert.
  - unfold row_layout. cbn [In]. intros [H|[H|[H|[H|[H|[]]]]]]; discriminate H.
Defined.

(** X18 (decrypt reads its texts through base64 only).  Two triples of
    texts that decode to the same bytes, field by field, or fail to
    decode with the same exception, are decrypted alike: characters that
    base64 skips, and bits it ignores, change nothing. *)
Theorem decrypt_by_decoded (D T N D' T' N' secret : string) (g : rng) :
  Base64.b64decode D = Base64.b64decode D' ->
  Base64.b64decode T = Base64.b64decode T' ->
  Base64.b64decode N = Base64.b64decode N' ->
  decrypt D T N secret g = decrypt D' T' N' secret g.
Proof.
  intros HD HT HN. unfold decrypt. now rewrite HD, HT, HN.
Qed.

Lemma decrypt_by_decoded_spaced :
  decrypt "N0ChyC8=" "sjB0znYHqGD8PRpZnu33YA==" "CzBVep/E6Q4zWH2ix+wRNg=="
          "0123456789abcdef" pool
  = decrypt "N0Ch yC8=" "sjB0znYHqGD8PRpZnu33YB==" "CzBVep/E6Q4zWH2ix+wRNg==!"
            "0123456789abcdef" pool.
Proof.
  apply decrypt_by_decoded; vm_compute; reflexivity.
Defined.


(** The entity [write] builds is laid out for its key. *)
Lemma sealed_entity_laid_out (self : StorageAccount) (key s secret : string)
      (g : rng) :
  laid_out self key (sealed_entity self key s secret g).
Proof.
  unfold laid_out, sealed_entity.
  split; [apply make_entity_PartitionKey|].
  split; [apply make_entity_RowKey|].
  split.
  - intros name. unfold make_entity, row_layout. cbn [In].
    rewrite !lookup_insert_is_Some, lookup_empty, is_Some_alt.
    intuition congruence.
  - intros name text Hin. unfold well_formed. cbn [In] in Hin.
    destruct Hin as [<-|[<-|[<-|[]]]].
    + rewrite make_entity_Data. intros [= <-]. eexists. apply b64decode_b64encode.
    + rewrite make_entity_Tag. intros [= <-]. eexists. apply b64decode_b64encode.
    + rewrite make_entity_Nonce. intros [= <-]. eexists. apply b64decode_b64encode.
Qed.

(** X15 (row layout).  When the value serialises and the secret is a
    key, whatever the backend answers, [write] sends it at least one
    upsert, and everything it sends is an upsert into the table of the
    store or the creation of that table.  The entity of every upsert has
    the partition key of the store under [PartitionKey], the caller's key
    under [RowKey], and besides these the properties [Data], [Tag] and
    [Nonce], which decode as base64, and no other property. *)
Theorem written_entity_layout {value : Type} `{Json value}
        (self : StorageAccount) (key secret : string) (v : value)
        (w : world script) (s : string) :
  json_dumps v = Ret s ->
  accepted_key_length secret = true ->
  exists sent,
    requests (service (snd (write self key v secret w))) = sent ++ requests (service w)
    /\ Forall (sent_by_write self key) sent
    /\ exists e, In (InsertOrMergeEntity (table_name self) e) sent.
Proof.
  intros Hd Hk. rewrite (write_unfold _ _ _ _ _ _ Hd Hk). cbv zeta.
  cbn [insert_or_merge_entity create_table scripted]. rewrite !answer_nth.
  set (e := sealed_entity self key s secret (entropy w)).
  set (up := InsertOrMergeEntity (table_name self) e).
  assert (Hup : sent_by_write self key up)
    by (split; [reflexivity|apply sealed_entity_laid_out]).
  assert (Hct : sent_by_write self key (CreateTable (table_name self)))
    by reflexivity.
  assert (H1 : exists sent,
             up :: requests (service w) = sent ++ requests (service w)
             /\ Forall (sent_by_write self key) sent
             /\ exists e, In (InsertOrMergeEntity (table_name self) e) sent).
  { exists [up]. split_conj; [reflexivity|repeat (constructor; [assumption|]); constructor|].
    exists e. now left. }
  assert (H2 : exists sent,
             CreateTable (table_name self) :: up :: requests (service w)
             = sent ++ requests (service w)
             /\ Forall (sent_by_write self key) sent
             /\ exists e, In (InsertOrMergeEntity (table_name self) e) sent).
  { exists [CreateTable (table_name self); up].
    split_conj; [reflexivity|repeat (constructor; [assumption|]); constructor|].
    exists e. right. now left. }
  assert (H3 : exists sent,
             up :: CreateTable (table_name self) :: up :: requests (service w)
             = sent ++ requests (service w)
             /\ Forall (sent_by_write self key) sent
             /\ exists e, In (InsertOrMergeEntity (table_name self) e) sent).
  { exists [up; CreateTable (table_name self); up].
    split_conj; [reflexivity|repeat (constructor; [assumption|]); constructor|].
    exists e. now left. }
  destruct (nth 0 (replies (service w)) Done) as [| |x]; try exact H1.
  destruct (isinstance_AzureMissingResourceHttpError x); [|exact H1].
  destruct (create_table_if_not_exists self); [|exact H1].
  rewrite ?answer_nth. cbn [replies requests].
  destruct (nth 0 (tl (replies (service w))) Done) as [| |y]; try exact H3.
  exact H2.
Qed.

Lemma written_entity_layout_lost :
  exists sent,
    requests (service (snd (write sessions "user42" ada "0123456789abcdef" lost_table)))
    = sent ++ requests (service lost_table)
    /\ Forall (sent_by_write sessions "user42") sent
    /\ exists e, In (InsertOrMergeEntity "sessions" e) sent.
Proof.
  eapply (written_entity_layout sessions "user42" "0123456789abcdef" ada lost_table).
  - vm_compute. reflexivity.
  - vm_compute. reflexivity.
Defined.


(** The entropy [read] leaves is the entropy [open_entity] leaves, when
    the lookup returns a row, and the entropy it found otherwise. *)
Lemma open_entity_entropy {value : Type} `{Json value} (data : entity)
      (secret : string) (g : rng) :
  snd (open_entity data secret g)
  = match data !! "Data", data !! "Tag", data !! "Nonce" with
    | Some D, Some T, Some N =>
        match fst (decrypt D T N secret g) with
        | Ret _ => after_verify g
        | Raise _ => g
        end
    | _, _, _ => g
    end.
Proof.
  destruct (data !! "Data") as [D|] eqn:HD.
  2:{ unfold open_entity, bind, lift, getitem. now rewrite HD. }
  destruct (data !! "Tag") as [T|] eqn:HT.
  2:{ unfold open_entity, bind, lift, getitem. now rewrite HD, HT. }
  destruct (data !! "Nonce") as [N|] eqn:HN.
  2:{ unfold open_entity, bind, lift, getitem. now rewrite HD, HT, HN. }
  rewrite (open_entity_fields _ _ _ _ _ _ HD HT HN).
  pose proof (decrypt_entropy D T N secret g) as Hg.
  destruct (decrypt D T N secret g) as [[[p|]|e] g']; cbn [fst snd] in *;
    now subst g'.
Qed.

(** X19 (entropy).  When the value serialises, [write] draws sixteen
    random bytes, the nonce, whatever the secret and whatever the backend
    answers.  [read] draws sixteen bytes, those of [verify], exactly when
    the lookup returns a row that has the three fields and [decrypt]
    returns rather than raises, that is when it gets as far as
    [verify]; in every other case it draws none. *)
Theorem entropy_drawn {value : Type} `{Json value} {S : Type} `{TableService S}
        (self : StorageAccount) (key secret : string)
        (v : value) (w : world S) (s : string) :
  json_dumps v = Ret s ->
  tape (entropy (snd (write self key v secret w))) = tape (entropy w)
  /\ cursor (entropy (snd (write self key v secret w)))
     = (cursor (entropy w) + 16)%nat
  /\ entropy (snd (read (value := value) self key secret w))
     = match fst (get_entity (table_name self) (partition_key self) key
                             (service w)) with
       | Ret data =>
           match data !! "Data", data !! "Tag", data !! "Nonce" with
           | Some D, Some T, Some N =>
               match fst (decrypt D T N secret (entropy w)) with
               | Ret _ => after_verify (entropy w)
               | Raise _ => entropy w
               end
           | _, _, _ => entropy w
           end
       | Raise _ => entropy w
       end
  /\ tape (after_verify (entropy w)) = tape (entropy w)
  /\ cursor (after_verify (entropy w)) = (cursor (entropy w) + 16)%nat.
Proof.
  intros Hd.
  assert (Hw : entropy (snd (write self key v secret w)) = after_nonce (entropy w)).
  { destruct (accepted_key_length secret) eqn:Hk.
    - rewrite (write_unfold _ _ _ _ _ _ Hd Hk). cbv zeta.
      destruct (insert_or_merge_entity _ _ _) as [[[]|x] s1]; [reflexivity|].
      destruct (isinstance_AzureMissingResourceHttpError x); [|reflexivity].
      destruct (create_table_if_not_exists self); [|reflexivity].
      destruct (create_table _ _) as [[b|y] s2]; [|reflexivity].
      now destruct (insert_or_merge_entity _ _ _) as [r s3].
    - now rewrite (write_bad_key _ _ _ _ _ _ Hd Hk). }
  rewrite Hw. split_conj; try reflexivity.
  rewrite read_open.
  destruct (get_entity _ _ _ _) as [[data|e] s']; cbn [fst]; [|reflexivity].
  rewrite <- open_entity_entropy.
  now destruct (open_entity data secret (entropy w)).
Qed.

Lemma entropy_drawn_ada :
  let w1 := snd (write sessions "user42" ada "0123456789abcdef" no_tables) in
  cursor (entropy w1) = 16%nat
  /\ cursor (entropy (snd (read (value := pyvalue) sessions "user42"
                                "0123456789abcdef" w1))) = 32%nat
  /\ cursor (entropy (snd (read (value := pyvalue) sessions "user7"
                                "0123456789abcdef" w1))) = 16%nat.
Proof.
  cbv zeta.
  destruct (@entropy_drawn pyvalue py_json tables mem_tables sessions "user42" "0123456789abcdef" ada no_tables
              _ ltac:(vm_compute; reflexivity)) as (_ & Hc & _).
  destruct (@entropy_drawn pyvalue py_json tables mem_tables sessions "user42" "0123456789abcdef" ada
              (snd (write sessions "user42" ada "0123456789abcdef" no_tables))
              _ ltac:(vm_compute; reflexivity)) as (_ & _ & Hr & _).
  destruct (@entropy_drawn pyvalue py_json tables mem_tables sessions "user7" "0123456789abcdef" ada
              (snd (write sessions "user42" ada "0123456789abcdef" no_tables))
              _ ltac:(vm_compute; reflexivity)) as (_ & _ & Hr' & _).
  split_conj.
  - rewrite Hc. reflexivity.
  - rewrite Hr. vm_compute. reflexivity.
  - rewrite Hr'. vm_compute. reflexivity.
Defined.

(** X20 (another secret).  After [write key value secretA] has stored a
    row, [read key secretB] under any secret of accepted key length
    compares the tag that [secretB] yields over the stored nonce and
    ciphertext with the stored tag.  It returns absent when the two
    differ.  When they are the same, it hands the bytes that [secretB]
    decrypts to [json.loads] and returns or raises what comes of them. *)
Theorem read_with_other_secret {value : Type} `{Json value}
        (self : StorageAccount) (key secretA secretB : string) (v : value)
        (w w1 : world tables) (s : string) :
  json_dumps v = Ret s ->
  accepted_key_length secretA = true ->
  accepted_key_length secretB = true ->
  write self key v secretA w = (Ret tt, w1) ->
  let n := next_nonce (entropy w) in
  let c := EAX.ctr (encode_utf8 secretA) n (encode_utf8 s) in
  read self key secretB w1
  = (if EAX.bytes_eqb (EAX.mac_tag (encode_utf8 secretB) n c)
                      (EAX.mac_tag (encode_utf8 secretA) n c)
     then or_else None
            (result_bind (json_loads (EAX.ctr (encode_utf8 secretB) n c))
                         (fun v => Ret (Some v)))
     else Ret None,
     mk_world (after_verify (entropy w1)) (service w1)).
Proof.
  intros Hd HkA HkB Hw. cbv zeta.
  destruct (write_mem_row _ _ _ _ _ _ _ Hd HkA Hw) as (_ & old & Hrow).
  rewrite read_mem, Hrow.
  pose proof (open_sealed_other (value := value) self key s secretA secretB
                (entropy w) (entropy w1) old HkB) as Ho.
  cbv zeta in Ho. rewrite Ho.
  now destruct (EAX.bytes_eqb _ _).
Qed.

Lemma read_with_other_secret_ada :
  fst (read (value := pyvalue) sessions "user42" "different-key-16"
            (snd (write sessions "user42" ada "0123456789abcdef" no_tables)))
  = Ret None.
Proof.
  pose proof (@read_with_other_secret pyvalue py_json sessions "user42" "0123456789abcdef"
                "different-key-16" ada no_tables
                (snd (write sessions "user42" ada "0123456789abcdef" no_tables)) _
                ltac:(vm_compute; reflexivity) ltac:(vm_compute; reflexivity)
                ltac:(vm_compute; reflexivity)
                ltac:(apply pair_fst_snd; vm_compute; reflexivity)) as P.
  cbv zeta in P. refine (eq_trans (f_equal fst P) _). cbn [fst].
  vm_compute. reflexivity.
Defined.
